(** * Activity sign-up page: a model of [src/static/app.js]

    The page script is embedded shallowly.  JavaScript strings are lists
    of UTF-16 code units, the built-ins the script calls ([split],
    [trim], [toUpperCase], [encodeURIComponent], ...) are functions on
    such lists, the DOM nodes the script builds are a small tree type,
    and the two event handlers are functions from what the network
    answers to the sequence of effects the handler performs. *)

From Stdlib Require Import ZArith List Bool String Ascii Lia.
From Stdlib Require Import DecimalString DecimalZ.
Import ListNotations.
Open Scope Z_scope.

(** ** Strings *)

(** A JavaScript string: its UTF-16 code units, in order. *)
Definition jsstring := list Z.

Definition code_unit (c : Z) : Prop := 0 <= c < 65536.

(** Every element is a 16-bit code unit. *)
Definition well_typed (s : jsstring) : Prop := Forall code_unit s.

Definition well_typedb (s : jsstring) : bool :=
  forallb (fun c => (0 <=? c) && (c <? 65536)) s.

(** An ASCII literal as a JavaScript string. *)
Definition str (s : string) : jsstring :=
  map (fun c => Z.of_N (N_of_ascii c)) (list_ascii_of_string s).
Arguments str _%_string.

Definition jsstring_eqb (a b : jsstring) : bool :=
  if list_eq_dec Z.eq_dec a b then true else false.

(** ** Built-ins of the language *)

Module JS.

(** [ToBoolean] of a string: the empty string is the only falsy one. *)
Definition truthy (s : jsstring) : bool :=
  match s with [] => false | _ :: _ => true end.

(** [String.prototype.split] with a separator of one code unit: the
    pieces between the occurrences, empty ones included. *)
Fixpoint split_from (sep : Z) (piece s : jsstring) : list jsstring :=
  match s with
  | [] => [piece]
  | c :: rest =>
      if c =? sep then piece :: split_from sep [] rest
      else split_from sep (piece ++ [c]) rest
  end.

Definition split (sep : Z) (s : jsstring) : list jsstring :=
  split_from sep [] s.

(** [String.prototype.split] with the regular expression [/[cls]+/]: a
    character class repeated one or more times.  The expression never
    matches the empty string and is greedy, so a match at position [q]
    consumes the whole run of class members that starts there.
    [matched] records that the scan is inside such a run; [piece] is
    the text collected since the end of the previous match. *)
Fixpoint regexp_split_from (cls : Z -> bool) (matched : bool)
    (piece s : jsstring) : list jsstring :=
  match s with
  | [] => [piece]
  | c :: rest =>
      if cls c then
        if matched then regexp_split_from cls true [] rest
        else piece :: regexp_split_from cls true [] rest
      else regexp_split_from cls false (piece ++ [c]) rest
  end.

Definition regexp_split (cls : Z -> bool) (s : jsstring) : list jsstring :=
  regexp_split_from cls false [] s.

(** [WhiteSpace] and [LineTerminator] code points, the ones [trim]
    strips: TAB, LF, VT, FF, CR, SP, NBSP, U+1680, U+2000..U+200A,
    LS, PS, U+202F, U+205F, U+3000 and ZWNBSP. *)
Definition white_space (c : Z) : bool :=
  ((9 <=? c) && (c <=? 13)) || (c =? 32) || (c =? 160) || (c =? 5760)
  || ((8192 <=? c) && (c <=? 8202)) || (c =? 8232) || (c =? 8233)
  || (c =? 8239) || (c =? 8287) || (c =? 12288) || (c =? 65279).

Fixpoint trimStart (s : jsstring) : jsstring :=
  match s with
  | [] => []
  | c :: rest => if white_space c then trimStart rest else s
  end.

Definition trimEnd (s : jsstring) : jsstring := rev (trimStart (rev s)).

Definition trim (s : jsstring) : jsstring := trimEnd (trimStart s).

(** [s[0]]: the string of the first code unit, [undefined] ([None])
    when [s] is empty. *)
Definition index0 (s : jsstring) : option jsstring :=
  match s with [] => None | c :: _ => Some [c] end.

(** [ToBoolean] of a value that is a string or [undefined]. *)
Definition truthy_value (v : option jsstring) : bool :=
  match v with None => false | Some s => truthy s end.

(** [Array.prototype.join("")]: [undefined] elements count as empty. *)
Definition join (l : list (option jsstring)) : jsstring :=
  List.concat (map (fun v => match v with Some s => s | None => [] end) l).

(** *** Upper-casing *)

Definition is_lead (c : Z) : bool := (55296 <=? c) && (c <=? 56319).
Definition is_trail (c : Z) : bool := (56320 <=? c) && (c <=? 57343).

(** [UTF16SurrogatePairToCodePoint]. *)
Definition pair_code_point (lead trail : Z) : Z :=
  (lead - 55296) * 1024 + (trail - 56320) + 65536.

(** [StringToCodePoints]: surrogate pairs are combined, an unpaired
    surrogate stands for itself. *)
Fixpoint StringToCodePoints (s : jsstring) : list Z :=
  match s with
  | [] => []
  | c :: rest =>
      if is_lead c then
        match rest with
        | d :: rest' =>
            if is_trail d then pair_code_point c d :: StringToCodePoints rest'
            else c :: StringToCodePoints rest
        | [] => [c]
        end
      else c :: StringToCodePoints rest
  end.

(** [UTF16EncodeCodePoint]. *)
Definition UTF16EncodeCodePoint (cp : Z) : jsstring :=
  if cp <=? 65535 then [cp]
  else [(cp - 65536) / 1024 + 55296; (cp - 65536) mod 1024 + 56320].

Definition CodePointsToString (cps : list Z) : jsstring :=
  flat_map UTF16EncodeCodePoint cps.

(** The code points whose upper-case form differs from themselves, each
    with that form: the simple mappings of UnicodeData.txt and the
    unconditional ones of SpecialCasing.txt (Unicode 14.0). *)
Definition upper_table : list (Z * list Z) := [
  (97, [65]); (98, [66]); (99, [67]); (100, [68]); (101, [69]); (102, [70]);
  (103, [71]); (104, [72]); (105, [73]); (106, [74]); (107, [75]);
  (108, [76]); (109, [77]); (110, [78]); (111, [79]); (112, [80]);
  (113, [81]); (114, [82]); (115, [83]); (116, [84]); (117, [85]);
  (118, [86]); (119, [87]); (120, [88]); (121, [89]); (122, [90]);
  (181, [924]); (223, [83; 83]); (224, [192]); (225, [193]); (226, [194]);
  (227, [195]); (228, [196]); (229, [197]); (230, [198]); (231, [199]);
  (232, [200]); (233, [201]); (234, [202]); (235, [203]); (236, [204]);
  (237, [205]); (238, [206]); (239, [207]); (240, [208]); (241, [209]);
  (242, [210]); (243, [211]); (244, [212]); (245, [213]); (246, [214]);
  (248, [216]); (249, [217]); (250, [218]); (251, [219]); (252, [220]);
  (253, [221]); (254, [222]); (255, [376]); (257, [256]); (259, [258]);
  (261, [260]); (263, [262]); (265, [264]); (267, [266]); (269, [268]);
  (271, [270]); (273, [272]); (275, [274]); (277, [276]); (279, [278]);
  (281, [280]); (283, [282]); (285, [284]); (287, [286]); (289, [288]);
  (291, [290]); (293, [292]); (295, [294]); (297, [296]); (299, [298]);
  (301, [300]); (303, [302]); (305, [73]); (307, [306]); (309, [308]);
  (311, [310]); (314, [313]); (316, [315]); (318, [317]); (320, [319]);
  (322, [321]); (324, [323]); (326, [325]); (328, [327]); (329, [700; 78]);
  (331, [330]); (333, [332]); (335, [334]); (337, [336]); (339, [338]);
  (341, [340]); (343, [342]); (345, [344]); (347, [346]); (349, [348]);
  (351, [350]); (353, [352]); (355, [354]); (357, [356]); (359, [358]);
  (361, [360]); (363, [362]); (365, [364]); (367, [366]); (369, [368]);
  (371, [370]); (373, [372]); (375, [374]); (378, [377]); (380, [379]);
  (382, [381]); (383, [83]); (384, [579]); (387, [386]); (389, [388]);
  (392, [391]); (396, [395]); (402, [401]); (405, [502]); (409, [408]);
  (410, [573]); (414, [544]); (417, [416]); (419, [418]); (421, [420]);
  (424, [423]); (429, [428]); (432, [431]); (436, [435]); (438, [437]);
  (441, [440]); (445, [444]); (447, [503]); (453, [452]); (454, [452]);
  (456, [455]); (457, [455]); (459, [458]); (460, [458]); (462, [461]);
  (464, [463]); (466, [465]); (468, [467]); (470, [469]); (472, [471]);
  (474, [473]); (476, [475]); (477, [398]); (479, [478]); (481, [480]);
  (483, [482]); (485, [484]); (487, [486]); (489, [488]); (491, [490]);
  (493, [492]); (495, [494]); (496, [74; 780]); (498, [497]); (499, [497]);
  (501, [500]); (505, [504]); (507, [506]); (509, [508]); (511, [510]);
  (513, [512]); (515, [514]); (517, [516]); (519, [518]); (521, [520]);
  (523, [522]); (525, [524]); (527, [526]); (529, [528]); (531, [530]);
  (533, [532]); (535, [534]); (537, [536]); (539, [538]); (541, [540]);
  (543, [542]); (547, [546]); (549, [548]); (551, [550]); (553, [552]);
  (555, [554]); (557, [556]); (559, [558]); (561, [560]); (563, [562]);
  (572, [571]); (575, [11390]); (576, [11391]); (578, [577]); (583, [582]);
  (585, [584]); (587, [586]); (589, [588]); (591, [590]); (592, [11375]);
  (593, [11373]); (594, [11376]); (595, [385]); (596, [390]); (598, [393]);
  (599, [394]); (601, [399]); (603, [400]); (604, [42923]); (608, [403]);
  (609, [42924]); (611, [404]); (613, [42893]); (614, [42922]); (616, [407]);
  (617, [406]); (618, [42926]); (619, [11362]); (620, [42925]); (623, [412]);
  (625, [11374]); (626, [413]); (629, [415]); (637, [11364]); (640, [422]);
  (642, [42949]); (643, [425]); (647, [42929]); (648, [430]); (649, [580]);
  (650, [433]); (651, [434]); (652, [581]); (658, [439]); (669, [42930]);
  (670, [42928]); (837, [921]); (881, [880]); (883, [882]); (887, [886]);
  (891, [1021]); (892, [1022]); (893, [1023]); (912, [921; 776; 769]);
  (940, [902]); (941, [904]); (942, [905]); (943, [906]);
  (944, [933; 776; 769]); (945, [913]); (946, [914]); (947, [915]);
  (948, [916]); (949, [917]); (950, [918]); (951, [919]); (952, [920]);
  (953, [921]); (954, [922]); (955, [923]); (956, [924]); (957, [925]);
  (958, [926]); (959, [927]); (960, [928]); (961, [929]); (962, [931]);
  (963, [931]); (964, [932]); (965, [933]); (966, [934]); (967, [935]);
  (968, [936]); (969, [937]); (970, [938]); (971, [939]); (972, [908]);
  (973, [910]); (974, [911]); (976, [914]); (977, [920]); (981, [934]);
  (982, [928]); (983, [975]); (985, [984]); (987, [986]); (989, [988]);
  (991, [990]); (993, [992]); (995, [994]); (997, [996]); (999, [998]);
  (1001, [1000]); (1003, [1002]); (1005, [1004]); (1007, [1006]);
  (1008, [922]); (1009, [929]); (1010, [1017]); (1011, [895]); (1013, [917]);
  (1016, [1015]); (1019, [1018]); (1072, [1040]); (1073, [1041]);
  (1074, [1042]); (1075, [1043]); (1076, [1044]); (1077, [1045]);
  (1078, [1046]); (1079, [1047]); (1080, [1048]); (1081, [1049]);
  (1082, [1050]); (1083, [1051]); (1084, [1052]); (1085, [1053]);
  (1086, [1054]); (1087, [1055]); (1088, [1056]); (1089, [1057]);
  (1090, [1058]); (1091, [1059]); (1092, [1060]); (1093, [1061]);
  (1094, [1062]); (1095, [1063]); (1096, [1064]); (1097, [1065]);
  (1098, [1066]); (1099, [1067]); (1100, [1068]); (1101, [1069]);
  (1102, [1070]); (1103, [1071]); (1104, [1024]); (1105, [1025]);
  (1106, [1026]); (1107, [1027]); (1108, [1028]); (1109, [1029]);
  (1110, [1030]); (1111, [1031]); (1112, [1032]); (1113, [1033]);
  (1114, [1034]); (1115, [1035]); (1116, [1036]); (1117, [1037]);
  (1118, [1038]); (1119, [1039]); (1121, [1120]); (1123, [1122]);
  (1125, [1124]); (1127, [1126]); (1129, [1128]); (1131, [1130]);
  (1133, [1132]); (1135, [1134]); (1137, [1136]); (1139, [1138]);
  (1141, [1140]); (1143, [1142]); (1145, [1144]); (1147, [1146]);
  (1149, [1148]); (1151, [1150]); (1153, [1152]); (1163, [1162]);
  (1165, [1164]); (1167, [1166]); (1169, [1168]); (1171, [1170]);
  (1173, [1172]); (1175, [1174]); (1177, [1176]); (1179, [1178]);
  (1181, [1180]); (1183, [1182]); (1185, [1184]); (1187, [1186]);
  (1189, [1188]); (1191, [1190]); (1193, [1192]); (1195, [1194]);
  (1197, [1196]); (1199, [1198]); (1201, [1200]); (1203, [1202]);
  (1205, [1204]); (1207, [1206]); (1209, [1208]); (1211, [1210]);
  (1213, [1212]); (1215, [1214]); (1218, [1217]); (1220, [1219]);
  (1222, [1221]); (1224, [1223]); (1226, [1225]); (1228, [1227]);
  (1230, [1229]); (1231, [1216]); (1233, [1232]); (1235, [1234]);
  (1237, [1236]); (1239, [1238]); (1241, [1240]); (1243, [1242]);
  (1245, [1244]); (1247, [1246]); (1249, [1248]); (1251, [1250]);
  (1253, [1252]); (1255, [1254]); (1257, [1256]); (1259, [1258]);
  (1261, [1260]); (1263, [1262]); (1265, [1264]); (1267, [1266]);
  (1269, [1268]); (1271, [1270]); (1273, [1272]); (1275, [1274]);
  (1277, [1276]); (1279, [1278]); (1281, [1280]); (1283, [1282]);
  (1285, [1284]); (1287, [1286]); (1289, [1288]); (1291, [1290]);
  (1293, [1292]); (1295, [1294]); (1297, [1296]); (1299, [1298]);
  (1301, [1300]); (1303, [1302]); (1305, [1304]); (1307, [1306]);
  (1309, [1308]); (1311, [1310]); (1313, [1312]); (1315, [1314]);
  (1317, [1316]); (1319, [1318]); (1321, [1320]); (1323, [1322]);
  (1325, [1324]); (1327, [1326]); (1377, [1329]); (1378, [1330]);
  (1379, [1331]); (1380, [1332]); (1381, [1333]); (1382, [1334]);
  (1383, [1335]); (1384, [1336]); (1385, [1337]); (1386, [1338]);
  (1387, [1339]); (1388, [1340]); (1389, [1341]); (1390, [1342]);
  (1391, [1343]); (1392, [1344]); (1393, [1345]); (1394, [1346]);
  (1395, [1347]); (1396, [1348]); (1397, [1349]); (1398, [1350]);
  (1399, [1351]); (1400, [1352]); (1401, [1353]); (1402, [1354]);
  (1403, [1355]); (1404, [1356]); (1405, [1357]); (1406, [1358]);
  (1407, [1359]); (1408, [1360]); (1409, [1361]); (1410, [1362]);
  (1411, [1363]); (1412, [1364]); (1413, [1365]); (1414, [1366]);
  (1415, [1333; 1362]); (4304, [7312]); (4305, [7313]); (4306, [7314]);
  (4307, [7315]); (4308, [7316]); (4309, [7317]); (4310, [7318]);
  (4311, [7319]); (4312, [7320]); (4313, [7321]); (4314, [7322]);
  (4315, [7323]); (4316, [7324]); (4317, [7325]); (4318, [7326]);
  (4319, [7327]); (4320, [7328]); (4321, [7329]); (4322, [7330]);
  (4323, [7331]); (4324, [7332]); (4325, [7333]); (4326, [7334]);
  (4327, [7335]); (4328, [7336]); (4329, [7337]); (4330, [7338]);
  (4331, [7339]); (4332, [7340]); (4333, [7341]); (4334, [7342]);
  (4335, [7343]); (4336, [7344]); (4337, [7345]); (4338, [7346]);
  (4339, [7347]); (4340, [7348]); (4341, [7349]); (4342, [7350]);
  (4343, [7351]); (4344, [7352]); (4345, [7353]); (4346, [7354]);
  (4349, [7357]); (4350, [7358]); (4351, [7359]); (5112, [5104]);
  (5113, [5105]); (5114, [5106]); (5115, [5107]); (5116, [5108]);
  (5117, [5109]); (7296, [1042]); (7297, [1044]); (7298, [1054]);
  (7299, [1057]); (7300, [1058]); (7301, [1058]); (7302, [1066]);
  (7303, [1122]); (7304, [42570]); (7545, [42877]); (7549, [11363]);
  (7566, [42950]); (7681, [7680]); (7683, [7682]); (7685, [7684]);
  (7687, [7686]); (7689, [7688]); (7691, [7690]); (7693, [7692]);
  (7695, [7694]); (7697, [7696]); (7699, [7698]); (7701, [7700]);
  (7703, [7702]); (7705, [7704]); (7707, [7706]); (7709, [7708]);
  (7711, [7710]); (7713, [7712]); (7715, [7714]); (7717, [7716]);
  (7719, [7718]); (7721, [7720]); (7723, [7722]); (7725, [7724]);
  (7727, [7726]); (7729, [7728]); (7731, [7730]); (7733, [7732]);
  (7735, [7734]); (7737, [7736]); (7739, [7738]); (7741, [7740]);
  (7743, [7742]); (7745, [7744]); (7747, [7746]); (7749, [7748]);
  (7751, [7750]); (7753, [7752]); (7755, [7754]); (7757, [7756]);
  (7759, [7758]); (7761, [7760]); (7763, [7762]); (7765, [7764]);
  (7767, [7766]); (7769, [7768]); (7771, [7770]); (7773, [7772]);
  (7775, [7774]); (7777, [7776]); (7779, [7778]); (7781, [7780]);
  (7783, [7782]); (7785, [7784]); (7787, [7786]); (7789, [7788]);
  (7791, [7790]); (7793, [7792]); (7795, [7794]); (7797, [7796]);
  (7799, [7798]); (7801, [7800]); (7803, [7802]); (7805, [7804]);
  (7807, [7806]); (7809, [7808]); (7811, [7810]); (7813, [7812]);
  (7815, [7814]); (7817, [7816]); (7819, [7818]); (7821, [7820]);
  (7823, [7822]); (7825, [7824]); (7827, [7826]); (7829, [7828]);
  (7830, [72; 817]); (7831, [84; 776]); (7832, [87; 778]); (7833, [89; 778]);
  (7834, [65; 702]); (7835, [7776]); (7841, [7840]); (7843, [7842]);
  (7845, [7844]); (7847, [7846]); (7849, [7848]); (7851, [7850]);
  (7853, [7852]); (7855, [7854]); (7857, [7856]); (7859, [7858]);
  (7861, [7860]); (7863, [7862]); (7865, [7864]); (7867, [7866]);
  (7869, [7868]); (7871, [7870]); (7873, [7872]); (7875, [7874]);
  (7877, [7876]); (7879, [7878]); (7881, [7880]); (7883, [7882]);
  (7885, [7884]); (7887, [7886]); (7889, [7888]); (7891, [7890]);
  (7893, [7892]); (7895, [7894]); (7897, [7896]); (7899, [7898]);
  (7901, [7900]); (7903, [7902]); (7905, [7904]); (7907, [7906]);
  (7909, [7908]); (7911, [7910]); (7913, [7912]); (7915, [7914]);
  (7917, [7916]); (7919, [7918]); (7921, [7920]); (7923, [7922]);
  (7925, [7924]); (7927, [7926]); (7929, [7928]); (7931, [7930]);
  (7933, [7932]); (7935, [7934]); (7936, [7944]); (7937, [7945]);
  (7938, [7946]); (7939, [7947]); (7940, [7948]); (7941, [7949]);
  (7942, [7950]); (7943, [7951]); (7952, [7960]); (7953, [7961]);
  (7954, [7962]); (7955, [7963]); (7956, [7964]); (7957, [7965]);
  (7968, [7976]); (7969, [7977]); (7970, [7978]); (7971, [7979]);
  (7972, [7980]); (7973, [7981]); (7974, [7982]); (7975, [7983]);
  (7984, [7992]); (7985, [7993]); (7986, [7994]); (7987, [7995]);
  (7988, [7996]); (7989, [7997]); (7990, [7998]); (7991, [7999]);
  (8000, [8008]); (8001, [8009]); (8002, [8010]); (8003, [8011]);
  (8004, [8012]); (8005, [8013]); (8016, [933; 787]); (8017, [8025]);
  (8018, [933; 787; 768]); (8019, [8027]); (8020, [933; 787; 769]);
  (8021, [8029]); (8022, [933; 787; 834]); (8023, [8031]); (8032, [8040]);
  (8033, [8041]); (8034, [8042]); (8035, [8043]); (8036, [8044]);
  (8037, [8045]); (8038, [8046]); (8039, [8047]); (8048, [8122]);
  (8049, [8123]); (8050, [8136]); (8051, [8137]); (8052, [8138]);
  (8053, [8139]); (8054, [8154]); (8055, [8155]); (8056, [8184]);
  (8057, [8185]); (8058, [8170]); (8059, [8171]); (8060, [8186]);
  (8061, [8187]); (8064, [7944; 921]); (8065, [7945; 921]);
  (8066, [7946; 921]); (8067, [7947; 921]); (8068, [7948; 921]);
  (8069, [7949; 921]); (8070, [7950; 921]); (8071, [7951; 921]);
  (8072, [7944; 921]); (8073, [7945; 921]); (8074, [7946; 921]);
  (8075, [7947; 921]); (8076, [7948; 921]); (8077, [7949; 921]);
  (8078, [7950; 921]); (8079, [7951; 921]); (8080, [7976; 921]);
  (8081, [7977; 921]); (8082, [7978; 921]); (8083, [7979; 921]);
  (8084, [7980; 921]); (8085, [7981; 921]); (8086, [7982; 921]);
  (8087, [7983; 921]); (8088, [7976; 921]); (8089, [7977; 921]);
  (8090, [7978; 921]); (8091, [7979; 921]); (8092, [7980; 921]);
  (8093, [7981; 921]); (8094, [7982; 921]); (8095, [7983; 921]);
  (8096, [8040; 921]); (8097, [8041; 921]); (8098, [8042; 921]);
  (8099, [8043; 921]); (8100, [8044; 921]); (8101, [8045; 921]);
  (8102, [8046; 921]); (8103, [8047; 921]); (8104, [8040; 921]);
  (8105, [8041; 921]); (8106, [8042; 921]); (8107, [8043; 921]);
  (8108, [8044; 921]); (8109, [8045; 921]); (8110, [8046; 921]);
  (8111, [8047; 921]); (8112, [8120]); (8113, [8121]); (8114, [8122; 921]);
  (8115, [913; 921]); (8116, [902; 921]); (8118, [913; 834]);
  (8119, [913; 834; 921]); (8124, [913; 921]); (8126, [921]);
  (8130, [8138; 921]); (8131, [919; 921]); (8132, [905; 921]);
  (8134, [919; 834]); (8135, [919; 834; 921]); (8140, [919; 921]);
  (8144, [8152]); (8145, [8153]); (8146, [921; 776; 768]);
  (8147, [921; 776; 769]); (8150, [921; 834]); (8151, [921; 776; 834]);
  (8160, [8168]); (8161, [8169]); (8162, [933; 776; 768]);
  (8163, [933; 776; 769]); (8164, [929; 787]); (8165, [8172]);
  (8166, [933; 834]); (8167, [933; 776; 834]); (8178, [8186; 921]);
  (8179, [937; 921]); (8180, [911; 921]); (8182, [937; 834]);
  (8183, [937; 834; 921]); (8188, [937; 921]); (8526, [8498]);
  (8560, [8544]); (8561, [8545]); (8562, [8546]); (8563, [8547]);
  (8564, [8548]); (8565, [8549]); (8566, [8550]); (8567, [8551]);
  (8568, [8552]); (8569, [8553]); (8570, [8554]); (8571, [8555]);
  (8572, [8556]); (8573, [8557]); (8574, [8558]); (8575, [8559]);
  (8580, [8579]); (9424, [9398]); (9425, [9399]); (9426, [9400]);
  (9427, [9401]); (9428, [9402]); (9429, [9403]); (9430, [9404]);
  (9431, [9405]); (9432, [9406]); (9433, [9407]); (9434, [9408]);
  (9435, [9409]); (9436, [9410]); (9437, [9411]); (9438, [9412]);
  (9439, [9413]); (9440, [9414]); (9441, [9415]); (9442, [9416]);
  (9443, [9417]); (9444, [9418]); (9445, [9419]); (9446, [9420]);
  (9447, [9421]); (9448, [9422]); (9449, [9423]); (11312, [11264]);
  (11313, [11265]); (11314, [11266]); (11315, [11267]); (11316, [11268]);
  (11317, [11269]); (11318, [11270]); (11319, [11271]); (11320, [11272]);
  (11321, [11273]); (11322, [11274]); (11323, [11275]); (11324, [11276]);
  (11325, [11277]); (11326, [11278]); (11327, [11279]); (11328, [11280]);
  (11329, [11281]); (11330, [11282]); (11331, [11283]); (11332, [11284]);
  (11333, [11285]); (11334, [11286]); (11335, [11287]); (11336, [11288]);
  (11337, [11289]); (11338, [11290]); (11339, [11291]); (11340, [11292]);
  (11341, [11293]); (11342, [11294]); (11343, [11295]); (11344, [11296]);
  (11345, [11297]); (11346, [11298]); (11347, [11299]); (11348, [11300]);
  (11349, [11301]); (11350, [11302]); (11351, [11303]); (11352, [11304]);
  (11353, [11305]); (11354, [11306]); (11355, [11307]); (11356, [11308]);
  (11357, [11309]); (11358, [11310]); (11359, [11311]); (11361, [11360]);
  (11365, [570]); (11366, [574]); (11368, [11367]); (11370, [11369]);
  (11372, [11371]); (11379, [11378]); (11382, [11381]); (11393, [11392]);
  (11395, [11394]); (11397, [11396]); (11399, [11398]); (11401, [11400]);
  (11403, [11402]); (11405, [11404]); (11407, [11406]); (11409, [11408]);
  (11411, [11410]); (11413, [11412]); (11415, [11414]); (11417, [11416]);
  (11419, [11418]); (11421, [11420]); (11423, [11422]); (11425, [11424]);
  (11427, [11426]); (11429, [11428]); (11431, [11430]); (11433, [11432]);
  (11435, [11434]); (11437, [11436]); (11439, [11438]); (11441, [11440]);
  (11443, [11442]); (11445, [11444]); (11447, [11446]); (11449, [11448]);
  (11451, [11450]); (11453, [11452]); (11455, [11454]); (11457, [11456]);
  (11459, [11458]); (11461, [11460]); (11463, [11462]); (11465, [11464]);
  (11467, [11466]); (11469, [11468]); (11471, [11470]); (11473, [11472]);
  (11475, [11474]); (11477, [11476]); (11479, [11478]); (11481, [11480]);
  (11483, [11482]); (11485, [11484]); (11487, [11486]); (11489, [11488]);
  (11491, [11490]); (11500, [11499]); (11502, [11501]); (11507, [11506]);
  (11520, [4256]); (11521, [4257]); (11522, [4258]); (11523, [4259]);
  (11524, [4260]); (11525, [4261]); (11526, [4262]); (11527, [4263]);
  (11528, [4264]); (11529, [4265]); (11530, [4266]); (11531, [4267]);
  (11532, [4268]); (11533, [4269]); (11534, [4270]); (11535, [4271]);
  (11536, [4272]); (11537, [4273]); (11538, [4274]); (11539, [4275]);
  (11540, [4276]); (11541, [4277]); (11542, [4278]); (11543, [4279]);
  (11544, [4280]); (11545, [4281]); (11546, [4282]); (11547, [4283]);
  (11548, [4284]); (11549, [4285]); (11550, [4286]); (11551, [4287]);
  (11552, [4288]); (11553, [4289]); (11554, [4290]); (11555, [4291]);
  (11556, [4292]); (11557, [4293]); (11559, [4295]); (11565, [4301]);
  (42561, [42560]); (42563, [42562]); (42565, [42564]); (42567, [42566]);
  (42569, [42568]); (42571, [42570]); (42573, [42572]); (42575, [42574]);
  (42577, [42576]); (42579, [42578]); (42581, [42580]); (42583, [42582]);
  (42585, [42584]); (42587, [42586]); (42589, [42588]); (42591, [42590]);
  (42593, [42592]); (42595, [42594]); (42597, [42596]); (42599, [42598]);
  (42601, [42600]); (42603, [42602]); (42605, [42604]); (42625, [42624]);
  (42627, [42626]); (42629, [42628]); (42631, [42630]); (42633, [42632]);
  (42635, [42634]); (42637, [42636]); (42639, [42638]); (42641, [42640]);
  (42643, [42642]); (42645, [42644]); (42647, [42646]); (42649, [42648]);
  (42651, [42650]); (42787, [42786]); (42789, [42788]); (42791, [42790]);
  (42793, [42792]); (42795, [42794]); (42797, [42796]); (42799, [42798]);
  (42803, [42802]); (42805, [42804]); (42807, [42806]); (42809, [42808]);
  (42811, [42810]); (42813, [42812]); (42815, [42814]); (42817, [42816]);
  (42819, [42818]); (42821, [42820]); (42823, [42822]); (42825, [42824]);
  (42827, [42826]); (42829, [42828]); (42831, [42830]); (42833, [42832]);
  (42835, [42834]); (42837, [42836]); (42839, [42838]); (42841, [42840]);
  (42843, [42842]); (42845, [42844]); (42847, [42846]); (42849, [42848]);
  (42851, [42850]); (42853, [42852]); (42855, [42854]); (42857, [42856]);
  (42859, [42858]); (42861, [42860]); (42863, [42862]); (42874, [42873]);
  (42876, [42875]); (42879, [42878]); (42881, [42880]); (42883, [42882]);
  (42885, [42884]); (42887, [42886]); (42892, [42891]); (42897, [42896]);
  (42899, [42898]); (42900, [42948]); (42903, [42902]); (42905, [42904]);
  (42907, [42906]); (42909, [42908]); (42911, [42910]); (42913, [42912]);
  (42915, [42914]); (42917, [42916]); (42919, [42918]); (42921, [42920]);
  (42933, [42932]); (42935, [42934]); (42937, [42936]); (42939, [42938]);
  (42941, [42940]); (42943, [42942]); (42945, [42944]); (42947, [42946]);
  (42952, [42951]); (42954, [42953]); (42961, [42960]); (42967, [42966]);
  (42969, [42968]); (42998, [42997]); (43859, [42931]); (43888, [5024]);
  (43889, [5025]); (43890, [5026]); (43891, [5027]); (43892, [5028]);
  (43893, [5029]); (43894, [5030]); (43895, [5031]); (43896, [5032]);
  (43897, [5033]); (43898, [5034]); (43899, [5035]); (43900, [5036]);
  (43901, [5037]); (43902, [5038]); (43903, [5039]); (43904, [5040]);
  (43905, [5041]); (43906, [5042]); (43907, [5043]); (43908, [5044]);
  (43909, [5045]); (43910, [5046]); (43911, [5047]); (43912, [5048]);
  (43913, [5049]); (43914, [5050]); (43915, [5051]); (43916, [5052]);
  (43917, [5053]); (43918, [5054]); (43919, [5055]); (43920, [5056]);
  (43921, [5057]); (43922, [5058]); (43923, [5059]); (43924, [5060]);
  (43925, [5061]); (43926, [5062]); (43927, [5063]); (43928, [5064]);
  (43929, [5065]); (43930, [5066]); (43931, [5067]); (43932, [5068]);
  (43933, [5069]); (43934, [5070]); (43935, [5071]); (43936, [5072]);
  (43937, [5073]); (43938, [5074]); (43939, [5075]); (43940, [5076]);
  (43941, [5077]); (43942, [5078]); (43943, [5079]); (43944, [5080]);
  (43945, [5081]); (43946, [5082]); (43947, [5083]); (43948, [5084]);
  (43949, [5085]); (43950, [5086]); (43951, [5087]); (43952, [5088]);
  (43953, [5089]); (43954, [5090]); (43955, [5091]); (43956, [5092]);
  (43957, [5093]); (43958, [5094]); (43959, [5095]); (43960, [5096]);
  (43961, [5097]); (43962, [5098]); (43963, [5099]); (43964, [5100]);
  (43965, [5101]); (43966, [5102]); (43967, [5103]); (64256, [70; 70]);
  (64257, [70; 73]); (64258, [70; 76]); (64259, [70; 70; 73]);
  (64260, [70; 70; 76]); (64261, [83; 84]); (64262, [83; 84]);
  (64275, [1348; 1350]); (64276, [1348; 1333]); (64277, [1348; 1339]);
  (64278, [1358; 1350]); (64279, [1348; 1341]); (65345, [65313]);
  (65346, [65314]); (65347, [65315]); (65348, [65316]); (65349, [65317]);
  (65350, [65318]); (65351, [65319]); (65352, [65320]); (65353, [65321]);
  (65354, [65322]); (65355, [65323]); (65356, [65324]); (65357, [65325]);
  (65358, [65326]); (65359, [65327]); (65360, [65328]); (65361, [65329]);
  (65362, [65330]); (65363, [65331]); (65364, [65332]); (65365, [65333]);
  (65366, [65334]); (65367, [65335]); (65368, [65336]); (65369, [65337]);
  (65370, [65338]); (66600, [66560]); (66601, [66561]); (66602, [66562]);
  (66603, [66563]); (66604, [66564]); (66605, [66565]); (66606, [66566]);
  (66607, [66567]); (66608, [66568]); (66609, [66569]); (66610, [66570]);
  (66611, [66571]); (66612, [66572]); (66613, [66573]); (66614, [66574]);
  (66615, [66575]); (66616, [66576]); (66617, [66577]); (66618, [66578]);
  (66619, [66579]); (66620, [66580]); (66621, [66581]); (66622, [66582]);
  (66623, [66583]); (66624, [66584]); (66625, [66585]); (66626, [66586]);
  (66627, [66587]); (66628, [66588]); (66629, [66589]); (66630, [66590]);
  (66631, [66591]); (66632, [66592]); (66633, [66593]); (66634, [66594]);
  (66635, [66595]); (66636, [66596]); (66637, [66597]); (66638, [66598]);
  (66639, [66599]); (66776, [66736]); (66777, [66737]); (66778, [66738]);
  (66779, [66739]); (66780, [66740]); (66781, [66741]); (66782, [66742]);
  (66783, [66743]); (66784, [66744]); (66785, [66745]); (66786, [66746]);
  (66787, [66747]); (66788, [66748]); (66789, [66749]); (66790, [66750]);
  (66791, [66751]); (66792, [66752]); (66793, [66753]); (66794, [66754]);
  (66795, [66755]); (66796, [66756]); (66797, [66757]); (66798, [66758]);
  (66799, [66759]); (66800, [66760]); (66801, [66761]); (66802, [66762]);
  (66803, [66763]); (66804, [66764]); (66805, [66765]); (66806, [66766]);
  (66807, [66767]); (66808, [66768]); (66809, [66769]); (66810, [66770]);
  (66811, [66771]); (66967, [66928]); (66968, [66929]); (66969, [66930]);
  (66970, [66931]); (66971, [66932]); (66972, [66933]); (66973, [66934]);
  (66974, [66935]); (66975, [66936]); (66976, [66937]); (66977, [66938]);
  (66979, [66940]); (66980, [66941]); (66981, [66942]); (66982, [66943]);
  (66983, [66944]); (66984, [66945]); (66985, [66946]); (66986, [66947]);
  (66987, [66948]); (66988, [66949]); (66989, [66950]); (66990, [66951]);
  (66991, [66952]); (66992, [66953]); (66993, [66954]); (66995, [66956]);
  (66996, [66957]); (66997, [66958]); (66998, [66959]); (66999, [66960]);
  (67000, [66961]); (67001, [66962]); (67003, [66964]); (67004, [66965]);
  (68800, [68736]); (68801, [68737]); (68802, [68738]); (68803, [68739]);
  (68804, [68740]); (68805, [68741]); (68806, [68742]); (68807, [68743]);
  (68808, [68744]); (68809, [68745]); (68810, [68746]); (68811, [68747]);
  (68812, [68748]); (68813, [68749]); (68814, [68750]); (68815, [68751]);
  (68816, [68752]); (68817, [68753]); (68818, [68754]); (68819, [68755]);
  (68820, [68756]); (68821, [68757]); (68822, [68758]); (68823, [68759]);
  (68824, [68760]); (68825, [68761]); (68826, [68762]); (68827, [68763]);
  (68828, [68764]); (68829, [68765]); (68830, [68766]); (68831, [68767]);
  (68832, [68768]); (68833, [68769]); (68834, [68770]); (68835, [68771]);
  (68836, [68772]); (68837, [68773]); (68838, [68774]); (68839, [68775]);
  (68840, [68776]); (68841, [68777]); (68842, [68778]); (68843, [68779]);
  (68844, [68780]); (68845, [68781]); (68846, [68782]); (68847, [68783]);
  (68848, [68784]); (68849, [68785]); (68850, [68786]); (71872, [71840]);
  (71873, [71841]); (71874, [71842]); (71875, [71843]); (71876, [71844]);
  (71877, [71845]); (71878, [71846]); (71879, [71847]); (71880, [71848]);
  (71881, [71849]); (71882, [71850]); (71883, [71851]); (71884, [71852]);
  (71885, [71853]); (71886, [71854]); (71887, [71855]); (71888, [71856]);
  (71889, [71857]); (71890, [71858]); (71891, [71859]); (71892, [71860]);
  (71893, [71861]); (71894, [71862]); (71895, [71863]); (71896, [71864]);
  (71897, [71865]); (71898, [71866]); (71899, [71867]); (71900, [71868]);
  (71901, [71869]); (71902, [71870]); (71903, [71871]); (93792, [93760]);
  (93793, [93761]); (93794, [93762]); (93795, [93763]); (93796, [93764]);
  (93797, [93765]); (93798, [93766]); (93799, [93767]); (93800, [93768]);
  (93801, [93769]); (93802, [93770]); (93803, [93771]); (93804, [93772]);
  (93805, [93773]); (93806, [93774]); (93807, [93775]); (93808, [93776]);
  (93809, [93777]); (93810, [93778]); (93811, [93779]); (93812, [93780]);
  (93813, [93781]); (93814, [93782]); (93815, [93783]); (93816, [93784]);
  (93817, [93785]); (93818, [93786]); (93819, [93787]); (93820, [93788]);
  (93821, [93789]); (93822, [93790]); (93823, [93791]); (125218, [125184]);
  (125219, [125185]); (125220, [125186]); (125221, [125187]);
  (125222, [125188]); (125223, [125189]); (125224, [125190]);
  (125225, [125191]); (125226, [125192]); (125227, [125193]);
  (125228, [125194]); (125229, [125195]); (125230, [125196]);
  (125231, [125197]); (125232, [125198]); (125233, [125199]);
  (125234, [125200]); (125235, [125201]); (125236, [125202]);
  (125237, [125203]); (125238, [125204]); (125239, [125205]);
  (125240, [125206]); (125241, [125207]); (125242, [125208]);
  (125243, [125209]); (125244, [125210]); (125245, [125211]);
  (125246, [125212]); (125247, [125213]); (125248, [125214]);
  (125249, [125215]); (125250, [125216]); (125251, [125217])
].

Fixpoint assoc (k : Z) (t : list (Z * list Z)) : option (list Z) :=
  match t with
  | [] => None
  | (k', v) :: t' => if k =? k' then Some v else assoc k t'
  end.

(** [toUppercase] of one code point. *)
Definition upper_code_point (cp : Z) : list Z :=
  match assoc cp upper_table with
  | Some l => l
  | None => [cp]
  end.

(** [String.prototype.toUpperCase]. *)
Definition toUpperCase (s : jsstring) : jsstring :=
  CodePointsToString (flat_map upper_code_point (StringToCodePoints s)).

End JS.

(** ** The avatar label: [getInitials] *)

(** The class [[._-]] of the script's regular expression. *)
Definition separator (c : Z) : bool := (c =? 46) || (c =? 95) || (c =? 45).

Definition at_sign : Z := 64.

Definition getInitials (participant : jsstring) : jsstring :=
  let handle := hd [] (JS.split at_sign participant) in
  let parts := filter JS.truthy (JS.regexp_split separator handle) in
  let letters := match parts with [] => [handle] | _ :: _ => parts end in
  let initials :=
    JS.toUpperCase
      (JS.join
         (filter JS.truthy_value
            (map (fun part => JS.index0 (JS.trim part)) (firstn 2 letters)))) in
  if JS.truthy initials then initials else str "?".

(** The label derivation as the specification words it, step by step. *)
Module LabelSpec.

(** Step 1: the text before the first [@], all of it when there is none. *)
Fixpoint handle (id : jsstring) : jsstring :=
  match id with
  | [] => []
  | c :: rest => if c =? at_sign then [] else c :: handle rest
  end.

(** Step 2: the non-empty pieces between runs of separators.  [cur] is
    the piece being read. *)
Fixpoint pieces_from (cur s : jsstring) : list jsstring :=
  match s with
  | [] => match cur with [] => [] | _ :: _ => [cur] end
  | c :: rest =>
      if separator c then
        match cur with
        | [] => pieces_from [] rest
        | _ :: _ => cur :: pieces_from [] rest
        end
      else pieces_from (cur ++ [c]) rest
  end.

Definition pieces (h : jsstring) : list jsstring := pieces_from [] h.

(** Step 3: no piece at all, then the handle is the only piece. *)
Definition pieces_or_handle (h : jsstring) : list jsstring :=
  match pieces h with [] => [h] | ps => ps end.

(** Step 4: the first character of each of the first two pieces, after
    trimming; a piece that trims to nothing gives none. *)
Definition first_character (piece : jsstring) : jsstring :=
  match JS.trim piece with [] => [] | c :: _ => [c] end.

Definition first_characters (ps : list jsstring) : jsstring :=
  flat_map first_character (firstn 2 ps).

(** Steps 5 and 6. *)
Definition label (id : jsstring) : jsstring :=
  let r := JS.toUpperCase (first_characters (pieces_or_handle (handle id))) in
  match r with [] => str "?" | _ :: _ => r end.

End LabelSpec.

(** ** The document *)

#[local] Set Warnings "-register-all".

Module Dom.

(** A node of the document tree: an element with its tag, its class
    list, its attributes and its children, or a text node. *)
Inductive node : Type :=
| Element (tag : string) (classList : list string)
          (attributes : list (string * jsstring)) (children : list node)
| Text (data : jsstring).

Definition children (n : node) : list node :=
  match n with Element _ _ _ c => c | Text _ => [] end.

Definition attributes (n : node) : list (string * jsstring) :=
  match n with Element _ _ a _ => a | Text _ => [] end.

(** The children [el.textContent = s] leaves in [el]: one text node,
    none when [s] is empty. *)
Definition textContent (s : jsstring) : list node :=
  match s with [] => [] | _ :: _ => [Text s] end.

(** [el.getAttribute(name)], [None] for [null]. *)
Fixpoint getAttribute (name : string) (attrs : list (string * jsstring))
    : option jsstring :=
  match attrs with
  | [] => None
  | (k, v) :: rest => if String.eqb k name then Some v else getAttribute name rest
  end.

(** The node and everything below it, in document order. *)
Fixpoint descendants (n : node) : list node :=
  match n with
  | Element _ _ _ c => n :: flat_map descendants c
  | Text _ => [n]
  end.

Definition has_class (c : string) (n : node) : bool :=
  match n with
  | Element _ cls _ _ => existsb (String.eqb c) cls
  | Text _ => false
  end.

(** [n.querySelectorAll("." + c)], [n] itself included when it matches. *)
Definition select (c : string) (n : node) : list node :=
  filter (has_class c) (descendants n).

(** The texts that follow a [<strong>] label inside the paragraphs
    directly below [n]. *)
Definition labelled (label : jsstring) (n : node) : list jsstring :=
  flat_map
    (fun p =>
       match p with
       | Element "p" _ _ [Element "strong" _ _ [Text l]; Text t] =>
           if jsstring_eqb l label then [t] else []
       | _ => []
       end)
    (children n).

End Dom.

(** ** Numbers *)

(** The decimal numeral of an integer, every digit written. *)
Definition decimal (n : Z) : jsstring :=
  str (NilZero.string_of_int (Z.to_int n)).

(** The code units of a sequence of decimal digits. *)
Fixpoint codes (d : Decimal.uint) : jsstring :=
  match d with
  | Decimal.Nil => []
  | Decimal.D0 d => 48 :: codes d
  | Decimal.D1 d => 49 :: codes d
  | Decimal.D2 d => 50 :: codes d
  | Decimal.D3 d => 51 :: codes d
  | Decimal.D4 d => 52 :: codes d
  | Decimal.D5 d => 53 :: codes d
  | Decimal.D6 d => 54 :: codes d
  | Decimal.D7 d => 55 :: codes d
  | Decimal.D8 d => 56 :: codes d
  | Decimal.D9 d => 57 :: codes d
  end.

Module Number.

(** The Numbers the page computes with: those whose value is an integer
    (the value is kept, not the bits) and the two infinities. *)
Inductive value : Type :=
  | Finite (x : Z)
  | Infinity (negative : bool).

(** The distance from a Number of magnitude [a] to the next one: 53
    binary digits are kept. *)
Definition ulp (a : Z) : Z := 2 ^ Z.max 0 (Z.log2 a - 52).

(** The magnitude of the Number nearest to [a], for [0 <= a]; of two
    that are equally near, the one whose last kept digit is even. *)
Definition nearest (a : Z) : Z :=
  let u := ulp a in
  let q := a / u in
  let r := a mod u in
  if 2 * r <? u then q * u
  else if u <? 2 * r then (q + 1) * u
  else if Z.even q then q * u else (q + 1) * u.

(** The Number for the integer [x], as [JSON.parse] and the arithmetic
    operators round it; from [2 ^ 1024] on the Number is infinite. *)
Definition of_Z (x : Z) : value :=
  let y := nearest (Z.abs x) in
  if 2 ^ 1024 <=? y then Infinity (x <? 0) else Finite (Z.sgn x * y).

(** [a - n] for an integer [n] that is a Number itself, as an array
    length is. *)
Definition minus (a : value) (n : Z) : value :=
  match a with
  | Finite x => of_Z (x - n)
  | Infinity negative => Infinity negative
  end.

(** [Number.isSafeInteger]: up to [2 ^ 53 - 1] in magnitude. *)
Definition isSafeInteger (x : Z) : bool := Z.abs x <? 2 ^ 53.

(** The integer [v] is rounded to the Number [x]. *)
Definition reads (v x : Z) : bool :=
  match of_Z v with Finite y => y =? x | Infinity _ => false end.

(** The digits [Number::toString] writes for the Number [x], [0 < x]:
    the pair [(s, j)] with the fewest digits in [s] such that
    [s * 10 ^ j] is rounded to [x], and of two such [s] the one nearer
    to [x] (the even one when they are equally near).  The search steps
    down from [j], the number of digits of [x], and ends at [(x, 0)]. *)
Fixpoint shortest (x : Z) (j : nat) : Z * nat :=
  match j with
  | O => (x, O)
  | S j' =>
      let p := 10 ^ Z.of_nat j in
      let lo := x / p in
      let hi := lo + 1 in
      let below := (0 <? lo) && reads (lo * p) x in
      let above := reads (hi * p) x in
      if below && above then
        if x - lo * p <? hi * p - x then (lo, j)
        else if hi * p - x <? x - lo * p then (hi, j)
        else if Z.even lo then (lo, j) else (hi, j)
      else if below then (lo, j)
      else if above then (hi, j)
      else shortest x j'
  end.

(** The digits are followed by zeros below [10 ^ 21] and by an exponent
    from there on, after a point when there are several of them. *)
Definition positive_toString (x : Z) : jsstring :=
  let (s, j) := shortest x (List.length (decimal x)) in
  if s * 10 ^ Z.of_nat j <? 10 ^ 21 then decimal s ++ repeat 48 j
  else
    let e := decimal (Z.of_nat j + Z.of_nat (List.length (decimal s)) - 1) in
    match decimal s with
    | [] => []
    | [d] => d :: str "e+" ++ e
    | d :: rest => d :: 46 :: rest ++ str "e+" ++ e
    end.

End Number.

(** ** Rendering an activity *)

(** The value of one entry of the [/activities] listing, as the server
    sends it: two texts, an integer and the list of identifiers. *)
Record details : Type := {
  description : jsstring;
  schedule : jsstring;
  max_participants : Z;
  participants : list jsstring
}.

(** [Number::toString] in radix 10 of a Number that is an integer or
    infinite: [NaN] does not come out of an integer and a length, and
    [-0] is written like [0]. *)
Definition Number_toString (a : Number.value) : jsstring :=
  match a with
  | Number.Infinity false => str "Infinity"
  | Number.Infinity true => str "-Infinity"
  | Number.Finite 0 => str "0"
  | Number.Finite (Zpos x) => Number.positive_toString (Zpos x)
  | Number.Finite (Zneg x) => 45 :: Number.positive_toString (Zpos x)
  end.

(** [details.max_participants - details.participants.length]: the
    capacity is the Number that [response.json()] made of the integer
    in the body, and the difference is a Number again. *)
Definition spotsLeft (d : details) : Number.value :=
  Number.minus (Number.of_Z (max_participants d))
    (Z.of_nat (List.length (participants d))).

Definition strong (label : string) : Dom.node :=
  Dom.Element "strong" [] [] (Dom.textContent (str label)).

(** The remove button of a participant; its label is the sign [×]. *)
Definition deleteButton (name participant : jsstring) : Dom.node :=
  Dom.Element "button" ["delete-btn"%string]
    [ ("type"%string, str "button");
      ("data-participant"%string, participant);
      ("data-activity"%string, name);
      ("title"%string, str "Remove participant") ]
    (Dom.textContent [215]).

(** The [<li>] of one participant: avatar, name and remove button. *)
Definition participantItem (name participant : jsstring) : Dom.node :=
  Dom.Element "li" ["participant-item"%string] []
    [ Dom.Element "span" ["participant-avatar"%string] []
        (Dom.textContent (getInitials participant));
      Dom.Element "span" ["participant-name"%string] []
        (Dom.textContent participant);
      deleteButton name participant ].

Definition emptyLi : Dom.node :=
  Dom.Element "li" ["empty-participants"%string] []
    (Dom.textContent (str "No participants yet")).

Definition participantsListEl (name : jsstring) (d : details) : Dom.node :=
  Dom.Element "ul" ["participants-list"%string] []
    (match participants d with
     | _ :: _ => map (participantItem name) (participants d)
     | [] => [emptyLi]
     end).

(** The card [fetchActivities] builds for one entry of the listing. *)
Definition activityCard (name : jsstring) (d : details) : Dom.node :=
  Dom.Element "div" ["activity-card"%string] []
    [ Dom.Element "h4" [] [] (Dom.textContent name);
      Dom.Element "p" [] [] (Dom.textContent (description d));
      Dom.Element "p" [] []
        [strong "Schedule:"; Dom.Text (str " " ++ schedule d)];
      Dom.Element "p" [] []
        [strong "Availability:";
         Dom.Text (str " " ++ Number_toString (spotsLeft d) ++ str " spots left")];
      Dom.Element "div" ["participants"%string] []
        [ Dom.Element "p" [] [] [strong "Participants:"];
          participantsListEl name d ] ].

(** The [<option>] added to the activity drop-down. *)
Definition activityOption (name : jsstring) : Dom.node :=
  Dom.Element "option" [] [("value"%string, name)] (Dom.textContent name).

(** *** Reading the card back *)

(** The Rocq string of a JavaScript string of Latin-1 code units. *)
Definition unstr (s : jsstring) : string :=
  string_of_list_ascii (map (fun c => ascii_of_N (Z.to_N c)) s).

(** The decimal numeral at the start of [s], up to the first space. *)
Fixpoint numeral (s : jsstring) : jsstring :=
  match s with
  | [] => []
  | c :: rest => if c =? 32 then [] else c :: numeral rest
  end.

Definition parse_int (s : jsstring) : option Z :=
  option_map Z.of_int (NilZero.int_of_string (unstr s)).

(** The number a card shows in its availability line. *)
Definition displayed_spots (card : Dom.node) : option Z :=
  match Dom.labelled (str "Availability:") card with
  | [32 :: rest] => parse_int (numeral rest)
  | _ => None
  end.

(** ** Percent-encoding *)

Module Uri.

(** [uriUnescaped]: letters, digits and the marks [- _ . ! ~ * ' ( )]. *)
Definition unescaped (c : Z) : bool :=
  ((97 <=? c) && (c <=? 122)) || ((65 <=? c) && (c <=? 90))
  || ((48 <=? c) && (c <=? 57))
  || (c =? 45) || (c =? 95) || (c =? 46) || (c =? 33) || (c =? 126)
  || (c =? 42) || (c =? 39) || (c =? 40) || (c =? 41).

(** The octets of the UTF-8 form of a code point. *)
Definition utf8 (cp : Z) : list Z :=
  if cp <? 128 then [cp]
  else if cp <? 2048 then [192 + cp / 64; 128 + cp mod 64]
  else if cp <? 65536 then
    [224 + cp / 4096; 128 + (cp / 64) mod 64; 128 + cp mod 64]
  else
    [240 + cp / 262144; 128 + (cp / 4096) mod 64;
     128 + (cp / 64) mod 64; 128 + cp mod 64].

(** An upper-case hexadecimal digit. *)
Definition hex_digit (n : Z) : Z := if n <? 10 then 48 + n else 55 + n.

(** [%XX] for one octet. *)
Definition percent (octet : Z) : jsstring :=
  [37; hex_digit (octet / 16); hex_digit (octet mod 16)].

Definition escape (cp : Z) : jsstring := flat_map percent (utf8 cp).

(** [encodeURIComponent]: the abstract operation [Encode] with the
    unescaped set above.  [None] stands for the [URIError] an unpaired
    surrogate raises. *)
Fixpoint encodeURIComponent (s : jsstring) : option jsstring :=
  match s with
  | [] => Some []
  | c :: rest =>
      if unescaped c then option_map (cons c) (encodeURIComponent rest)
      else if JS.is_lead c then
        match rest with
        | d :: rest' =>
            if JS.is_trail d then
              option_map (app (escape (JS.pair_code_point c d)))
                (encodeURIComponent rest')
            else None
        | [] => None
        end
      else if JS.is_trail c then None
      else option_map (app (escape c)) (encodeURIComponent rest)
  end.

Definition hex_value (c : Z) : option Z :=
  if (48 <=? c) && (c <=? 57) then Some (c - 48)
  else if (65 <=? c) && (c <=? 70) then Some (c - 55)
  else if (97 <=? c) && (c <=? 102) then Some (c - 87)
  else None.

(** What a percent-encoded text is made of: plain code units and the
    octets written [%XX]. *)
Inductive item : Type :=
| Unit (c : Z)
| Octet (b : Z).

Fixpoint unescape (s : jsstring) : option (list item) :=
  match s with
  | [] => Some []
  | c :: rest =>
      if c =? 37 then
        match rest with
        | h :: l :: rest' =>
            match hex_value h, hex_value l, unescape rest' with
            | Some x, Some y, Some items => Some (Octet (16 * x + y) :: items)
            | _, _, _ => None
            end
        | _ => None
        end
      else option_map (cons (Unit c)) (unescape rest)
  end.

Definition continuation (b : Z) : bool := (128 <=? b) && (b <=? 191).

(** The code point [cp] read from a sequence whose shortest form starts
    at [least]: overlong forms, surrogates and values beyond U+10FFFF
    are rejected. *)
Definition decoded (least cp : Z) (rest : option jsstring) : option jsstring :=
  if (least <=? cp) && (cp <=? 1114111)
     && negb (JS.is_lead cp || JS.is_trail cp)
  then option_map (app (JS.UTF16EncodeCodePoint cp)) rest
  else None.

(** The octets are read as UTF-8, the plain code units kept. *)
Fixpoint utf8_decode (items : list item) : option jsstring :=
  match items with
  | [] => Some []
  | Unit c :: rest => option_map (cons c) (utf8_decode rest)
  | Octet b0 :: rest =>
      if b0 <? 128 then option_map (cons b0) (utf8_decode rest)
      else if b0 <? 192 then None
      else if b0 <? 224 then
        match rest with
        | Octet b1 :: rest1 =>
            if continuation b1 then
              decoded 128 ((b0 - 192) * 64 + (b1 - 128)) (utf8_decode rest1)
            else None
        | _ => None
        end
      else if b0 <? 240 then
        match rest with
        | Octet b1 :: Octet b2 :: rest2 =>
            if continuation b1 && continuation b2 then
              decoded 2048
                ((b0 - 224) * 4096 + (b1 - 128) * 64 + (b2 - 128))
                (utf8_decode rest2)
            else None
        | _ => None
        end
      else if b0 <? 248 then
        match rest with
        | Octet b1 :: Octet b2 :: Octet b3 :: rest3 =>
            if continuation b1 && continuation b2 && continuation b3 then
              decoded 65536
                ((b0 - 240) * 262144 + (b1 - 128) * 4096
                 + (b2 - 128) * 64 + (b3 - 128))
                (utf8_decode rest3)
            else None
        | _ => None
        end
      else None
  end.

(** [decodeURIComponent]: the abstract operation [Decode] with an empty
    reserved set.  [None] stands for [URIError]. *)
Definition decodeURIComponent (s : jsstring) : option jsstring :=
  match unescape s with
  | Some items => utf8_decode items
  | None => None
  end.

(** *** The request target as a server reads it *)

(** The text before the first [c], and the text after it when there is
    one. *)
Fixpoint break_at (c : Z) (s : jsstring) : jsstring * option jsstring :=
  match s with
  | [] => ([], None)
  | x :: rest =>
      if x =? c then ([], Some rest)
      else let (before, after) := break_at c rest in (x :: before, after)
  end.

(** The path, between the slashes, of a target without its fragment and
    query. *)
Definition path_segments (target : jsstring) : list jsstring :=
  JS.split 47 (fst (break_at 63 (fst (break_at 35 target)))).

(** The [key=value] pairs of the query. *)
Definition query_pairs (target : jsstring) : list (jsstring * jsstring) :=
  match snd (break_at 63 (fst (break_at 35 target))) with
  | None => []
  | Some q =>
      map (fun pair =>
             let (k, v) := break_at 61 pair in
             (k, match v with Some v => v | None => [] end))
          (JS.split 38 q)
  end.

Fixpoint lookup (key : jsstring) (pairs : list (jsstring * jsstring))
    : option jsstring :=
  match pairs with
  | [] => None
  | (k, v) :: rest => if jsstring_eqb k key then Some v else lookup key rest
  end.

(** The activity the route [/activities/{name}/verb] names. *)
Definition path_activity (verb target : jsstring) : option jsstring :=
  match path_segments target with
  | [root; a; name; v] =>
      if jsstring_eqb root [] && jsstring_eqb a (str "activities")
         && jsstring_eqb v verb
      then decodeURIComponent name else None
  | _ => None
  end.

(** The value of the query parameter [email]. *)
Definition query_email (target : jsstring) : option jsstring :=
  match lookup (str "email") (query_pairs target) with
  | Some v => decodeURIComponent v
  | None => None
  end.

End Uri.

(** The code units [encodeURIComponent] writes. *)
Definition uri_char (c : Z) : bool := Uri.unescaped c || (c =? 37).

(** The identifier made of one lead surrogate without its trail. *)
Definition lone_surrogate : jsstring := [55296].

(** [Encoded s e]: [e] is the percent-encoded form of [s], read off
    one plain code unit, one surrogate pair or one other code unit at a
    time. *)
Inductive Encoded : jsstring -> jsstring -> Prop :=
| Encoded_nil : Encoded [] []
| Encoded_plain c s e :
    Uri.unescaped c = true -> Encoded s e -> Encoded (c :: s) (c :: e)
| Encoded_pair c d s e :
    Uri.unescaped c = false -> JS.is_lead c = true -> JS.is_trail d = true ->
    Encoded s e ->
    Encoded (c :: d :: s) (Uri.escape (JS.pair_code_point c d) ++ e)
| Encoded_scalar c s e :
    Uri.unescaped c = false -> JS.is_lead c = false -> JS.is_trail c = false ->
    Encoded s e -> Encoded (c :: s) (Uri.escape c ++ e).

(** The two template literals the handlers pass to [fetch]. *)
Definition signup_url (activity email : jsstring) : option jsstring :=
  match Uri.encodeURIComponent activity, Uri.encodeURIComponent email with
  | Some a, Some e =>
      Some (str "/activities/" ++ a ++ str "/signup?email=" ++ e)
  | _, _ => None
  end.

Definition unregister_url (activity participant : jsstring) : option jsstring :=
  match Uri.encodeURIComponent activity, Uri.encodeURIComponent participant with
  | Some a, Some e =>
      Some (str "/activities/" ++ a ++ str "/unregister?email=" ++ e)
  | _, _ => None
  end.

(** ** Server answers *)

Module Json.

(** A JSON number, by the two things the page can do with it: test
    whether it is zero and write it out ([Number::toString]). *)
Record number : Type := { nonzero : bool; shown : jsstring }.

(** A parsed JSON text.  The members of an object are in the order of
    the text. *)
Inductive value : Type :=
| JNull
| JBool (b : bool)
| JNumber (n : number)
| JString (s : jsstring)
| JArray (elements : list value)
| JObject (members : list (jsstring * value)).

(** [ToBoolean]. *)
Definition ToBoolean (v : value) : bool :=
  match v with
  | JNull => false
  | JBool b => b
  | JNumber n => nonzero n
  | JString s => JS.truthy s
  | JArray _ | JObject _ => true
  end.

(** The member named [key]; a later member of the same name wins. *)
Fixpoint member (key : jsstring) (members : list (jsstring * value))
    : option value :=
  match members with
  | [] => None
  | (k, v) :: rest =>
      match member key rest with
      | Some later => Some later
      | None => if jsstring_eqb k key then Some v else None
      end
  end.

(** [ToString].  An array joins its elements with commas, [null]
    elements counting as empty.  An object is written
    [[object Object]] by [Object.prototype.toString], unless it has a
    member named [toString] of its own: that member is no function, so
    the conversion throws a [TypeError] ([None]). *)
Fixpoint ToString (v : value) : option jsstring :=
  match v with
  | JNull => Some (str "null")
  | JBool true => Some (str "true")
  | JBool false => Some (str "false")
  | JNumber n => Some (shown n)
  | JString s => Some s
  | JArray elements =>
      (fix join (l : list value) : option jsstring :=
         match l with
         | [] => Some []
         | x :: rest =>
             match match x with JNull => Some [] | _ => ToString x end,
                   join rest with
             | Some first, Some others =>
                 Some (first
                       ++ match rest with [] => [] | _ :: _ => 44 :: others end)
             | _, _ => None
             end
         end) elements
  | JObject members =>
      match member (str "toString") members with
      | Some _ => None
      | None => Some (str "[object Object]")
      end
  end.

End Json.

(** A JavaScript value the handlers hold: [undefined] or a JSON value. *)
Definition jsvalue : Type := option Json.value.

(** [a || b]. *)
Definition or_else (a : jsvalue) (b : Json.value) : Json.value :=
  match a with
  | Some v => if Json.ToBoolean v then v else b
  | None => b
  end.

(** The text [el.textContent = v] writes: nothing for [null] and
    [undefined], [ToString v] otherwise; [None] when the conversion
    throws. *)
Definition text_of (v : jsvalue) : option jsstring :=
  match v with
  | None | Some Json.JNull => Some []
  | Some j => Json.ToString j
  end.

(** The text [alert(v)] shows. *)
Definition alert_text (v : jsvalue) : option jsstring :=
  match v with
  | None => Some (str "undefined")
  | Some j => Json.ToString j
  end.

Module Net.

Inductive method : Type := GET | POST.

Record request : Type := { req_method : method; req_url : jsstring }.

(** What the page sees of a response: its [ok] flag and what
    [response.json()] resolves to, [None] when the body is not JSON. *)
Record response (A : Type) : Type := { ok : bool; body : option A }.
Arguments ok {A}.
Arguments body {A}.
Arguments Build_response {A}.

(** The outcome of [fetch]: the promise rejects or resolves. *)
Inductive answer (A : Type) : Type :=
| Rejected
| Resolved (r : response A).
Arguments Rejected {A}.
Arguments Resolved {A}.

End Net.

(** The [/activities] listing: [Object.entries] of the parsed body. *)
Definition listing : Type := list (jsstring * details).

(** ** Effects *)

(** What a handler does to the page and the world, one statement at a
    time. *)
Inductive effect : Type :=
| PreventDefault
| Fetch (r : Net.request)
| Alert (message : jsstring)
| SetMessageText (text : jsstring)
| SetMessageClass (className : string)
| ShowMessage
| HideMessage
| SetTimeout (callback : list effect) (delay : Z)
| ResetForm
| ClearActivities
| ResetSelect
| AppendCard (card : Dom.node)
| AppendOption (option : Dom.node)
| BindDeleteButtons
| ShowLoadFailure
| ConsoleError (label : jsstring).

(** A computation that performs effects and then returns or throws. *)
Definition M (A : Type) : Type := list effect * option A.

Definition ret {A} (a : A) : M A := ([], Some a).

Definition throw {A} : M A := ([], None).

Definition bind {A B} (m : M A) (k : A -> M B) : M B :=
  match m with
  | (es, Some a) => let (es', r) := k a in (es ++ es', r)
  | (es, None) => (es, None)
  end.

Notation "x <- m ;; k" := (bind m (fun x => k))
  (at level 61, m at next level, right associativity).
Notation "m ;; k" := (bind m (fun _ => k))
  (at level 61, right associativity).

Definition emit (e : effect) : M unit := ([e], Some tt).

Definition emits (es : list effect) : M unit := (es, Some tt).

(** A value that may be missing because computing it threw. *)
Definition lift {A} (o : option A) : M A :=
  match o with Some a => ret a | None => throw end.

Fixpoint for_each {A} (l : list A) (body : A -> M unit) : M unit :=
  match l with
  | [] => ret tt
  | x :: rest => body x ;; for_each rest body
  end.

(** [try { body } catch (error) { handler }]. *)
Definition try_catch (body : M unit) (handler : list effect) : list effect :=
  match body with
  | (es, Some _) => es
  | (es, None) => es ++ handler
  end.

(** [await fetch(request)]. *)
Definition fetch {A} (r : Net.request) (net : Net.answer A)
    : M (Net.response A) :=
  emit (Fetch r) ;;
  match net with
  | Net.Rejected => throw
  | Net.Resolved response => ret response
  end.

(** [await response.json()]. *)
Definition json {A} (response : Net.response A) : M A :=
  lift (Net.body response).

(** The property [key] of a value other than [null]: a member of an
    object, [undefined] for a value that is no object. *)
Definition property (result : Json.value) (key : string) : jsvalue :=
  match result with
  | Json.JObject members => Json.member (str key) members
  | _ => None
  end.

Definition is_null (v : Json.value) : bool :=
  match v with Json.JNull => true | _ => false end.

(** [result.key]: reading a property of [null] throws. *)
Definition get (result : Json.value) (key : string) : M jsvalue :=
  if is_null result then throw else ret (property result key).

(** ** The handlers *)

Definition list_request : Net.request :=
  {| Net.req_method := Net.GET; Net.req_url := str "/activities" |}.

Definition hide_after_5_seconds : effect := SetTimeout [HideMessage] 5000.

(** [fetchActivities]. *)
Definition fetchActivities (net : Net.answer listing) : list effect :=
  try_catch
    (response <- fetch list_request net ;;
     activities <- json response ;;
     emit ClearActivities ;;
     emit ResetSelect ;;
     for_each activities
       (fun entry =>
          emit (AppendCard (activityCard (fst entry) (snd entry))) ;;
          emit (AppendOption (activityOption (fst entry)))) ;;
     emit BindDeleteButtons)
    [ShowLoadFailure; ConsoleError (str "Error fetching activities:")].

(** The two [catch] blocks. *)
Definition signup_catch : list effect :=
  [ SetMessageText (str "Failed to sign up. Please try again.");
    SetMessageClass "error";
    ShowMessage;
    ConsoleError (str "Error signing up:") ].

Definition delete_catch : list effect :=
  [ SetMessageText (str "Failed to remove participant. Please try again.");
    SetMessageClass "error";
    ShowMessage;
    ConsoleError (str "Error removing participant:") ].

(** The [submit] listener of the sign-up form.  [email] and [activity]
    are the values of the two form fields, [net] is what the server
    answers to the sign-up request and [net_list] what it answers to
    the listing request that may follow. *)
Definition signup_submit (email activity : jsstring)
    (net : Net.answer Json.value) (net_list : Net.answer listing)
    : list effect :=
  PreventDefault ::
  try_catch
    (url <- lift (signup_url activity email) ;;
     response <-
       fetch {| Net.req_method := Net.POST; Net.req_url := url |} net ;;
     result <- json response ;;
     (if Net.ok response then
        message <- get result "message" ;;
        text <- lift (text_of message) ;;
        emit (SetMessageText text) ;;
        emit (SetMessageClass "success") ;;
        emit ResetForm ;;
        emits (fetchActivities net_list)
      else
        detail <- get result "detail" ;;
        text <- lift (text_of
                        (Some (or_else detail
                                 (Json.JString (str "An error occurred"))))) ;;
        emit (SetMessageText text) ;;
        emit (SetMessageClass "error")) ;;
     emit ShowMessage ;;
     emit hide_after_5_seconds)
    signup_catch.

(** [encodeURIComponent(v)] for an attribute value: [null] is written
    ["null"]. *)
Definition attribute_text (v : option jsstring) : jsstring :=
  match v with Some s => s | None => str "null" end.

(** The target the remove handler builds from the two [data-]
    attributes of its button. *)
Definition delete_url (button : Dom.node) : option jsstring :=
  let participant :=
    Dom.getAttribute "data-participant" (Dom.attributes button) in
  let activity := Dom.getAttribute "data-activity" (Dom.attributes button) in
  unregister_url (attribute_text activity) (attribute_text participant).

(** The [click] listener of a remove button. *)
Definition delete_click (button : Dom.node)
    (net : Net.answer Json.value) (net_list : Net.answer listing)
    : list effect :=
  PreventDefault ::
  try_catch
    (url <- lift (delete_url button) ;;
     response <-
       fetch {| Net.req_method := Net.POST; Net.req_url := url |} net ;;
     result <- json response ;;
     (if Net.ok response then
        message <- get result "message" ;;
        shown <- lift (alert_text message) ;;
        emit (Alert shown) ;;
        text <- lift (text_of message) ;;
        emit (SetMessageText text) ;;
        emit (SetMessageClass "success") ;;
        emits (fetchActivities net_list)
      else
        detail <- get result "detail" ;;
        text <- lift (text_of
                        (Some (or_else detail
                                 (Json.JString (str "An error occurred"))))) ;;
        emit (SetMessageText text) ;;
        emit (SetMessageClass "error")) ;;
     emit ShowMessage ;;
     emit hide_after_5_seconds)
    delete_catch.

(** ** The page *)

Record page : Type := {
  activitiesList : list Dom.node;
  activitySelect : list Dom.node;
  messageText : jsstring;
  messageClasses : list string;
  deleteButtons : list Dom.node;
  timers : list (list effect * Z);
  requests : list Net.request;
  alerts : list jsstring;
  console : list jsstring
}.

Definition loadFailure : Dom.node :=
  Dom.Element "p" [] []
    [Dom.Text (str "Failed to load activities. Please try again later.")].

Definition selectPrompt : Dom.node :=
  Dom.Element "option" [] [("value"%string, [])]
    [Dom.Text (str "-- Select an activity --")].

Definition remove_class (c : string) (l : list string) : list string :=
  filter (fun x => negb (String.eqb x c)) l.

Definition add_class (c : string) (l : list string) : list string :=
  if existsb (String.eqb c) l then l else l ++ [c].

(** One effect on the page. *)
Definition apply (p : page) (e : effect) : page :=
  match e with
  | PreventDefault | ResetForm => p
  | Fetch r =>
      {| activitiesList := activitiesList p; activitySelect := activitySelect p;
         messageText := messageText p; messageClasses := messageClasses p;
         deleteButtons := deleteButtons p; timers := timers p;
         requests := requests p ++ [r]; alerts := alerts p;
         console := console p |}
  | Alert v =>
      {| activitiesList := activitiesList p; activitySelect := activitySelect p;
         messageText := messageText p; messageClasses := messageClasses p;
         deleteButtons := deleteButtons p; timers := timers p;
         requests := requests p; alerts := alerts p ++ [v];
         console := console p |}
  | SetMessageText t =>
      {| activitiesList := activitiesList p; activitySelect := activitySelect p;
         messageText := t; messageClasses := messageClasses p;
         deleteButtons := deleteButtons p; timers := timers p;
         requests := requests p; alerts := alerts p; console := console p |}
  | SetMessageClass c =>
      {| activitiesList := activitiesList p; activitySelect := activitySelect p;
         messageText := messageText p; messageClasses := [c];
         deleteButtons := deleteButtons p; timers := timers p;
         requests := requests p; alerts := alerts p; console := console p |}
  | ShowMessage =>
      {| activitiesList := activitiesList p; activitySelect := activitySelect p;
         messageText := messageText p;
         messageClasses := remove_class "hidden" (messageClasses p);
         deleteButtons := deleteButtons p; timers := timers p;
         requests := requests p; alerts := alerts p; console := console p |}
  | HideMessage =>
      {| activitiesList := activitiesList p; activitySelect := activitySelect p;
         messageText := messageText p;
         messageClasses := add_class "hidden" (messageClasses p);
         deleteButtons := deleteButtons p; timers := timers p;
         requests := requests p; alerts := alerts p; console := console p |}
  | SetTimeout callback delay =>
      {| activitiesList := activitiesList p; activitySelect := activitySelect p;
         messageText := messageText p; messageClasses := messageClasses p;
         deleteButtons := deleteButtons p;
         timers := timers p ++ [(callback, delay)];
         requests := requests p; alerts := alerts p; console := console p |}
  | ClearActivities =>
      {| activitiesList := []; activitySelect := activitySelect p;
         messageText := messageText p; messageClasses := messageClasses p;
         deleteButtons := []; timers := timers p;
         requests := requests p; alerts := alerts p; console := console p |}
  | ResetSelect =>
      {| activitiesList := activitiesList p; activitySelect := [selectPrompt];
         messageText := messageText p; messageClasses := messageClasses p;
         deleteButtons := deleteButtons p; timers := timers p;
         requests := requests p; alerts := alerts p; console := console p |}
  | AppendCard card =>
      {| activitiesList := activitiesList p ++ [card];
         activitySelect := activitySelect p;
         messageText := messageText p; messageClasses := messageClasses p;
         deleteButtons := deleteButtons p; timers := timers p;
         requests := requests p; alerts := alerts p; console := console p |}
  | AppendOption option =>
      {| activitiesList := activitiesList p;
         activitySelect := activitySelect p ++ [option];
         messageText := messageText p; messageClasses := messageClasses p;
         deleteButtons := deleteButtons p; timers := timers p;
         requests := requests p; alerts := alerts p; console := console p |}
  | BindDeleteButtons =>
      {| activitiesList := activitiesList p; activitySelect := activitySelect p;
         messageText := messageText p; messageClasses := messageClasses p;
         deleteButtons := flat_map (Dom.select "delete-btn") (activitiesList p);
         timers := timers p;
         requests := requests p; alerts := alerts p; console := console p |}
  | ShowLoadFailure =>
      {| activitiesList := [loadFailure]; activitySelect := activitySelect p;
         messageText := messageText p; messageClasses := messageClasses p;
         deleteButtons := []; timers := timers p;
         requests := requests p; alerts := alerts p; console := console p |}
  | ConsoleError label =>
      {| activitiesList := activitiesList p; activitySelect := activitySelect p;
         messageText := messageText p; messageClasses := messageClasses p;
         deleteButtons := deleteButtons p; timers := timers p;
         requests := requests p; alerts := alerts p;
         console := console p ++ [label] |}
  end.

(** The page after the effects of a handler, in order. *)
Definition run (p : page) (es : list effect) : page := fold_left apply es p.

(** The requests a handler issues, in order. *)
Definition requested (es : list effect) : list Net.request :=
  flat_map (fun e => match e with Fetch r => [r] | _ => [] end) es.

(** The timers a handler starts, in order. *)
Definition scheduled (es : list effect) : list (list effect * Z) :=
  flat_map (fun e => match e with SetTimeout c d => [(c, d)] | _ => [] end) es.

(** ** What the handlers are observed for *)

(** The text the [try] block writes into the message for a parsed body:
    that of [message] after [ok], that of [detail] or the fallback
    otherwise.  [None] when reading the member or converting it to a
    string throws. *)
Definition written (ok : bool) (result : Json.value) : option jsstring :=
  if is_null result then None
  else if ok then text_of (property result "message")
  else text_of (Some (or_else (property result "detail")
                        (Json.JString (str "An error occurred")))).

(** A usable answer: the response has a JSON body, and the text to
    show can be computed from it.  With it come its [ok] flag, the
    body and that text. *)
Definition result_of (net : Net.answer Json.value)
    : option (bool * Json.value * jsstring) :=
  match net with
  | Net.Rejected => None
  | Net.Resolved r =>
      match Net.body r with
      | Some v =>
          match written (Net.ok r) v with
          | Some text => Some (Net.ok r, v, text)
          | None => None
          end
      | None => None
      end
  end.

(** The text [alert] shows for the [message] of a body. *)
Definition alerted (result : Json.value) : jsstring :=
  match alert_text (property result "message") with
  | Some text => text
  | None => []
  end.

(** The request was built and answered with [ok] and a usable body. *)
Definition succeeded (url : option jsstring) (net : Net.answer Json.value)
    : bool :=
  match url, result_of net with
  | Some _, Some (true, _, _) => true
  | _, _ => false
  end.

(** The request was built and answered with a usable body. *)
Definition answered (url : option jsstring) (net : Net.answer Json.value)
    : bool :=
  match url, result_of net with
  | Some _, Some _ => true
  | _, _ => false
  end.

(** The activity list after [fetchActivities]. *)
Definition rendered (net_list : Net.answer listing) : list Dom.node :=
  match net_list with
  | Net.Resolved r =>
      match Net.body r with
      | Some activities =>
          map (fun entry => activityCard (fst entry) (snd entry)) activities
      | None => [loadFailure]
      end
  | Net.Rejected => [loadFailure]
  end.

(** Every [ShowMessage] comes after the text and the class have been
    written anew; [text] and [class] tell whether they have been since
    the message was last shown. *)
Fixpoint written_before_shown (text class : bool) (es : list effect) : bool :=
  match es with
  | [] => true
  | SetMessageText _ :: rest => written_before_shown true class rest
  | SetMessageClass _ :: rest => written_before_shown text true rest
  | ShowMessage :: rest => text && class && written_before_shown false false rest
  | _ :: rest => written_before_shown text class rest
  end.

Definition shown (es : list effect) : nat :=
  List.length (filter (fun e => match e with ShowMessage => true | _ => false end) es).

(** The effects that leave the message and the timers alone. *)
Definition quiet (e : effect) : bool :=
  match e with
  | SetMessageText _ | SetMessageClass _ | ShowMessage | HideMessage
  | SetTimeout _ _ => false
  | _ => true
  end.

(** [response.ok], for a request that was answered. *)
Definition response_ok {A} (net : Net.answer A) : bool :=
  match net with Net.Resolved r => Net.ok r | Net.Rejected => false end.

(** The list request follows the mutation exactly when it succeeded. *)
Definition follow_up (url : option jsstring) (net : Net.answer Json.value)
    : list Net.request :=
  if succeeded url net then [list_request] else [].

(** Sample answer: the server refused because the activity is full. *)
Definition activity_full : Net.response Json.value :=
  {| Net.ok := false;
     Net.body :=
       Some (Json.JObject
               [(str "detail", Json.JString (str "Activity is full"))]) |}.

(** A page that shows nothing yet; its message is hidden. *)
Definition blank_page : page :=
  {| activitiesList := []; activitySelect := []; messageText := [];
     messageClasses := ["hidden"%string]; deleteButtons := []; timers := [];
     requests := []; alerts := []; console := [] |}.

(** Sample answers: a failure without a JSON body, as a proxy or a
    crashed server sends it, and a success without one. *)
Definition plain_failure : Net.answer Json.value :=
  Net.Resolved {| Net.ok := false; Net.body := None |}.

Definition plain_success : Net.answer Json.value :=
  Net.Resolved {| Net.ok := true; Net.body := None |}.

(** ** What the upper-casing table is checked for *)

Module UpperTable.

Definition is_surrogate (c : Z) : bool := JS.is_lead c || JS.is_trail c.

(** A Unicode scalar value. *)
Definition scalar (cp : Z) : bool :=
  (0 <=? cp) && (cp <=? 1114111) && negb (is_surrogate cp).

Definition unmapped (cp : Z) : bool :=
  match JS.assoc cp JS.upper_table with None => true | Some _ => false end.

(** An entry maps a scalar value to one, two or three scalar values of
    its own plane group (basic or supplementary), none of which the
    table maps further; outside the basic plane and inside ASCII the
    image is a single code point. *)
Definition entry_ok (e : Z * list Z) : bool :=
  let (k, v) := e in
  scalar k
  && Nat.leb 1 (List.length v) && Nat.leb (List.length v) 3
  && forallb (fun u => scalar u && unmapped u
                       && Bool.eqb (k <=? 65535) (u <=? 65535)) v
  && ((k <=? 65535) || Nat.eqb (List.length v) 1)
  && ((127 <? k) || Nat.eqb (List.length v) 1).

End UpperTable.

(** ** Code point sequences that survive a trip through UTF-16 *)

Module Utf16.

(** A code point, surrogates included. *)
Definition code_point (cp : Z) : Prop := 0 <= cp <= 1114111.

(** A Unicode scalar value: a code point that is no surrogate. *)
Definition scalar_value (cp : Z) : Prop :=
  0 <= cp <= 1114111 /\ JS.is_lead cp = false /\ JS.is_trail cp = false.

Definition octet (b : Z) : Prop := 0 <= b < 256.

(** Every surrogate is half of a pair. *)
Fixpoint well_formed (s : jsstring) : bool :=
  match s with
  | [] => true
  | c :: rest =>
      if JS.is_lead c then
        match rest with
        | d :: rest' => JS.is_trail d && well_formed rest'
        | [] => false
        end
      else negb (JS.is_trail c) && well_formed rest
  end.

(** No lead surrogate is directly followed by a trail surrogate;
    [after_lead] tells that the previous element was a lead. *)
Fixpoint no_pair (after_lead : bool) (cps : list Z) : bool :=
  match cps with
  | [] => true
  | x :: rest =>
      negb (after_lead && JS.is_trail x) && no_pair (JS.is_lead x) rest
  end.

End Utf16.

(** ** Further observations of the page *)

(** A code unit that neither separates pieces nor ends the handle. *)
Definition plain (c : Z) : bool := negb (separator c) && negb (c =? at_sign).

(** [n.textContent]: the texts below [n], in document order. *)
Fixpoint node_text (n : Dom.node) : jsstring :=
  match n with
  | Dom.Text s => s
  | Dom.Element _ _ _ c => flat_map node_text c
  end.

(** The tags of the elements at and below [n], in document order. *)
Fixpoint element_tags (n : Dom.node) : list string :=
  match n with
  | Dom.Text _ => []
  | Dom.Element tag _ _ c => tag :: flat_map element_tags c
  end.

(** The [value] of an [<option>]. *)
Definition option_value (n : Dom.node) : option jsstring :=
  Dom.getAttribute "value" (Dom.attributes n).

(** What a handler shows with [alert] and writes to the console. *)
Definition alerted_by (es : list effect) : list jsstring :=
  flat_map (fun e => match e with Alert a => [a] | _ => [] end) es.

Definition logged_by (es : list effect) : list jsstring :=
  flat_map (fun e => match e with ConsoleError l => [l] | _ => [] end) es.

Definition form_resets (es : list effect) : nat :=
  List.length
    (filter (fun e => match e with ResetForm => true | _ => false end) es).

(** The page when the timer that was started first expires: its
    callback runs.  All timers of the page have the same delay, so they
    expire in the order they were started. *)
Definition expire (p : page) : page :=
  match timers p with
  | [] => p
  | (callback, _) :: later =>
      run {| activitiesList := activitiesList p;
             activitySelect := activitySelect p;
             messageText := messageText p;
             messageClasses := messageClasses p;
             deleteButtons := deleteButtons p; timers := later;
             requests := requests p; alerts := alerts p;
             console := console p |}
          callback
  end.

(** Whether the message is hidden. *)
Definition message_hidden (p : page) : bool :=
  existsb (String.eqb "hidden") (messageClasses p).

(** ** Sample inputs *)

(** The identifier [ß.ß@x.com]; U+00DF is the code unit 223. *)
Definition sharp_s_address : jsstring := [223; 46; 223] ++ str "@x.com".

(** * Properties *)

(** ** Strings *)

Lemma jsstring_eqb_eq a b : jsstring_eqb a b = true <-> a = b.
Proof.
  unfold jsstring_eqb. destruct (list_eq_dec Z.eq_dec a b); split; congruence.
Qed.

Lemma well_typedb_spec s : well_typedb s = true -> well_typed s.
Proof.
  unfold well_typedb, well_typed, code_unit. rewrite forallb_forall.
  intros H. apply Forall_forall. intros c Hc. apply H in Hc. lia.
Qed.

Lemma Forall_le_forallb n s :
  forallb (fun c => c <=? n) s = true -> Forall (fun c => c <= n) s.
Proof.
  rewrite forallb_forall. intros H. apply Forall_forall.
  intros c Hc. apply H in Hc. lia.
Qed.

(** ** The avatar label *)

Example initials_alice : getInitials (str "alice.smith@example.com") = str "AS".
Proof. vm_compute. reflexivity. Qed.

Example initials_bob : getInitials (str "bob@example.com") = str "B".
Proof. vm_compute. reflexivity. Qed.

Example initials_dots : getInitials (str "a..b@x.com") = str "AB".
Proof. vm_compute. reflexivity. Qed.

Example initials_empty : getInitials [] = str "?".
Proof. vm_compute. reflexivity. Qed.

Example initials_blank_piece : getInitials (str " .b.c@x.com") = str "B".
Proof. vm_compute. reflexivity. Qed.

(** The array [split] returns is never empty, so its element 0 exists. *)
Lemma split_from_nonempty sep piece s : JS.split_from sep piece s <> [].
Proof.
  revert piece. induction s as [|c rest IH]; intros piece; simpl.
  - discriminate.
  - destruct (c =? sep); [discriminate | apply IH].
Qed.

(** Element 0 of the split at [@] is the text before the first [@]. *)
Lemma split_from_handle piece s :
  hd [] (JS.split_from at_sign piece s) = piece ++ LabelSpec.handle s.
Proof.
  revert piece. induction s as [|c rest IH]; intros piece; simpl.
  - now rewrite app_nil_r.
  - destruct (c =? at_sign); simpl.
    + now rewrite app_nil_r.
    + rewrite IH, <- app_assoc. reflexivity.
Qed.

Lemma snoc_truthy (piece : jsstring) c : JS.truthy (piece ++ [c]) = true.
Proof. destruct piece; reflexivity. Qed.

(** Dropping the empty strings of the regular-expression split leaves
    the non-empty pieces between the separator runs. *)
Lemma regexp_split_from_pieces s : forall matched piece,
  (matched = true -> piece = []) ->
  filter JS.truthy (JS.regexp_split_from separator matched piece s)
  = LabelSpec.pieces_from piece s.
Proof.
  induction s as [|c rest IH]; intros matched piece Hm; simpl.
  - destruct piece; reflexivity.
  - destruct (separator c).
    + destruct matched.
      * rewrite (Hm eq_refl). apply IH. reflexivity.
      * simpl. rewrite IH by reflexivity. destruct piece; reflexivity.
    + apply IH. discriminate.
Qed.

Lemma join_first_characters (l : list jsstring) :
  JS.join (filter JS.truthy_value (map (fun part => JS.index0 (JS.trim part)) l))
  = flat_map LabelSpec.first_character l.
Proof.
  induction l as [|p l IH]; simpl; [reflexivity|].
  unfold LabelSpec.first_character at 1.
  destruct (JS.trim p) as [|c t]; simpl.
  - exact IH.
  - unfold JS.join in *. simpl. now rewrite IH.
Qed.

(** C1. For every participant identifier, [getInitials] returns the
    label the six steps of the specification derive: the handle before
    the first [@], its non-empty pieces between runs of [.], [_] and
    [-] (the handle itself when there is none), the first character of
    each of the first two pieces after trimming, upper-cased, and [?]
    when nothing is left. *)
Theorem getInitials_refines_label (id : jsstring) :
  getInitials id = LabelSpec.label id.
Proof.
  unfold getInitials, LabelSpec.label, LabelSpec.first_characters,
    LabelSpec.pieces_or_handle, LabelSpec.pieces, JS.split, JS.regexp_split.
  rewrite split_from_handle. simpl app.
  rewrite regexp_split_from_pieces by discriminate.
  rewrite join_first_characters.
  destruct (LabelSpec.pieces_from [] (LabelSpec.handle id));
    destruct (JS.toUpperCase _); reflexivity.
Qed.

(** A handle made of separators only has no piece, so the handle itself
    is the piece and its first character, a separator, is the label. *)
Lemma getInitials_dashes_not_question_mark :
  getInitials (str "---@x.com") <> str "?".
Proof. vm_compute. discriminate. Qed.

(** C2, as the code has it: the label of ["---@x.com"] is ["-"]. *)
Theorem getInitials_dashes : getInitials (str "---@x.com") = str "-".
Proof. vm_compute. reflexivity. Qed.

(** ** Upper-casing *)

Lemma upper_table_ok : forallb UpperTable.entry_ok JS.upper_table = true.
Proof. vm_compute. reflexivity. Qed.

Lemma assoc_In k t v : JS.assoc k t = Some v -> In (k, v) t.
Proof.
  induction t as [|[k' v'] t IH]; simpl; [discriminate|].
  destruct (Z.eqb_spec k k') as [->|_].
  - intros [= ->]. now left.
  - intros H. right. now apply IH.
Qed.

Lemma upper_entry k v :
  JS.assoc k JS.upper_table = Some v -> UpperTable.entry_ok (k, v) = true.
Proof.
  intros H. apply assoc_In in H.
  exact (proj1 (forallb_forall _ _) upper_table_ok _ H).
Qed.

(** The shape of an entry, unpacked. *)
Lemma upper_entry_facts k v :
  JS.assoc k JS.upper_table = Some v ->
  UpperTable.scalar k = true
  /\ (1 <= List.length v <= 3)%nat
  /\ (forall u, In u v ->
        UpperTable.scalar u = true /\ UpperTable.unmapped u = true
        /\ (k <= 65535 <-> u <= 65535))
  /\ (65535 < k -> List.length v = 1%nat)
  /\ (k <= 127 -> List.length v = 1%nat).
Proof.
  intros H. apply upper_entry in H. unfold UpperTable.entry_ok in H.
  rewrite !andb_true_iff in H.
  destruct H as (((((Hk & Hl1) & Hl3) & Hall) & Hsup) & Hasc).
  apply Nat.leb_le in Hl1, Hl3.
  rewrite forallb_forall in Hall.
  repeat split; try assumption.
  - apply Hall in H. rewrite !andb_true_iff in H. tauto.
  - apply Hall in H. rewrite !andb_true_iff in H. tauto.
  - apply Hall in H. rewrite !andb_true_iff in H.
    destruct H as [_ H]. apply Bool.eqb_prop in H. intros Hle.
    apply Z.leb_le. rewrite <- H. now apply Z.leb_le.
  - apply Hall in H. rewrite !andb_true_iff in H.
    destruct H as [_ H]. apply Bool.eqb_prop in H. intros Hle.
    apply Z.leb_le. rewrite H. now apply Z.leb_le.
  - intros Hlt. apply orb_prop in Hsup. destruct Hsup as [Hs|Hs].
    + apply Z.leb_le in Hs. lia.
    + now apply Nat.eqb_eq.
  - intros Hle. apply orb_prop in Hasc. destruct Hasc as [Hs|Hs].
    + apply Z.ltb_lt in Hs. lia.
    + now apply Nat.eqb_eq.
Qed.

Lemma scalar_range cp :
  UpperTable.scalar cp = true ->
  Utf16.code_point cp /\ JS.is_lead cp = false /\ JS.is_trail cp = false.
Proof.
  unfold UpperTable.scalar, UpperTable.is_surrogate, Utf16.code_point.
  rewrite !andb_true_iff, negb_true_iff, orb_false_iff.
  intros [[H0 H1] [H2 H3]]. apply Z.leb_le in H0, H1. tauto.
Qed.

Lemma lead_not_trail c : JS.is_lead c = true -> JS.is_trail c = false.
Proof. unfold JS.is_lead, JS.is_trail. lia. Qed.

Lemma lead_range c : JS.is_lead c = true <-> 55296 <= c <= 56319.
Proof. unfold JS.is_lead. lia. Qed.

Lemma trail_range c : JS.is_trail c = true <-> 56320 <= c <= 57343.
Proof. unfold JS.is_trail. lia. Qed.

Lemma pair_code_point_range c d :
  JS.is_lead c = true -> JS.is_trail d = true ->
  65536 <= JS.pair_code_point c d <= 1114111.
Proof.
  rewrite lead_range, trail_range. unfold JS.pair_code_point. lia.
Qed.

(** What upper-casing does to one code point. *)
Lemma upper_code_point_cases cp :
  JS.upper_code_point cp = [cp] /\ UpperTable.unmapped cp = true
  \/ exists v, JS.assoc cp JS.upper_table = Some v
               /\ JS.upper_code_point cp = v.
Proof.
  unfold JS.upper_code_point, UpperTable.unmapped.
  destruct (JS.assoc cp JS.upper_table) as [v|]; [right; eauto | left; auto].
Qed.

Lemma upper_code_point_unmapped u :
  UpperTable.unmapped u = true -> JS.upper_code_point u = [u].
Proof.
  unfold UpperTable.unmapped, JS.upper_code_point.
  destruct (JS.assoc u JS.upper_table); [discriminate | reflexivity].
Qed.

(** Upper-casing a code point a second time changes nothing. *)
Lemma upper_code_point_stable cp u :
  In u (JS.upper_code_point cp) -> JS.upper_code_point u = [u].
Proof.
  destruct (upper_code_point_cases cp) as [[-> Hu]|(v & Hv & ->)].
  - intros [<-|[]]. now apply upper_code_point_unmapped.
  - intros Hin. apply upper_entry_facts in Hv.
    destruct Hv as (_ & _ & Hall & _). apply Hall in Hin.
    apply upper_code_point_unmapped. tauto.
Qed.

Lemma flat_map_upper_stable cps :
  (forall u, In u cps -> JS.upper_code_point u = [u]) ->
  flat_map JS.upper_code_point cps = cps.
Proof.
  induction cps as [|u cps IH]; simpl; intros H; [reflexivity|].
  rewrite (H u) by now left. simpl. f_equal. apply IH.
  intros v Hv. apply H. now right.
Qed.

Lemma upper_code_point_valid cp u :
  Utf16.code_point cp -> In u (JS.upper_code_point cp) -> Utf16.code_point u.
Proof.
  intros Hcp. destruct (upper_code_point_cases cp) as [[-> _]|(v & Hv & ->)].
  - now intros [<-|[]].
  - intros Hin. apply upper_entry_facts in Hv.
    destruct Hv as (_ & _ & Hall & _). apply Hall in Hin.
    destruct Hin as (Hs & _). now apply scalar_range in Hs.
Qed.

(** A surrogate has no upper-case form of its own. *)
Lemma upper_code_point_surrogate cp :
  UpperTable.is_surrogate cp = true -> JS.upper_code_point cp = [cp].
Proof.
  intros Hs. destruct (upper_code_point_cases cp) as [[-> _]|(v & Hv & _)].
  - reflexivity.
  - apply upper_entry_facts in Hv. destruct Hv as (Hk & _).
    unfold UpperTable.scalar in Hk. rewrite Hs in Hk.
    rewrite andb_false_r in Hk. discriminate.
Qed.

(** A code point that is no surrogate upper-cases to a non-empty list
    without surrogates. *)
Lemma upper_code_point_scalar cp :
  UpperTable.is_surrogate cp = false ->
  JS.upper_code_point cp <> []
  /\ Forall (fun u => UpperTable.is_surrogate u = false) (JS.upper_code_point cp).
Proof.
  intros Hs. destruct (upper_code_point_cases cp) as [[-> _]|(v & Hv & ->)].
  - split; [discriminate | repeat constructor; assumption].
  - apply upper_entry_facts in Hv. destruct Hv as (_ & Hlen & Hall & _).
    split.
    + destruct v; [simpl in Hlen; lia | discriminate].
    + apply Forall_forall. intros u Hu. apply Hall in Hu.
      destruct Hu as (Hsc & _). apply scalar_range in Hsc.
      unfold UpperTable.is_surrogate. destruct Hsc as (_ & -> & ->).
      reflexivity.
Qed.

(** *** From code units to code points and back *)

(** Induction along the way [StringToCodePoints] reads its argument:
    a surrogate pair at a time, or one code unit that does not start
    a pair. *)
Lemma StringToCodePoints_ind (P : jsstring -> list Z -> Prop) :
  P [] [] ->
  (forall c d rest,
      JS.is_lead c = true -> JS.is_trail d = true ->
      P rest (JS.StringToCodePoints rest) ->
      P (c :: d :: rest)
        (JS.pair_code_point c d :: JS.StringToCodePoints rest)) ->
  (forall c rest,
      JS.is_lead c = false
      \/ match rest with d :: _ => JS.is_trail d = false | [] => True end ->
      P rest (JS.StringToCodePoints rest) ->
      P (c :: rest) (c :: JS.StringToCodePoints rest)) ->
  forall s, P s (JS.StringToCodePoints s).
Proof.
  intros Hnil Hpair Hone s.
  assert (H : forall n s, (List.length s <= n)%nat ->
                          P s (JS.StringToCodePoints s)).
  { clear s. induction n as [|n IH]; intros s Hlen.
    - destruct s; [exact Hnil | simpl in Hlen; lia].
    - destruct s as [|c rest]; [exact Hnil|].
      simpl in Hlen. cbn [JS.StringToCodePoints].
      destruct (JS.is_lead c) eqn:Hc.
      + destruct rest as [|d rest'].
        * apply (Hone c []); [now right | exact Hnil].
        * destruct (JS.is_trail d) eqn:Hd.
          -- apply Hpair; try assumption. apply IH. simpl in Hlen. lia.
          -- apply (Hone c (d :: rest')); [now right | apply IH; lia].
      + apply Hone; [now left | apply IH; lia]. }
  apply (H (List.length s)). lia.
Qed.

Lemma StringToCodePoints_valid s :
  well_typed s -> Forall Utf16.code_point (JS.StringToCodePoints s).
Proof.
  pattern s, (JS.StringToCodePoints s). apply StringToCodePoints_ind.
  - constructor.
  - intros c d rest Hc Hd IH Hwt. inversion Hwt as [|? ? _ Hwt']; subst.
    inversion Hwt' as [|? ? _ Hwt'']; subst. constructor; [|now apply IH].
    pose proof (pair_code_point_range c d Hc Hd). unfold Utf16.code_point. lia.
  - intros c rest _ IH Hwt. inversion Hwt as [|? ? Hcu Hwt']; subst.
    constructor; [|now apply IH].
    unfold code_unit in Hcu. unfold Utf16.code_point. lia.
Qed.

Lemma no_pair_weaken cps : Utf16.no_pair true cps = true -> Utf16.no_pair false cps = true.
Proof.
  destruct cps as [|x rest]; simpl; [reflexivity|].
  rewrite andb_true_iff. tauto.
Qed.

(** The code points read from a string never show a lead surrogate
    directly before a trail surrogate: such a pair is read as one. *)
Lemma StringToCodePoints_no_pair s :
  Utf16.no_pair false (JS.StringToCodePoints s) = true
  /\ (match s with d :: _ => JS.is_trail d = false | [] => True end ->
      Utf16.no_pair true (JS.StringToCodePoints s) = true).
Proof.
  pattern s, (JS.StringToCodePoints s). apply StringToCodePoints_ind.
  - split; reflexivity.
  - intros c d rest Hc Hd [IH _].
    pose proof (pair_code_point_range c d Hc Hd) as Hr.
    assert (Hl : JS.is_lead (JS.pair_code_point c d) = false)
      by (unfold JS.is_lead; lia).
    assert (Ht : JS.is_trail (JS.pair_code_point c d) = false)
      by (unfold JS.is_trail; lia).
    cbn [Utf16.no_pair]. rewrite Hl, Ht, IH. split; reflexivity.
  - intros c rest Hc [IH0 IH1]. cbn [Utf16.no_pair].
    assert (Hrest : Utf16.no_pair (JS.is_lead c) (JS.StringToCodePoints rest) = true).
    { destruct (JS.is_lead c) eqn:Hl; [|exact IH0].
      destruct Hc as [Hc|Hc]; [discriminate | now apply IH1]. }
    rewrite Hrest. split; [reflexivity|].
    intros Ht. rewrite Ht. reflexivity.
Qed.

Lemma no_pair_scalars (l rest : list Z) b :
  l <> [] -> Forall (fun u => UpperTable.is_surrogate u = false) l ->
  Utf16.no_pair b (l ++ rest) = Utf16.no_pair false rest.
Proof.
  intros Hne Hl. revert b. induction Hl as [|u l Hu Hl IH]; [congruence|].
  intros b. cbn [app Utf16.no_pair].
  unfold UpperTable.is_surrogate in Hu. apply orb_false_iff in Hu.
  destruct Hu as [-> ->]. rewrite andb_false_r. cbn [negb andb].
  destruct l as [|u' l']; [reflexivity|]. apply IH. discriminate.
Qed.

(** Upper-casing code point by code point creates no surrogate pair. *)
Lemma no_pair_upper cps : forall b,
  Utf16.no_pair b (flat_map JS.upper_code_point cps) = Utf16.no_pair b cps.
Proof.
  induction cps as [|x cps IH]; intros b; [reflexivity|].
  cbn [flat_map]. destruct (UpperTable.is_surrogate x) eqn:Hs.
  - rewrite (upper_code_point_surrogate x Hs). cbn [app Utf16.no_pair].
    now rewrite IH.
  - destruct (upper_code_point_scalar x Hs) as [Hne Hall].
    rewrite (no_pair_scalars _ _ b Hne Hall), IH. cbn [Utf16.no_pair].
    unfold UpperTable.is_surrogate in Hs. apply orb_false_iff in Hs.
    destruct Hs as [-> ->]. now rewrite andb_false_r.
Qed.

Lemma encode_basic cp : cp <= 65535 -> JS.UTF16EncodeCodePoint cp = [cp].
Proof.
  intros H. unfold JS.UTF16EncodeCodePoint.
  destruct (Z.leb_spec cp 65535); [reflexivity | lia].
Qed.

Lemma encode_supplementary cp :
  65535 < cp <= 1114111 ->
  exists l t, JS.UTF16EncodeCodePoint cp = [l; t]
              /\ JS.is_lead l = true /\ JS.is_trail t = true
              /\ JS.pair_code_point l t = cp.
Proof.
  intros H. unfold JS.UTF16EncodeCodePoint.
  destruct (Z.leb_spec cp 65535); [lia|].
  eexists _, _. split; [reflexivity|].
  pose proof (Z.div_mod (cp - 65536) 1024 ltac:(lia)) as Hdm.
  pose proof (Z.mod_pos_bound (cp - 65536) 1024 ltac:(lia)) as Hm.
  assert (Hq : 0 <= (cp - 65536) / 1024 <= 1023).
  { split; [apply Z.div_pos; lia|].
    apply Z.lt_succ_r. apply Z.div_lt_upper_bound; lia. }
  rewrite lead_range, trail_range. unfold JS.pair_code_point. lia.
Qed.

Lemma encode_length cp :
  (1 <= List.length (JS.UTF16EncodeCodePoint cp) <= 2)%nat.
Proof.
  unfold JS.UTF16EncodeCodePoint. destruct (cp <=? 65535); simpl; lia.
Qed.

(** After a lead surrogate that stands alone, the encoding of the code
    points that follow does not begin with a trail surrogate. *)
Lemma encode_after_lead cps :
  Forall Utf16.code_point cps -> Utf16.no_pair true cps = true ->
  match JS.CodePointsToString cps with
  | d :: _ => JS.is_trail d = false
  | [] => cps = []
  end.
Proof.
  intros Hv Hn. destruct cps as [|y cps]; [reflexivity|].
  inversion Hv as [|? ? Hy _]; subst. cbn [Utf16.no_pair andb] in Hn.
  apply andb_prop in Hn. destruct Hn as [Hn _]. apply negb_true_iff in Hn.
  unfold JS.CodePointsToString. cbn [flat_map].
  destruct (Z.leb_spec y 65535) as [Hle|Hgt].
  - rewrite (encode_basic y Hle). exact Hn.
  - destruct (encode_supplementary y) as (l & t & -> & Hl & _).
    + unfold Utf16.code_point in Hy. lia.
    + cbn [app]. now apply lead_not_trail.
Qed.

(** Reading back the UTF-16 form of code points gives the code points,
    as long as no lead surrogate among them is followed by a trail. *)
Lemma StringToCodePoints_CodePointsToString cps :
  Forall Utf16.code_point cps -> Utf16.no_pair false cps = true ->
  JS.StringToCodePoints (JS.CodePointsToString cps) = cps.
Proof.
  induction cps as [|x cps IH]; intros Hv Hn; [reflexivity|].
  inversion Hv as [|? ? Hx Hv']; subst.
  cbn [Utf16.no_pair andb negb] in Hn.
  unfold JS.CodePointsToString in *. cbn [flat_map].
  destruct (Z.leb_spec x 65535) as [Hle|Hgt].
  - rewrite (encode_basic x Hle). cbn [app JS.StringToCodePoints].
    destruct (JS.is_lead x) eqn:Hl.
    + pose proof (encode_after_lead cps Hv' Hn) as Hd.
      unfold JS.CodePointsToString in Hd.
      specialize (IH Hv' (no_pair_weaken _ Hn)).
      destruct (flat_map JS.UTF16EncodeCodePoint cps) as [|d rest].
      * now subst cps.
      * rewrite Hd. now rewrite IH.
    + now rewrite (IH Hv' Hn).
  - destruct (encode_supplementary x) as (l & t & -> & Hl & Ht & Hp).
    + unfold Utf16.code_point in Hx. lia.
    + cbn [app JS.StringToCodePoints]. rewrite Hl, Ht, Hp.
      assert (Hx' : JS.is_lead x = false) by (unfold JS.is_lead; lia).
      rewrite Hx' in Hn. now rewrite (IH Hv' Hn).
Qed.

(** Upper-casing is idempotent. *)
Lemma toUpperCase_idempotent s :
  well_typed s -> JS.toUpperCase (JS.toUpperCase s) = JS.toUpperCase s.
Proof.
  intros Hwt. unfold JS.toUpperCase.
  rewrite StringToCodePoints_CodePointsToString.
  - rewrite flat_map_upper_stable; [reflexivity|].
    intros u Hu. apply in_flat_map in Hu. destruct Hu as (cp & _ & Hu).
    now apply (upper_code_point_stable cp).
  - apply Forall_forall. intros u Hu. apply in_flat_map in Hu.
    destruct Hu as (cp & Hcp & Hu).
    apply (upper_code_point_valid cp); [|assumption].
    exact (proj1 (Forall_forall _ _) (StringToCodePoints_valid s Hwt) cp Hcp).
  - rewrite no_pair_upper. apply StringToCodePoints_no_pair.
Qed.

(** The upper-case form of a code point of the basic plane takes at
    most three code units, that of any other code point two. *)
Lemma upper_code_point_units cp :
  Utf16.code_point cp ->
  (List.length (JS.CodePointsToString (JS.upper_code_point cp))
   <= if (cp <=? 65535)%Z then 3 else 2)%nat.
Proof.
  intros Hcp. unfold JS.CodePointsToString.
  destruct (upper_code_point_cases cp) as [[-> _]|(v & Hv & ->)].
  - cbn [flat_map]. rewrite app_nil_r.
    pose proof (encode_length cp). unfold JS.UTF16EncodeCodePoint in *.
    destruct (cp <=? 65535); simpl in *; lia.
  - apply upper_entry_facts in Hv.
    destruct Hv as (_ & Hlen & Hall & Hsup & _).
    destruct (Z.leb_spec cp 65535) as [Hle|Hgt].
    + assert (Hone : forall l, (forall u, In u l -> u <= 65535) ->
                List.length (flat_map JS.UTF16EncodeCodePoint l) = List.length l).
      { induction l as [|u l IH]; intros Hl; [reflexivity|].
        cbn [flat_map]. rewrite (encode_basic u) by (apply Hl; now left).
        simpl. f_equal. apply IH. intros w Hw. apply Hl. now right. }
      rewrite Hone; [lia|]. intros u Hu. now apply Hall.
    + specialize (Hsup Hgt). destruct v as [|u [|? ?]]; try discriminate.
      cbn [flat_map]. rewrite app_nil_r.
      pose proof (encode_length u). lia.
Qed.

Lemma toUpperCase_length s :
  well_typed s ->
  (List.length (JS.toUpperCase s) <= 3 * List.length s)%nat.
Proof.
  unfold JS.toUpperCase, JS.CodePointsToString.
  pattern s, (JS.StringToCodePoints s). apply StringToCodePoints_ind.
  - simpl. lia.
  - intros c d rest Hc Hd IH Hwt. inversion Hwt as [|? ? _ Hwt']; subst.
    inversion Hwt' as [|? ? _ Hwt'']; subst. specialize (IH Hwt'').
    cbn [flat_map]. rewrite flat_map_app, length_app.
    pose proof (pair_code_point_range c d Hc Hd) as Hr.
    pose proof (upper_code_point_units (JS.pair_code_point c d)) as Hu.
    unfold JS.CodePointsToString, Utf16.code_point in Hu.
    destruct (Z.leb_spec (JS.pair_code_point c d) 65535); [lia|].
    specialize (Hu ltac:(lia)). simpl List.length. lia.
  - intros c rest _ IH Hwt. inversion Hwt as [|? ? Hcu Hwt']; subst.
    specialize (IH Hwt').
    cbn [flat_map]. rewrite flat_map_app, length_app.
    pose proof (upper_code_point_units c) as Hu.
    unfold JS.CodePointsToString, Utf16.code_point, code_unit in Hu, Hcu.
    destruct (Z.leb_spec c 65535); [|lia].
    specialize (Hu ltac:(lia)). simpl List.length. lia.
Qed.

(** On ASCII text upper-casing keeps the length. *)
Lemma toUpperCase_ascii_length s :
  Forall (fun c => 0 <= c <= 127) s ->
  List.length (JS.toUpperCase s) = List.length s.
Proof.
  unfold JS.toUpperCase, JS.CodePointsToString.
  induction 1 as [|c s Hc Hs IH]; [reflexivity|].
  cbn [JS.StringToCodePoints].
  assert (Hl : JS.is_lead c = false) by (unfold JS.is_lead; lia).
  rewrite Hl. cbn [flat_map]. rewrite flat_map_app, length_app, IH.
  simpl List.length. f_equal.
  destruct (upper_code_point_cases c) as [[-> _]|(v & Hv & ->)].
  - cbn [flat_map]. rewrite encode_basic by lia. reflexivity.
  - apply upper_entry_facts in Hv. destruct Hv as (_ & _ & Hall & _ & Hasc).
    specialize (Hasc ltac:(lia)). destruct v as [|u [|? ?]]; try discriminate.
    cbn [flat_map]. rewrite encode_basic; [reflexivity|].
    apply (Hall u); [now left | lia].
Qed.

(** ** Where the characters of the label come from *)

Lemma trimStart_incl s : incl (JS.trimStart s) s.
Proof.
  induction s as [|c s IH]; simpl; [apply incl_refl|].
  destruct (JS.white_space c); [now apply incl_tl | apply incl_refl].
Qed.

Lemma trim_incl s : incl (JS.trim s) s.
Proof.
  unfold JS.trim, JS.trimEnd. intros c Hc.
  apply in_rev, trimStart_incl, in_rev in Hc. now apply trimStart_incl.
Qed.

Lemma first_character_incl p : incl (LabelSpec.first_character p) p.
Proof.
  unfold LabelSpec.first_character. pose proof (trim_incl p) as H.
  destruct (JS.trim p) as [|c t]; [intros ? []|].
  intros x [<-|[]]. apply H. now left.
Qed.

Lemma first_character_length p :
  (List.length (LabelSpec.first_character p) <= 1)%nat.
Proof.
  unfold LabelSpec.first_character. destruct (JS.trim p); simpl; lia.
Qed.

Lemma handle_incl s : incl (LabelSpec.handle s) s.
Proof.
  induction s as [|c s IH]; simpl; [apply incl_refl|].
  destruct (c =? at_sign); [intros ? [] |].
  intros x [<-|Hx]; [now left | right; now apply IH].
Qed.

Lemma pieces_from_incl s : forall cur p,
  In p (LabelSpec.pieces_from cur s) -> incl p (cur ++ s).
Proof.
  induction s as [|c s IH]; intros cur p; simpl.
  - destruct cur; [intros [] | intros [<-|[]]].
    rewrite app_nil_r. apply incl_refl.
  - destruct (separator c).
    + destruct cur as [|a cur].
      * intros H. apply IH in H. simpl in H. now apply incl_tl.
      * intros [<-|H]; [now apply incl_appl, incl_refl|].
        apply IH in H. simpl in H. now apply incl_appr, incl_tl.
    + intros H. apply IH in H. rewrite <- app_assoc in H. exact H.
Qed.

Lemma first_characters_facts (letters : list jsstring) (s : jsstring) :
  (forall p, In p letters -> incl p s) ->
  (List.length (LabelSpec.first_characters letters) <= 2)%nat
  /\ incl (LabelSpec.first_characters letters) s.
Proof.
  intros Hletters. unfold LabelSpec.first_characters. split.
  - pose proof first_character_length as Hl.
    destruct letters as [|p [|q l]]; simpl; rewrite ?app_nil_r, ?length_app.
    + lia.
    + specialize (Hl p). lia.
    + specialize (Hl p) as Hp. specialize (Hl q). lia.
  - intros c Hc. apply in_flat_map in Hc. destruct Hc as (p & Hp & Hc).
    apply (Hletters p).
    + rewrite <- (firstn_skipn 2 letters). apply in_or_app. now left.
    + now apply first_character_incl.
Qed.

(** The text [getInitials] upper-cases: at most two code units, each
    one a code unit of the identifier. *)
Lemma getInitials_selected s :
  exists x, (List.length x <= 2)%nat /\ incl x s
            /\ getInitials s
               = if JS.truthy (JS.toUpperCase x) then JS.toUpperCase x
                 else str "?".
Proof.
  unfold getInitials, JS.split, JS.regexp_split.
  rewrite split_from_handle. simpl app.
  rewrite regexp_split_from_pieces by discriminate.
  rewrite join_first_characters.
  destruct (LabelSpec.pieces_from [] (LabelSpec.handle s)) as [|p0 ps] eqn:E.
  - exists (LabelSpec.first_characters [LabelSpec.handle s]).
    destruct (first_characters_facts [LabelSpec.handle s] s) as [Hl Hi].
    + intros p [<-|[]]. apply handle_incl.
    + repeat split; assumption.
  - exists (LabelSpec.first_characters (p0 :: ps)).
    destruct (first_characters_facts (p0 :: ps) s) as [Hl Hi].
    + intros p Hp. rewrite <- E in Hp. apply pieces_from_incl in Hp.
      apply incl_tran with (LabelSpec.handle s); [exact Hp | apply handle_incl].
    + repeat split; assumption.
Qed.

(** Two sharp s, one per piece, upper-case to ["SSSS"]. *)
Lemma getInitials_sharp_s :
  ~ (getInitials sharp_s_address <> []
     /\ (List.length (getInitials sharp_s_address) <= 2)%nat
     /\ JS.toUpperCase (getInitials sharp_s_address)
        = getInitials sharp_s_address).
Proof.
  assert (E : getInitials sharp_s_address = str "SSSS")
    by (vm_compute; reflexivity).
  rewrite E. intros (_ & H & _). simpl in H. lia.
Qed.

(** C9, as the code has it.  For every string of code units the label
    is not empty and equals its own upper-case form.  It has at most
    six code units, since one character can upper-case to three, and
    at most two when the identifier is ASCII text. *)
Theorem getInitials_shape (s : jsstring) :
  well_typed s ->
  getInitials s <> []
  /\ JS.toUpperCase (getInitials s) = getInitials s
  /\ (List.length (getInitials s) <= 6)%nat
  /\ (Forall (fun c => c <= 127) s -> (List.length (getInitials s) <= 2)%nat).
Proof.
  intros Hwt. destruct (getInitials_selected s) as (x & Hlen & Hincl & ->).
  assert (Hx : well_typed x).
  { apply Forall_forall. intros c Hc. apply Hincl in Hc.
    exact (proj1 (Forall_forall _ _) Hwt c Hc). }
  pose proof (toUpperCase_length x Hx) as Hup.
  destruct (JS.toUpperCase x) as [|u r] eqn:E; cbn [JS.truthy].
  - repeat split; vm_compute; (discriminate || reflexivity || lia).
  - rewrite <- E. repeat split.
    + rewrite E. discriminate.
    + now apply toUpperCase_idempotent.
    + rewrite E. lia.
    + intros Hascii. rewrite toUpperCase_ascii_length; [exact Hlen|].
      apply Forall_forall. intros c Hc. apply Hincl in Hc. split.
      * exact (proj1 (proj1 (Forall_forall _ _) Hwt c Hc)).
      * exact (proj1 (Forall_forall _ _) Hascii c Hc).
Qed.

Lemma getInitials_shape_witness :
  well_typed (str "alice.smith@example.com")
  /\ getInitials (str "alice.smith@example.com") <> []
  /\ JS.toUpperCase (getInitials (str "alice.smith@example.com"))
     = getInitials (str "alice.smith@example.com")
  /\ (List.length (getInitials (str "alice.smith@example.com")) <= 6)%nat
  /\ (List.length (getInitials (str "alice.smith@example.com")) <= 2)%nat.
Proof.
  assert (Hwt : well_typed (str "alice.smith@example.com")).
  { apply well_typedb_spec. vm_compute. reflexivity. }
  assert (Hascii : Forall (fun c => c <= 127) (str "alice.smith@example.com")).
  { apply Forall_le_forallb. vm_compute. reflexivity. }
  destruct (getInitials_shape _ Hwt) as (H1 & H2 & H3 & H4).
  repeat split; try assumption. exact (H4 Hascii).
Defined.

(** ** The rendered card *)

Example card_chess :
  Dom.labelled (str "Availability:")
    (activityCard (str "Chess Club")
       {| description := str "Learn chess"; schedule := str "Fridays";
          max_participants := 12;
          participants := [str "a@x.com"; str "b@x.com"] |})
  = [str " 10 spots left"].
Proof. vm_compute. reflexivity. Qed.

Lemma unstr_str s : unstr (str s) = s.
Proof.
  unfold unstr, str. rewrite map_map.
  rewrite <- (string_of_list_ascii_of_string s) at 2. f_equal.
  induction (list_ascii_of_string s) as [|a l IH]; simpl; [reflexivity|].
  now rewrite N2Z.id, ascii_N_embedding, IH.
Qed.

Lemma str_app a b : str (a ++ b)%string = str a ++ str b.
Proof.
  unfold str. induction a as [|c a IH]; simpl; [reflexivity|].
  f_equal. exact IH.
Qed.

(** A decimal numeral holds no space. *)
Lemma string_of_uint_no_space d :
  Forall (fun c => c <> 32) (str (NilEmpty.string_of_uint d)).
Proof.
  induction d; simpl; try (constructor; [discriminate | assumption]).
  constructor.
Qed.

Lemma decimal_no_space n : Forall (fun c => c <> 32) (decimal n).
Proof.
  unfold decimal, NilZero.string_of_int.
  assert (H : forall d, Forall (fun c => c <> 32) (str (NilZero.string_of_uint d))).
  { intros d. pose proof (string_of_uint_no_space d) as H.
    destruct d; try exact H. simpl. repeat constructor. discriminate. }
  destruct (Z.to_int n) as [d|d]; [apply H|].
  simpl. constructor; [discriminate | apply H].
Qed.

Lemma numeral_app a b :
  Forall (fun c => c <> 32) a -> numeral (a ++ 32 :: b) = a.
Proof.
  induction 1 as [|c a Hc Ha IH]; simpl; [reflexivity|].
  destruct (Z.eqb_spec c 32); [contradiction | now rewrite IH].
Qed.

Lemma parse_int_decimal n : parse_int (decimal n) = Some n.
Proof.
  unfold parse_int, decimal. rewrite unstr_str, NilZero.isi.
  - simpl. now rewrite DecimalZ.of_to.
  - destruct n; simpl; try discriminate.
    intros [= H]. now apply DecimalPos.Unsigned.to_uint_nonnil in H.
  - destruct n; simpl; try discriminate.
    intros [= H]. now apply DecimalPos.Unsigned.to_uint_nonnil in H.
Qed.

(** *** Numbers that are safe integers *)

(** Below [2 ^ 53] every integer is a Number. *)
Lemma nearest_small a : 0 <= a < 2 ^ 53 -> Number.nearest a = a.
Proof.
  intros [H0 H]. unfold Number.nearest, Number.ulp.
  assert (L : Z.log2 a - 52 <= 0).
  { destruct (Z.eq_dec a 0) as [->|Hn]; [cbn; lia|].
    assert (Z.log2 a < 53) by (apply Z.log2_lt_pow2; lia). lia. }
  rewrite Z.max_l by lia. change (2 ^ 0) with 1.
  rewrite Z.mod_1_r, Z.div_1_r. cbn. lia.
Qed.

(** Rounding does not take an integer from [2 ^ 53] on below it. *)
Lemma nearest_large v : 2 ^ 53 <= v -> 2 ^ 53 <= Number.nearest v.
Proof.
  intros H. unfold Number.nearest, Number.ulp.
  assert (Hv : 0 < v) by (pose proof (Z.pow_pos_nonneg 2 53); lia).
  assert (L : 53 <= Z.log2 v) by (apply Z.log2_le_pow2; lia).
  rewrite Z.max_r by lia.
  set (e := Z.log2 v - 52).
  assert (He : 1 <= e) by (unfold e; lia).
  assert (Hu : 2 <= 2 ^ e).
  { change 2 with (2 ^ 1) at 1. apply Z.pow_le_mono_r; lia. }
  assert (Hq : 2 ^ 52 <= v / 2 ^ e).
  { apply Z.div_le_lower_bound; [lia|].
    rewrite Z.mul_comm, <- Z.pow_add_r by lia.
    replace (52 + e) with (Z.log2 v) by (unfold e; lia).
    apply Z.log2_spec. exact Hv. }
  assert (P : 2 ^ 53 = 2 ^ 52 * 2) by reflexivity.
  repeat match goal with |- context [if ?b then _ else _] => destruct b end; nia.
Qed.

(** Only a safe integer itself is rounded to it. *)
Lemma reads_safe v x :
  0 <= v -> 0 < x < 2 ^ 53 -> Number.reads v x = true -> v = x.
Proof.
  intros Hv Hx. unfold Number.reads, Number.of_Z.
  rewrite Z.abs_eq by exact Hv.
  destruct (2 ^ 1024 <=? Number.nearest v); [discriminate|].
  intros H. apply Z.eqb_eq in H.
  destruct (Z_lt_le_dec v (2 ^ 53)) as [Hs|Hl].
  - rewrite nearest_small in H by lia.
    destruct v; cbn in H; lia.
  - pose proof (nearest_large v Hl) as Hn.
    assert (Z.sgn v = 1)
      by (apply Z.sgn_pos; pose proof (Z.pow_pos_nonneg 2 53); lia).
    lia.
Qed.

(** The digits found for a safe integer are its own, less the zeros it
    ends with. *)
Lemma shortest_safe x j s j' :
  0 < x < 2 ^ 53 -> Number.shortest x j = (s, j') ->
  0 < s /\ s * 10 ^ Z.of_nat j' = x.
Proof.
  intros Hx. induction j as [|j IH].
  - cbn. intros [= <- <-]. cbn. lia.
  - cbn [Number.shortest].
    set (p := 10 ^ Z.of_nat (S j)).
    assert (Hp : 0 < p) by (apply Z.pow_pos_nonneg; lia).
    assert (Hlo : 0 <= x / p) by (apply Z.div_pos; lia).
    assert (Hhi : x < (x / p + 1) * p).
    { pose proof (Z.mul_succ_div_gt x p Hp). lia. }
    assert (A : Number.reads ((x / p + 1) * p) x = false).
    { destruct (Number.reads ((x / p + 1) * p) x) eqn:E; [|reflexivity].
      apply reads_safe in E; [lia | nia | exact Hx]. }
    rewrite A, andb_false_r.
    destruct ((0 <? x / p) && Number.reads (x / p * p) x) eqn:B.
    + intros [= <- <-]. apply andb_true_iff in B as [B1 B2].
      apply Z.ltb_lt in B1. apply reads_safe in B2; [|nia|exact Hx].
      split; [exact B1 | exact B2].
    + exact IH.
Qed.

Lemma str_string_of_uint d : str (NilEmpty.string_of_uint d) = codes d.
Proof. induction d; cbn; f_equal; assumption. Qed.

Lemma codes_revapp d d' :
  codes (Decimal.revapp d d') = List.rev (codes d) ++ codes d'.
Proof.
  revert d'. induction d; intros d'; cbn [Decimal.revapp codes List.rev];
    try reflexivity; rewrite IHd, <- app_assoc; reflexivity.
Qed.

Lemma decimal_pos p :
  decimal (Zpos p) = List.rev (codes (Pos.to_little_uint p)).
Proof.
  unfold decimal. cbn [Z.to_int NilZero.string_of_int].
  unfold NilZero.string_of_uint.
  destruct (Pos.to_uint p) eqn:E;
    try (now apply DecimalPos.Unsigned.to_uint_nonnil in E);
    rewrite <- E, str_string_of_uint; unfold Pos.to_uint, Decimal.rev;
    rewrite codes_revapp, app_nil_r; reflexivity.
Qed.

(** Ten times a positive integer is written with one more zero. *)
Lemma decimal_tenfold s : 0 < s -> decimal (10 * s) = decimal s ++ [48].
Proof.
  destruct s as [|p|p]; try lia. intros _.
  change (10 * Z.pos p) with (Z.pos (10 * p)).
  rewrite !decimal_pos.
  change (Pos.to_little_uint (10 * p))
    with (DecimalPos.Unsigned.to_lu (10 * N.pos p)).
  rewrite DecimalPos.Unsigned.to_ldec_tenfold. reflexivity.
Qed.

Lemma decimal_zeros s (j : nat) :
  0 < s -> decimal (s * 10 ^ Z.of_nat j) = decimal s ++ repeat 48 j.
Proof.
  intros Hs. induction j as [|j IH].
  - cbn [repeat]. rewrite app_nil_r. f_equal. cbn. lia.
  - rewrite Nat2Z.inj_succ, Z.pow_succ_r by lia.
    replace (s * (10 * 10 ^ Z.of_nat j)) with (10 * (s * 10 ^ Z.of_nat j)) by lia.
    rewrite decimal_tenfold by (pose proof (Z.pow_pos_nonneg 10 (Z.of_nat j)); nia).
    rewrite IH, <- app_assoc. f_equal.
    change [48] with (repeat 48 1). rewrite <- repeat_app.
    f_equal. lia.
Qed.

Lemma positive_toString_safe x :
  0 < x < 2 ^ 53 -> Number.positive_toString x = decimal x.
Proof.
  intros Hx. unfold Number.positive_toString.
  destruct (Number.shortest x (List.length (decimal x))) as [s j] eqn:E.
  apply shortest_safe in E as [Hs E]; [|exact Hx].
  rewrite E.
  replace (x <? 10 ^ 21) with true.
  - rewrite <- E. symmetry. apply decimal_zeros. exact Hs.
  - symmetry. apply Z.ltb_lt.
    assert (2 ^ 53 < 10 ^ 21) by reflexivity. lia.
Qed.

(** A safe integer is a Number, and is written with all its digits. *)
Lemma of_Z_safe x :
  Number.isSafeInteger x = true -> Number.of_Z x = Number.Finite x.
Proof.
  unfold Number.isSafeInteger. intros H. apply Z.ltb_lt in H.
  unfold Number.of_Z. rewrite nearest_small by lia.
  replace (2 ^ 1024 <=? Z.abs x) with false.
  - f_equal. lia.
  - symmetry. apply Z.leb_gt.
    assert (2 ^ 53 < 2 ^ 1024) by (apply Z.pow_lt_mono_r; lia). lia.
Qed.

Lemma Number_toString_safe x :
  Number.isSafeInteger x = true ->
  Number_toString (Number.Finite x) = decimal x.
Proof.
  unfold Number.isSafeInteger. intros H. apply Z.ltb_lt in H.
  destruct x as [|p|p]; cbn [Number_toString].
  - reflexivity.
  - apply positive_toString_safe. lia.
  - rewrite positive_toString_safe by (cbn [Z.abs] in H; lia).
    reflexivity.
Qed.

(** When the capacity and the difference are safe integers, the
    difference the page computes is the integer difference. *)
Lemma spotsLeft_safe (d : details) :
  Number.isSafeInteger (max_participants d)
  && Number.isSafeInteger
       (max_participants d - Z.of_nat (List.length (participants d))) = true ->
  spotsLeft d
  = Number.Finite
      (max_participants d - Z.of_nat (List.length (participants d))).
Proof.
  intros H. apply andb_true_iff in H as [H1 H2].
  unfold spotsLeft. rewrite (of_Z_safe _ H1). cbn [Number.minus].
  apply of_Z_safe. exact H2.
Qed.

(** Numbers beyond the safe integers: the nearest Number stands for an
    integer that is none, and [Number::toString] writes the digits that
    tell the Number from its neighbours, with an exponent from
    [10 ^ 21] on. *)
Example Number_toString_examples :
  Number.of_Z (2 ^ 53 + 1) = Number.Finite (2 ^ 53)
  /\ Number.of_Z (2 ^ 53 + 3) = Number.Finite (2 ^ 53 + 4)
  /\ Number.minus (Number.Finite (2 ^ 53 + 2)) 1 = Number.Finite (2 ^ 53)
  /\ Number_toString (Number.of_Z (2 ^ 64)) = str "18446744073709552000"
  /\ Number_toString (Number.of_Z (10 ^ 21 - 1)) = str "1e+21"
  /\ Number_toString (Number.of_Z (10 ^ 21)) = str "1e+21"
  /\ Number_toString (Number.of_Z (10 ^ 23)) = str "1e+23"
  /\ Number_toString (Number.of_Z (- 2 ^ 70)) = str "-1.1805916207174113e+21"
  /\ Number_toString (Number.of_Z (2 ^ 1024)) = str "Infinity".
Proof. vm_compute. repeat split; reflexivity. Qed.

(** The availability line of a card: [spotsLeft] as a Number is written
    between a space and [" spots left"]. *)
Lemma card_availability (name : jsstring) (d : details) :
  Dom.labelled (str "Availability:") (activityCard name d)
  = [str " " ++ Number_toString (spotsLeft d) ++ str " spots left"].
Proof.
  unfold activityCard, Dom.labelled. cbn [Dom.children flat_map].
  destruct name; destruct (description d); reflexivity.
Qed.

(** Reading back the numeral of a card whose numbers are safe integers
    gives the difference. *)
Lemma card_spots_left (name : jsstring) (d : details) :
  let difference :=
    max_participants d - Z.of_nat (List.length (participants d)) in
  Number.isSafeInteger (max_participants d)
  && Number.isSafeInteger difference = true ->
  Number_toString (spotsLeft d) = decimal difference
  /\ displayed_spots (activityCard name d) = Some difference.
Proof.
  intros difference H.
  assert (E : Number_toString (spotsLeft d) = decimal difference).
  { rewrite (spotsLeft_safe d H). apply Number_toString_safe.
    apply andb_true_iff in H as [_ H]. exact H. }
  split; [exact E|].
  unfold displayed_spots. rewrite card_availability, E.
  change (str " " ++ decimal difference ++ str " spots left")
    with (32 :: decimal difference ++ 32 :: str "spots left").
  cbv beta iota. rewrite numeral_app by apply decimal_no_space.
  apply parse_int_decimal.
Qed.

Lemma select_textContent c s :
  filter (Dom.has_class c) (flat_map Dom.descendants (Dom.textContent s)) = [].
Proof. destruct s; reflexivity. Qed.

Lemma select_Element c t cls a ch :
  filter (Dom.has_class c) (Dom.descendants (Dom.Element t cls a ch))
  = (if existsb (String.eqb c) cls then [Dom.Element t cls a ch] else [])
    ++ filter (Dom.has_class c) (flat_map Dom.descendants ch).
Proof. simpl. destruct (existsb (String.eqb c) cls); reflexivity. Qed.

Lemma select_cons c n l :
  filter (Dom.has_class c) (flat_map Dom.descendants (n :: l))
  = filter (Dom.has_class c) (Dom.descendants n)
    ++ filter (Dom.has_class c) (flat_map Dom.descendants l).
Proof. cbn [flat_map]. apply filter_app. Qed.

Lemma select_nil c :
  filter (Dom.has_class c) (flat_map Dom.descendants []) = [].
Proof. reflexivity. Qed.

Create Rewrite HintDb select.
#[local] Hint Rewrite select_textContent select_Element select_cons select_nil
  app_nil_r : select.

(** Walks down an explicit tree, deciding the class tests on the way. *)
Ltac select_tree :=
  autorewrite with select;
  repeat match goal with
    | |- context [existsb (String.eqb ?c) ?l] =>
        let b := eval vm_compute in (existsb (String.eqb c) l) in
        change (existsb (String.eqb c) l) with b
    end;
  cbv beta iota; cbn [app].

Lemma participantItem_no_placeholder name p :
  filter (Dom.has_class "empty-participants")
    (Dom.descendants (participantItem name p)) = [].
Proof. unfold participantItem. select_tree. reflexivity. Qed.

Lemma participantItem_selected name p :
  filter (Dom.has_class "participant-item")
    (Dom.descendants (participantItem name p)) = [participantItem name p].
Proof. unfold participantItem. select_tree. reflexivity. Qed.

(** Among the participant entries no node carries the placeholder's
    class, and the entries are the only nodes with theirs. *)
Lemma select_participant_items name ps :
  filter (Dom.has_class "empty-participants")
    (flat_map Dom.descendants (map (participantItem name) ps)) = []
  /\ filter (Dom.has_class "participant-item")
       (flat_map Dom.descendants (map (participantItem name) ps))
     = map (participantItem name) ps.
Proof.
  induction ps as [|p ps [IHe IHi]]; [split; reflexivity|].
  cbn [map]. rewrite !select_cons, IHe, IHi.
  rewrite participantItem_no_placeholder, participantItem_selected.
  split; reflexivity.
Qed.

(** C7. In the card of an activity without participants the list holds
    one entry, the placeholder with the text [No participants yet], and
    no participant entry; in the card of an activity with participants
    it holds one entry per participant and no placeholder. *)
Theorem empty_participants_placeholder (name : jsstring) (d : details) :
  Dom.children (participantsListEl name d)
  = Dom.select "empty-participants" (activityCard name d)
    ++ Dom.select "participant-item" (activityCard name d)
  /\ Dom.select "empty-participants" (activityCard name d)
     = match participants d with
       | [] => [Dom.Element "li" ["empty-participants"%string] []
                  [Dom.Text (str "No participants yet")]]
       | _ :: _ => []
       end
  /\ Dom.select "participant-item" (activityCard name d)
     = map (participantItem name) (participants d).
Proof.
  destruct (select_participant_items name (participants d)) as [Se Si].
  assert (He : Dom.select "empty-participants" (activityCard name d)
               = match participants d with [] => [emptyLi] | _ :: _ => [] end
          /\ Dom.select "participant-item" (activityCard name d)
             = map (participantItem name) (participants d)).
  { unfold Dom.select, activityCard, participantsListEl, strong.
    split; select_tree.
    - destruct (participants d) as [|p ps]; [reflexivity|].
      rewrite Se. reflexivity.
    - destruct (participants d) as [|p ps]; [reflexivity|].
      rewrite Si. reflexivity. }
  destruct He as [He Hi]. rewrite He, Hi. unfold participantsListEl.
  destruct (participants d); cbn [Dom.children]; repeat split; reflexivity.
Qed.

(** ** Percent-encoding *)

Example encode_chess : Uri.encodeURIComponent (str "Chess Club") = Some (str "Chess%20Club").
Proof. vm_compute. reflexivity. Qed.

Example encode_email : Uri.encodeURIComponent (str "a+b@x.com") = Some (str "a%2Bb%40x.com").
Proof. vm_compute. reflexivity. Qed.

Example encode_pair :
  Uri.encodeURIComponent [55357; 56832] = Some (str "%F0%9F%98%80").
Proof. vm_compute. reflexivity. Qed.

Example decode_pair :
  Uri.decodeURIComponent (str "%F0%9F%98%80") = Some [55357; 56832].
Proof. vm_compute. reflexivity. Qed.

Example decode_overlong : Uri.decodeURIComponent (str "%C0%80") = None.
Proof. vm_compute. reflexivity. Qed.

Example route_signup :
  option_map
    (fun u => (Uri.path_activity (str "signup") u, Uri.query_email u))
    (signup_url (str "Art/Crafts #1?") (str "a&b=c@x.com"))
  = Some (Some (str "Art/Crafts #1?"), Some (str "a&b=c@x.com")).
Proof. vm_compute. reflexivity. Qed.

Lemma hex_value_digit n : 0 <= n < 16 -> Uri.hex_value (Uri.hex_digit n) = Some n.
Proof.
  intros H. unfold Uri.hex_digit, Uri.hex_value.
  destruct (Z.ltb_spec n 10).
  - replace ((48 <=? 48 + n) && (48 + n <=? 57)) with true by lia.
    f_equal. lia.
  - replace ((48 <=? 55 + n) && (55 + n <=? 57)) with false by lia.
    replace ((65 <=? 55 + n) && (55 + n <=? 70)) with true by lia.
    f_equal. lia.
Qed.

Lemma hex_digit_unescaped n : 0 <= n < 16 -> Uri.unescaped (Uri.hex_digit n) = true.
Proof.
  intros H. unfold Uri.hex_digit, Uri.unescaped.
  destruct (Z.ltb_spec n 10); lia.
Qed.

Lemma unescape_percent b rest :
  Utf16.octet b ->
  Uri.unescape (Uri.percent b ++ rest)
  = option_map (cons (Uri.Octet b)) (Uri.unescape rest).
Proof.
  unfold Utf16.octet. intros H. unfold Uri.percent. cbn [app Uri.unescape].
  rewrite Z.eqb_refl.
  rewrite !hex_value_digit
    by (split; [apply Z.mod_pos_bound || apply Z.div_pos
               | apply Z.mod_pos_bound || apply Z.div_lt_upper_bound]; lia).
  replace (16 * (b / 16) + b mod 16) with b
    by (rewrite (Z.div_mod b 16) at 1; lia).
  destruct (Uri.unescape rest); reflexivity.
Qed.

Lemma unescape_octets bs rest :
  Forall Utf16.octet bs ->
  Uri.unescape (flat_map Uri.percent bs ++ rest)
  = option_map (app (map Uri.Octet bs)) (Uri.unescape rest).
Proof.
  induction 1 as [|b bs Hb Hbs IH]; cbn [flat_map map app].
  - destruct (Uri.unescape rest); reflexivity.
  - rewrite <- app_assoc, unescape_percent, IH by assumption.
    destruct (Uri.unescape rest); reflexivity.
Qed.

Lemma unescape_unescaped c rest :
  Uri.unescaped c = true ->
  Uri.unescape (c :: rest) = option_map (cons (Uri.Unit c)) (Uri.unescape rest).
Proof.
  intros H. cbn [Uri.unescape].
  destruct (Z.eqb_spec c 37) as [->|_]; [discriminate H | reflexivity].
Qed.

Lemma utf8_octets cp : 0 <= cp <= 1114111 -> Forall Utf16.octet (Uri.utf8 cp).
Proof.
  intros H. unfold Uri.utf8, Utf16.octet.
  destruct (Z.ltb_spec cp 128); [|destruct (Z.ltb_spec cp 2048);
    [|destruct (Z.ltb_spec cp 65536)]];
    repeat (apply Forall_cons; [Z.div_mod_to_equations; lia|]);
    apply Forall_nil.
Qed.

Lemma decoded_scalar least cp rest :
  Utf16.scalar_value cp -> least <= cp ->
  Uri.decoded least cp rest = option_map (app (JS.UTF16EncodeCodePoint cp)) rest.
Proof.
  intros (Hr & Hl & Ht) Hle. unfold Uri.decoded. rewrite Hl, Ht.
  replace ((least <=? cp) && (cp <=? 1114111)) with true by lia.
  reflexivity.
Qed.

(** Decides a test on the octets of a code point by arithmetic. *)
Ltac settle test outcome :=
  replace test with outcome
    by (unfold Uri.continuation; Z.div_mod_to_equations; lia).

(** Reading the UTF-8 octets of a scalar value gives its UTF-16 form. *)
Lemma utf8_decode_utf8 cp items :
  Utf16.scalar_value cp ->
  Uri.utf8_decode (map Uri.Octet (Uri.utf8 cp) ++ items)
  = option_map (app (JS.UTF16EncodeCodePoint cp)) (Uri.utf8_decode items).
Proof.
  intros Hs. pose proof Hs as (Hr & _). unfold Uri.utf8.
  destruct (Z.ltb_spec cp 128) as [H1|H1];
    [|destruct (Z.ltb_spec cp 2048) as [H2|H2];
      [|destruct (Z.ltb_spec cp 65536) as [H3|H3]]];
    cbn [map app Uri.utf8_decode].
  - settle (cp <? 128) true.
    rewrite encode_basic by lia. destruct (Uri.utf8_decode items); reflexivity.
  - settle (192 + cp / 64 <? 128) false.
    settle (192 + cp / 64 <? 192) false.
    settle (192 + cp / 64 <? 224) true.
    settle (Uri.continuation (128 + cp mod 64)) true.
    settle ((192 + cp / 64 - 192) * 64 + (128 + cp mod 64 - 128)) cp.
    now apply decoded_scalar.
  - settle (224 + cp / 4096 <? 128) false.
    settle (224 + cp / 4096 <? 192) false.
    settle (224 + cp / 4096 <? 224) false.
    settle (224 + cp / 4096 <? 240) true.
    settle (Uri.continuation (128 + (cp / 64) mod 64)) true.
    settle (Uri.continuation (128 + cp mod 64)) true.
    cbn [andb].
    settle ((224 + cp / 4096 - 224) * 4096
            + (128 + (cp / 64) mod 64 - 128) * 64
            + (128 + cp mod 64 - 128)) cp.
    now apply decoded_scalar.
  - settle (240 + cp / 262144 <? 128) false.
    settle (240 + cp / 262144 <? 192) false.
    settle (240 + cp / 262144 <? 224) false.
    settle (240 + cp / 262144 <? 240) false.
    settle (240 + cp / 262144 <? 248) true.
    settle (Uri.continuation (128 + (cp / 4096) mod 64)) true.
    settle (Uri.continuation (128 + (cp / 64) mod 64)) true.
    settle (Uri.continuation (128 + cp mod 64)) true.
    cbn [andb].
    settle ((240 + cp / 262144 - 240) * 262144
            + (128 + (cp / 4096) mod 64 - 128) * 4096
            + (128 + (cp / 64) mod 64 - 128) * 64
            + (128 + cp mod 64 - 128)) cp.
    now apply decoded_scalar.
Qed.

Lemma encodeURIComponent_Encoded s e :
  Uri.encodeURIComponent s = Some e -> Encoded s e.
Proof.
  assert (H : forall n s e, (List.length s <= n)%nat ->
                Uri.encodeURIComponent s = Some e -> Encoded s e).
  { clear s e. induction n as [|n IH]; intros s e Hlen.
    - destruct s; [|simpl in Hlen; lia]. intros [= <-]. constructor.
    - destruct s as [|c rest]; [intros [= <-]; constructor|].
      simpl in Hlen. cbn [Uri.encodeURIComponent].
      destruct (Uri.unescaped c) eqn:Hu.
      + destruct (Uri.encodeURIComponent rest) as [e'|] eqn:E; [|discriminate].
        intros [= <-]. constructor; [assumption | apply IH; [lia | assumption]].
      + destruct (JS.is_lead c) eqn:Hl.
        * destruct rest as [|d rest']; [discriminate|].
          destruct (JS.is_trail d) eqn:Hd; [|discriminate].
          destruct (Uri.encodeURIComponent rest') as [e'|] eqn:E; [|discriminate].
          intros [= <-]. constructor; try assumption.
          apply IH; [simpl in Hlen; lia | assumption].
        * destruct (JS.is_trail c) eqn:Ht; [discriminate|].
          destruct (Uri.encodeURIComponent rest) as [e'|] eqn:E; [|discriminate].
          intros [= <-]. constructor; try assumption.
          apply IH; [lia | assumption]. }
  apply (H (List.length s)). lia.
Qed.

Lemma unescaped_not_surrogate c :
  Uri.unescaped c = true -> JS.is_lead c = false /\ JS.is_trail c = false.
Proof. unfold Uri.unescaped, JS.is_lead, JS.is_trail. lia. Qed.

Lemma Encoded_encodeURIComponent s e :
  Encoded s e -> Uri.encodeURIComponent s = Some e.
Proof.
  induction 1 as [|c s e Hu _ IH|c d s e Hu Hl Hd _ IH|c s e Hu Hl Ht _ IH];
    cbn [Uri.encodeURIComponent].
  - reflexivity.
  - now rewrite Hu, IH.
  - now rewrite Hu, Hl, Hd, IH.
  - now rewrite Hu, Hl, Ht, IH.
Qed.

Lemma encode_pair_units c d :
  JS.is_lead c = true -> JS.is_trail d = true ->
  JS.UTF16EncodeCodePoint (JS.pair_code_point c d) = [c; d].
Proof.
  intros Hc Hd. pose proof (pair_code_point_range c d Hc Hd) as Hr.
  apply lead_range in Hc. apply trail_range in Hd.
  unfold JS.UTF16EncodeCodePoint.
  destruct (Z.leb_spec (JS.pair_code_point c d) 65535); [lia|].
  unfold JS.pair_code_point. f_equal; [|f_equal];
    Z.div_mod_to_equations; lia.
Qed.

Lemma pair_scalar c d :
  JS.is_lead c = true -> JS.is_trail d = true ->
  Utf16.scalar_value (JS.pair_code_point c d).
Proof.
  intros Hc Hd. pose proof (pair_code_point_range c d Hc Hd) as Hr.
  unfold Utf16.scalar_value, JS.is_lead, JS.is_trail. lia.
Qed.

Lemma escape_octets cp rest :
  0 <= cp <= 1114111 ->
  Uri.unescape (Uri.escape cp ++ rest)
  = option_map (app (map Uri.Octet (Uri.utf8 cp))) (Uri.unescape rest).
Proof. intros H. apply unescape_octets, utf8_octets, H. Qed.

(** What [encodeURIComponent] writes, [decodeURIComponent] reads back. *)
Lemma Encoded_decode s e :
  Encoded s e -> well_typed s ->
  exists items, Uri.unescape e = Some items /\ Uri.utf8_decode items = Some s.
Proof.
  induction 1 as [|c s e Hu _ IH|c d s e Hu Hl Hd _ IH|c s e Hu Hl Ht _ IH];
    intros Hwt.
  - exists []. split; reflexivity.
  - inversion Hwt as [|? ? _ Hwt']; subst.
    destruct (IH Hwt') as (items & Hi & Hd).
    exists (Uri.Unit c :: items). rewrite unescape_unescaped, Hi by assumption.
    split; [reflexivity|]. cbn [Uri.utf8_decode]. now rewrite Hd.
  - inversion Hwt as [|? ? _ Hwt']; subst.
    inversion Hwt' as [|? ? _ Hwt'']; subst.
    destruct (IH Hwt'') as (items & Hi & Hdec).
    pose proof (pair_scalar c d Hl Hd) as Hs.
    exists (map Uri.Octet (Uri.utf8 (JS.pair_code_point c d)) ++ items).
    rewrite escape_octets, Hi by apply Hs. split; [reflexivity|].
    rewrite utf8_decode_utf8, Hdec, encode_pair_units by assumption.
    reflexivity.
  - inversion Hwt as [|? ? Hc Hwt']; subst.
    destruct (IH Hwt') as (items & Hi & Hdec).
    assert (Hs : Utf16.scalar_value c).
    { unfold Utf16.scalar_value, code_unit in *. repeat split; (assumption || lia). }
    exists (map Uri.Octet (Uri.utf8 c) ++ items).
    rewrite escape_octets, Hi by apply Hs. split; [reflexivity|].
    rewrite utf8_decode_utf8, Hdec by assumption.
    rewrite encode_basic by (unfold code_unit in Hc; lia).
    reflexivity.
Qed.

Lemma decodeURIComponent_encodeURIComponent s e :
  well_typed s -> Uri.encodeURIComponent s = Some e ->
  Uri.decodeURIComponent e = Some s.
Proof.
  intros Hwt He. apply encodeURIComponent_Encoded in He.
  destruct (Encoded_decode s e He Hwt) as (items & Hi & Hd).
  unfold Uri.decodeURIComponent. now rewrite Hi.
Qed.

Lemma Encoded_chars s e :
  Encoded s e -> well_typed s -> Forall (fun c => uri_char c = true) e.
Proof.
  assert (Hesc : forall cp, 0 <= cp <= 1114111 ->
                   Forall (fun c => uri_char c = true) (Uri.escape cp)).
  { intros cp Hcp. unfold Uri.escape. pose proof (utf8_octets cp Hcp) as Ho.
    induction Ho as [|b bs Hb _ IH]; [constructor|].
    cbn [flat_map Uri.percent app]. unfold Utf16.octet in Hb.
    repeat (apply Forall_cons; [|]); try exact IH; unfold uri_char.
    - reflexivity.
    - rewrite hex_digit_unescaped; [reflexivity|].
      split; [apply Z.div_pos | apply Z.div_lt_upper_bound]; lia.
    - rewrite hex_digit_unescaped; [reflexivity|].
      apply Z.mod_pos_bound. lia. }
  induction 1 as [|c s e Hu _ IH|c d s e Hu Hl Hd _ IH|c s e Hu Hl Ht _ IH];
    intros Hwt.
  - constructor.
  - inversion Hwt; subst. constructor; [|now apply IH].
    unfold uri_char. now rewrite Hu.
  - inversion Hwt as [|? ? _ Hwt']; subst. inversion Hwt'; subst.
    apply Forall_app. split; [|now apply IH].
    apply Hesc. pose proof (pair_code_point_range c d Hl Hd). lia.
  - inversion Hwt as [|? ? Hc Hwt']; subst.
    apply Forall_app. split; [|now apply IH].
    apply Hesc. unfold code_unit in Hc. lia.
Qed.

(** A string has an encoded form exactly when its surrogates are paired. *)
Lemma encodeURIComponent_well_formed s :
  Utf16.well_formed s
  = match Uri.encodeURIComponent s with Some _ => true | None => false end.
Proof.
  assert (H : forall n s, (List.length s <= n)%nat ->
     Utf16.well_formed s
     = match Uri.encodeURIComponent s with Some _ => true | None => false end).
  { clear s. induction n as [|n IH]; intros s Hlen.
    - destruct s; [reflexivity | simpl in Hlen; lia].
    - destruct s as [|c rest]; [reflexivity|]. simpl in Hlen.
      cbn [Utf16.well_formed Uri.encodeURIComponent].
      destruct (Uri.unescaped c) eqn:Hu.
      + destruct (unescaped_not_surrogate c Hu) as [-> ->].
        rewrite (IH rest) by lia.
        destruct (Uri.encodeURIComponent rest); reflexivity.
      + destruct (JS.is_lead c).
        * destruct rest as [|d rest']; [reflexivity|].
          destruct (JS.is_trail d); [|reflexivity].
          rewrite (IH rest') by (simpl in Hlen; lia).
          destruct (Uri.encodeURIComponent rest'); reflexivity.
        * destruct (JS.is_trail c); [reflexivity|].
          rewrite (IH rest) by lia.
          destruct (Uri.encodeURIComponent rest); reflexivity. }
  apply (H (List.length s)). lia.
Qed.

(** *** Reading the target *)

Lemma break_at_absent c x :
  Forall (fun y => y <> c) x -> Uri.break_at c x = (x, None).
Proof.
  induction 1 as [|y x Hy _ IH]; cbn [Uri.break_at]; [reflexivity|].
  destruct (Z.eqb_spec y c); [contradiction | now rewrite IH].
Qed.

Lemma break_at_first c x rest :
  Forall (fun y => y <> c) x ->
  Uri.break_at c (x ++ c :: rest) = (x, Some rest).
Proof.
  induction 1 as [|y x Hy _ IH]; cbn [Uri.break_at app].
  - now rewrite Z.eqb_refl.
  - destruct (Z.eqb_spec y c); [contradiction | now rewrite IH].
Qed.

Lemma split_from_absent sep piece x :
  Forall (fun y => y <> sep) x -> JS.split_from sep piece x = [piece ++ x].
Proof.
  intros H. revert piece. induction H as [|y x Hy _ IH]; intros piece;
    cbn [JS.split_from].
  - now rewrite app_nil_r.
  - destruct (Z.eqb_spec y sep); [contradiction|].
    rewrite IH, <- app_assoc. reflexivity.
Qed.

Lemma split_from_first sep piece x rest :
  Forall (fun y => y <> sep) x ->
  JS.split_from sep piece (x ++ sep :: rest)
  = (piece ++ x) :: JS.split_from sep [] rest.
Proof.
  intros H. revert piece. induction H as [|y x Hy _ IH]; intros piece;
    cbn [JS.split_from app].
  - now rewrite Z.eqb_refl, app_nil_r.
  - destruct (Z.eqb_spec y sep); [contradiction|].
    rewrite IH, <- app_assoc. reflexivity.
Qed.

Lemma uri_chars_avoid c (e : jsstring) :
  c = 35 \/ c = 38 \/ c = 47 \/ c = 61 \/ c = 63 ->
  Forall (fun y => uri_char y = true) e -> Forall (fun y => y <> c) e.
Proof.
  intros Hc H. apply Forall_forall. intros y Hy.
  apply (proj1 (Forall_forall _ _) H) in Hy.
  unfold uri_char, Uri.unescaped in Hy. lia.
Qed.

Lemma Forall_ne_forallb c (l : jsstring) :
  forallb (fun y => negb (y =? c)) l = true -> Forall (fun y => y <> c) l.
Proof.
  rewrite forallb_forall. intros H. apply Forall_forall.
  intros y Hy. apply H in Hy. lia.
Qed.

(** A target [/A/a/verb?K=e] whose parts hold none of the delimiters
    is read as the segments [A], [a], [verb] after the empty root and
    the one pair [K = e]. *)
Lemma target_parse (A a verb K e : jsstring) :
  (forall c, c = 35 \/ c = 47 \/ c = 63 ->
             Forall (fun y => y <> c) (A ++ a ++ verb)) ->
  (forall c, c = 35 \/ c = 38 \/ c = 61 -> Forall (fun y => y <> c) K) ->
  (forall c, c = 35 \/ c = 38 -> Forall (fun y => y <> c) e) ->
  let target := (47 :: A ++ 47 :: a ++ 47 :: verb) ++ 63 :: (K ++ 61 :: e) in
  Uri.path_segments target = [[]; A; a; verb]
  /\ Uri.query_pairs target = [(K, e)].
Proof.
  intros Hpath HK He target.
  assert (HA : forall c, c = 35 \/ c = 47 \/ c = 63 -> Forall (fun y => y <> c) A).
  { intros c Hc. specialize (Hpath c Hc). now apply Forall_app in Hpath. }
  assert (Ha : forall c, c = 35 \/ c = 47 \/ c = 63 -> Forall (fun y => y <> c) a).
  { intros c Hc. specialize (Hpath c Hc). apply Forall_app in Hpath.
    destruct Hpath as [_ Hpath]. now apply Forall_app in Hpath. }
  assert (Hv : forall c, c = 35 \/ c = 47 \/ c = 63 -> Forall (fun y => y <> c) verb).
  { intros c Hc. specialize (Hpath c Hc). apply Forall_app in Hpath.
    destruct Hpath as [_ Hpath]. now apply Forall_app in Hpath. }
  assert (Hfrag : Uri.break_at 35 target = (target, None)).
  { apply break_at_absent. unfold target.
    repeat first [apply Forall_app; split | apply Forall_cons];
      try lia; auto 6. }
  assert (Hquery : Uri.break_at 63 target
                   = (47 :: A ++ 47 :: a ++ 47 :: verb, Some (K ++ 61 :: e))).
  { apply break_at_first.
    repeat first [apply Forall_app; split | apply Forall_cons];
      try lia; auto 6. }
  unfold Uri.path_segments, Uri.query_pairs. rewrite Hfrag. cbn [fst].
  rewrite Hquery. cbn [fst snd]. split.
  - unfold JS.split.
    change (47 :: A ++ 47 :: a ++ 47 :: verb)
      with ([] ++ 47 :: A ++ 47 :: a ++ 47 :: verb).
    rewrite split_from_first by constructor.
    rewrite split_from_first by auto.
    rewrite split_from_first by auto.
    rewrite split_from_absent by auto. reflexivity.
  - unfold JS.split. rewrite split_from_absent.
    + cbn [map app]. rewrite break_at_first by auto. reflexivity.
    + apply Forall_app. split; [auto|]. apply Forall_cons; [lia | auto].
Qed.

(** The server reads the encoded name and identifier out of a target
    the handlers build. *)
Lemma route_read (verb a e : jsstring) :
  (forall c, c = 35 \/ c = 47 \/ c = 63 -> Forall (fun y => y <> c) verb) ->
  Forall (fun c => uri_char c = true) a ->
  Forall (fun c => uri_char c = true) e ->
  Uri.path_activity verb
    (str "/activities/" ++ a ++ 47 :: verb ++ str "?email=" ++ e)
  = Uri.decodeURIComponent a
  /\ Uri.query_email
       (str "/activities/" ++ a ++ 47 :: verb ++ str "?email=" ++ e)
     = Uri.decodeURIComponent e.
Proof.
  intros Hverb Ha He.
  assert (E : str "/activities/" ++ a ++ 47 :: verb ++ str "?email=" ++ e
              = (47 :: str "activities" ++ 47 :: a ++ 47 :: verb)
                ++ 63 :: (str "email" ++ 61 :: e)).
  { repeat (rewrite <- app_assoc || rewrite <- app_comm_cons). reflexivity. }
  rewrite E.
  destruct (target_parse (str "activities") a verb (str "email") e)
    as [Hseg Hq].
  - intros c Hc. repeat (apply Forall_app; split).
    + apply Forall_ne_forallb. destruct Hc as [->|[->| ->]]; reflexivity.
    + apply (uri_chars_avoid c a); [tauto | assumption].
    + now apply Hverb.
  - intros c Hc. apply Forall_ne_forallb.
    destruct Hc as [->|[->| ->]]; reflexivity.
  - intros c Hc. apply (uri_chars_avoid c e); [tauto | assumption].
  - unfold Uri.path_activity, Uri.query_email. rewrite Hseg, Hq.
    cbn [Uri.lookup].
    replace (jsstring_eqb [] []) with true by reflexivity.
    replace (jsstring_eqb (str "activities") (str "activities")) with true
      by reflexivity.
    replace (jsstring_eqb (str "email") (str "email")) with true
      by reflexivity.
    replace (jsstring_eqb verb verb) with true
      by (symmetry; now apply jsstring_eqb_eq).
    split; reflexivity.
Qed.

(** A lead surrogate without its trail makes [encodeURIComponent]
    throw: no target is built for such a name. *)
Lemma lone_surrogate_has_no_url :
  ~ exists url,
      signup_url lone_surrogate (str "a@x.com") = Some url
      /\ Uri.path_activity (str "signup") url = Some lone_surrogate
      /\ Uri.query_email url = Some (str "a@x.com").
Proof. intros (url & H & _). vm_compute in H. discriminate H. Qed.

(** C10, as the code has it.  When the activity name and the
    participant identifier are well-formed UTF-16, both targets are
    built, and decoding the third path segment and the value of the
    [email] parameter gives the name and the identifier back, whatever
    delimiters they hold.  When one of them has an unpaired surrogate
    no target is built. *)
Theorem request_url_round_trip (activity id : jsstring) :
  well_typed activity -> well_typed id ->
  if Utf16.well_formed activity && Utf16.well_formed id then
    exists signup unregister,
      signup_url activity id = Some signup
      /\ Uri.path_activity (str "signup") signup = Some activity
      /\ Uri.query_email signup = Some id
      /\ unregister_url activity id = Some unregister
      /\ Uri.path_activity (str "unregister") unregister = Some activity
      /\ Uri.query_email unregister = Some id
  else signup_url activity id = None /\ unregister_url activity id = None.
Proof.
  intros Hact Hid. unfold signup_url, unregister_url.
  rewrite !encodeURIComponent_well_formed.
  destruct (Uri.encodeURIComponent activity) as [a|] eqn:Ea;
    [|split; reflexivity].
  destruct (Uri.encodeURIComponent id) as [e|] eqn:Ee; [|split; reflexivity].
  cbn [andb].
  pose proof (decodeURIComponent_encodeURIComponent _ _ Hact Ea) as Da.
  pose proof (decodeURIComponent_encodeURIComponent _ _ Hid Ee) as De.
  apply encodeURIComponent_Encoded in Ea, Ee.
  pose proof (Encoded_chars _ _ Ea Hact) as Ca.
  pose proof (Encoded_chars _ _ Ee Hid) as Ce.
  destruct (route_read (str "signup") a e) as [S1 S2]; try assumption.
  { intros c Hc. apply Forall_ne_forallb.
    destruct Hc as [->|[->| ->]]; reflexivity. }
  destruct (route_read (str "unregister") a e) as [U1 U2]; try assumption.
  { intros c Hc. apply Forall_ne_forallb.
    destruct Hc as [->|[->| ->]]; reflexivity. }
  eexists _, _.
  split; [reflexivity|]. split; [rewrite <- Da; exact S1|].
  split; [rewrite <- De; exact S2|].
  split; [reflexivity|]. split; [rewrite <- Da; exact U1|].
  rewrite <- De; exact U2.
Qed.

Lemma request_url_round_trip_witness :
  well_typed (str "Art/Crafts #1?") /\ well_typed (str "a&b=c@x.com")
  /\ exists signup unregister,
       signup_url (str "Art/Crafts #1?") (str "a&b=c@x.com") = Some signup
       /\ Uri.path_activity (str "signup") signup = Some (str "Art/Crafts #1?")
       /\ Uri.query_email signup = Some (str "a&b=c@x.com")
       /\ unregister_url (str "Art/Crafts #1?") (str "a&b=c@x.com")
          = Some unregister
       /\ Uri.path_activity (str "unregister") unregister
          = Some (str "Art/Crafts #1?")
       /\ Uri.query_email unregister = Some (str "a&b=c@x.com").
Proof.
  assert (H1 : well_typed (str "Art/Crafts #1?"))
    by (apply well_typedb_spec; vm_compute; reflexivity).
  assert (H2 : well_typed (str "a&b=c@x.com"))
    by (apply well_typedb_spec; vm_compute; reflexivity).
  split; [exact H1|]. split; [exact H2|].
  exact (request_url_round_trip _ _ H1 H2).
Defined.

(** ** The handlers, case by case *)

(** Unfolds the monad of a handler body down to the conversions. *)
Ltac run_body :=
  cbv beta iota zeta
      delta [try_catch bind ret throw lift emit emits fetch json get
             is_null property written result_of alerted
             Net.body Net.ok].

(** A value that converts for [textContent] converts for [alert]. *)
Lemma alert_text_defined (v : jsvalue) (text : jsstring) :
  text_of v = Some text -> exists shown, alert_text v = Some shown.
Proof.
  destruct v as [[| | | | |]|]; intros H;
    try (eexists; exact H); eexists; reflexivity.
Qed.

(** The effects of the sign-up handler, by what the server answers. *)
Lemma signup_submit_trace email activity net net_list :
  signup_submit email activity net net_list
  = PreventDefault ::
    match signup_url activity email with
    | None => signup_catch
    | Some url =>
        Fetch {| Net.req_method := Net.POST; Net.req_url := url |} ::
        match result_of net with
        | None => signup_catch
        | Some (true, _, text) =>
            [SetMessageText text; SetMessageClass "success"; ResetForm]
            ++ fetchActivities net_list
            ++ [ShowMessage; hide_after_5_seconds]
        | Some (false, _, text) =>
            [ SetMessageText text; SetMessageClass "error";
              ShowMessage; hide_after_5_seconds ]
        end
    end.
Proof.
  unfold signup_submit. f_equal.
  destruct (signup_url activity email) as [url|]; [|reflexivity].
  destruct net as [|[ok [v|]]]; try reflexivity.
  destruct v, ok; run_body; try reflexivity;
    match goal with
    | |- context [text_of ?x] => destruct (text_of x)
    end; reflexivity.
Qed.

(** The effects of the remove handler, by what the server answers. *)
Lemma delete_click_trace button net net_list :
  delete_click button net net_list
  = PreventDefault ::
    match delete_url button with
    | None => delete_catch
    | Some url =>
        Fetch {| Net.req_method := Net.POST; Net.req_url := url |} ::
        match result_of net with
        | None => delete_catch
        | Some (true, v, text) =>
            [Alert (alerted v); SetMessageText text; SetMessageClass "success"]
            ++ fetchActivities net_list
            ++ [ShowMessage; hide_after_5_seconds]
        | Some (false, _, text) =>
            [ SetMessageText text; SetMessageClass "error";
              ShowMessage; hide_after_5_seconds ]
        end
    end.
Proof.
  unfold delete_click. f_equal.
  destruct (delete_url button) as [url|]; [|reflexivity].
  destruct net as [|[ok [v|]]]; try reflexivity.
  destruct v, ok; run_body; try reflexivity;
    match goal with
    | |- context [text_of ?x] =>
        destruct (text_of x) as [text|] eqn:E;
        [try (destruct (alert_text_defined _ _ E) as [shown ->])
        | try (destruct x as [[| | | | |]|];
               cbn [text_of alert_text] in E |- *;
               try discriminate E; rewrite ?E)]
    end; reflexivity.
Qed.

(** The remove button reads back the names it was rendered with. *)
Lemma deleteButton_url name participant :
  delete_url (deleteButton name participant) = unregister_url name participant.
Proof. reflexivity. Qed.

(** The effects of [fetchActivities]. *)
Lemma fetchActivities_trace net_list :
  fetchActivities net_list
  = Fetch list_request ::
    match net_list with
    | Net.Resolved {| Net.body := Some activities |} =>
        [ClearActivities; ResetSelect]
        ++ flat_map
             (fun entry =>
                [ AppendCard (activityCard (fst entry) (snd entry));
                  AppendOption (activityOption (fst entry)) ])
             activities
        ++ [BindDeleteButtons]
    | _ => [ShowLoadFailure; ConsoleError (str "Error fetching activities:")]
    end.
Proof.
  unfold fetchActivities.
  destruct net_list as [|[ok [activities|]]]; try reflexivity.
  unfold try_catch, fetch, json, lift. cbn [bind emit ret Net.body app].
  assert (H : forall l : listing,
             for_each l
               (fun entry =>
                  emit (AppendCard (activityCard (fst entry) (snd entry))) ;;
                  emit (AppendOption (activityOption (fst entry))))
             = (flat_map
                  (fun entry =>
                     [ AppendCard (activityCard (fst entry) (snd entry));
                       AppendOption (activityOption (fst entry)) ]) l,
                Some tt)).
  { induction l as [|entry l IH]; [reflexivity|].
    cbn [for_each flat_map]. rewrite IH. reflexivity. }
  rewrite H. reflexivity.
Qed.

(** ** The page after a handler *)

Lemma run_app p es es' : run p (es ++ es') = run (run p es) es'.
Proof. apply fold_left_app. Qed.

Lemma requested_app es es' : requested (es ++ es') = requested es ++ requested es'.
Proof. apply flat_map_app. Qed.

Lemma scheduled_app es es' : scheduled (es ++ es') = scheduled es ++ scheduled es'.
Proof. apply flat_map_app. Qed.

(** Quiet effects change neither the message nor the timers. *)
Lemma quiet_run es : forall p,
  forallb quiet es = true ->
  messageText (run p es) = messageText p
  /\ messageClasses (run p es) = messageClasses p
  /\ timers (run p es) = timers p.
Proof.
  induction es as [|e es IH]; intros p H; [repeat split|].
  cbn [forallb] in H. apply andb_prop in H. destruct H as [He Hes].
  cbn [run fold_left]. destruct (IH (apply p e) Hes) as (H1 & H2 & H3).
  unfold run in *. rewrite H1, H2, H3.
  destruct e; try discriminate He; repeat split.
Qed.

Lemma quiet_trace es rest text class :
  forallb quiet es = true ->
  written_before_shown text class (es ++ rest)
  = written_before_shown text class rest
  /\ scheduled (es ++ rest) = scheduled rest
  /\ shown (es ++ rest) = shown rest.
Proof.
  induction es as [|e es IH]; intros H; [repeat split|].
  cbn [forallb] in H. apply andb_prop in H. destruct H as [He Hes].
  destruct (IH Hes) as (H1 & H2 & H3). unfold shown in *.
  destruct e; try discriminate He;
    cbn [app written_before_shown scheduled flat_map filter];
    fold (scheduled (es ++ rest)); rewrite H1, H2, H3; repeat split.
Qed.

Lemma fetchActivities_quiet net_list :
  forallb quiet (fetchActivities net_list) = true.
Proof.
  rewrite fetchActivities_trace. cbn [forallb quiet andb].
  destruct net_list as [|[ok [activities|]]]; try reflexivity.
  rewrite !forallb_app. cbn [forallb quiet andb].
  rewrite andb_true_r. induction activities as [|entry l IH]; [reflexivity|].
  exact IH.
Qed.

Lemma run_cons p e es : run p (e :: es) = run (apply p e) es.
Proof. reflexivity. Qed.

Lemma requested_cons e es :
  requested (e :: es)
  = match e with Fetch r => [r] | _ => [] end ++ requested es.
Proof. reflexivity. Qed.

Lemma quiet_page_effects es :
  forallb (fun e => match e with Fetch _ => false | _ => true end) es = true ->
  requested es = [].
Proof.
  induction es as [|e es IH]; [reflexivity|]. cbn [forallb].
  intros H. apply andb_prop in H. destruct H as [He Hes].
  rewrite requested_cons, (IH Hes). destruct e; [| discriminate He | ..];
    reflexivity.
Qed.

Lemma fetchActivities_requested net_list :
  requested (fetchActivities net_list) = [list_request].
Proof.
  rewrite fetchActivities_trace, requested_cons. cbn [app]. f_equal.
  apply quiet_page_effects.
  destruct net_list as [|[ok [activities|]]]; try reflexivity.
  cbn [app forallb andb]. rewrite forallb_app. cbn [forallb andb].
  rewrite andb_true_r.
  induction activities as [|entry l IH]; [reflexivity | exact IH].
Qed.

Lemma run_cards (activities : listing) : forall p,
  activitiesList
    (run p (flat_map
              (fun entry =>
                 [ AppendCard (activityCard (fst entry) (snd entry));
                   AppendOption (activityOption (fst entry)) ]) activities))
  = activitiesList p
    ++ map (fun entry => activityCard (fst entry) (snd entry)) activities.
Proof.
  induction activities as [|entry l IH]; intros p.
  - cbn. now rewrite app_nil_r.
  - cbn [flat_map app map]. rewrite !run_cons, IH.
    cbn [apply activitiesList]. now rewrite <- app_assoc.
Qed.

(** After [fetchActivities] the list shows the cards of the listing, or
    the failure notice. *)
Lemma fetchActivities_rendered net_list p :
  activitiesList (run p (fetchActivities net_list)) = rendered net_list.
Proof.
  rewrite fetchActivities_trace. unfold rendered.
  destruct net_list as [|[ok [activities|]]]; try reflexivity.
  cbn [Net.body app]. rewrite !run_cons, run_app, run_cons.
  change (activitiesList (run ?q [])) with (activitiesList q).
  cbn [apply activitiesList]. rewrite run_cards. reflexivity.
Qed.

(** The requests of the two handlers: the mutation, when its target
    could be built, and the list request after a success. *)
Lemma signup_requested email activity net net_list :
  requested (signup_submit email activity net net_list)
  = match signup_url activity email with
    | Some url =>
        {| Net.req_method := Net.POST; Net.req_url := url |}
        :: follow_up (Some url) net
    | None => []
    end.
Proof.
  rewrite signup_submit_trace, requested_cons. cbn [app].
  unfold follow_up, succeeded.
  destruct (signup_url activity email) as [url|]; [|reflexivity].
  rewrite requested_cons. cbn [app]. f_equal.
  destruct (result_of net) as [[[[|] v] text]|]; try reflexivity.
  rewrite !requested_cons, !requested_app, fetchActivities_requested.
  reflexivity.
Qed.

Lemma delete_requested button net net_list :
  requested (delete_click button net net_list)
  = match delete_url button with
    | Some url =>
        {| Net.req_method := Net.POST; Net.req_url := url |}
        :: follow_up (Some url) net
    | None => []
    end.
Proof.
  rewrite delete_click_trace, requested_cons. cbn [app].
  unfold follow_up, succeeded.
  destruct (delete_url button) as [url|]; [|reflexivity].
  rewrite requested_cons. cbn [app]. f_equal.
  destruct (result_of net) as [[[[|] v] text]|]; try reflexivity.
  rewrite !requested_cons, !requested_app, fetchActivities_requested.
  reflexivity.
Qed.

Lemma follow_up_listing url net : Forall (eq list_request) (follow_up url net).
Proof.
  unfold follow_up. destruct (succeeded url net); repeat constructor.
Qed.

(** A target built from a name and an identifier names them to the
    server that reads it. *)
Lemma target_read (verb : jsstring) (name id a e : jsstring) :
  (forall c, c = 35 \/ c = 47 \/ c = 63 -> Forall (fun y => y <> c) verb) ->
  well_typed name -> well_typed id ->
  Uri.encodeURIComponent name = Some a ->
  Uri.encodeURIComponent id = Some e ->
  Uri.path_activity verb
    (str "/activities/" ++ a ++ 47 :: verb ++ str "?email=" ++ e) = Some name
  /\ Uri.query_email
       (str "/activities/" ++ a ++ 47 :: verb ++ str "?email=" ++ e) = Some id.
Proof.
  intros Hverb Hname Hid Ea Ee.
  pose proof (decodeURIComponent_encodeURIComponent _ _ Hname Ea) as Da.
  pose proof (decodeURIComponent_encodeURIComponent _ _ Hid Ee) as De.
  apply encodeURIComponent_Encoded in Ea, Ee.
  destruct (route_read verb a e Hverb (Encoded_chars _ _ Ea Hname)
              (Encoded_chars _ _ Ee Hid)) as [H1 H2].
  rewrite <- Da, <- De. split; assumption.
Qed.

Lemma verb_plain (verb : string) :
  forallb (fun y => negb (y =? 35) && negb (y =? 47) && negb (y =? 63))
    (str verb) = true ->
  forall c, c = 35 \/ c = 47 \/ c = 63 -> Forall (fun y => y <> c) (str verb).
Proof.
  rewrite forallb_forall. intros H c Hc. apply Forall_forall.
  intros y Hy. apply H in Hy. lia.
Qed.

(** C5. The first request of the sign-up handler is a POST to
    [/activities/{name}/signup?email={id}] and the first request of the
    remove handler of a rendered button a POST to
    [/activities/{name}/unregister?email={id}]: the name and the
    identifier are written percent-encoded, and a server that reads the
    target finds the selected activity name as [{name}] and the
    identifier as [{id}].  The only other request either handler makes
    is the listing that follows; no request is made when a name cannot
    be encoded. *)
Theorem mutation_requests (email activity name participant : jsstring)
    (net : Net.answer Json.value) (net_list : Net.answer listing) :
  well_typed email -> well_typed activity ->
  well_typed name -> well_typed participant ->
  match Uri.encodeURIComponent activity, Uri.encodeURIComponent email with
  | Some a, Some e =>
      exists later,
        requested (signup_submit email activity net net_list)
        = {| Net.req_method := Net.POST;
             Net.req_url := str "/activities/" ++ a ++ str "/signup?email=" ++ e |}
          :: later
        /\ Forall (eq list_request) later
        /\ Uri.path_activity (str "signup")
             (str "/activities/" ++ a ++ str "/signup?email=" ++ e)
           = Some activity
        /\ Uri.query_email
             (str "/activities/" ++ a ++ str "/signup?email=" ++ e)
           = Some email
  | _, _ => requested (signup_submit email activity net net_list) = []
  end
  /\ match Uri.encodeURIComponent name, Uri.encodeURIComponent participant with
     | Some a, Some e =>
         exists later,
           requested (delete_click (deleteButton name participant) net net_list)
           = {| Net.req_method := Net.POST;
                Net.req_url :=
                  str "/activities/" ++ a ++ str "/unregister?email=" ++ e |}
             :: later
           /\ Forall (eq list_request) later
           /\ Uri.path_activity (str "unregister")
                (str "/activities/" ++ a ++ str "/unregister?email=" ++ e)
              = Some name
           /\ Uri.query_email
                (str "/activities/" ++ a ++ str "/unregister?email=" ++ e)
              = Some participant
     | _, _ =>
         requested (delete_click (deleteButton name participant) net net_list)
         = []
     end.
Proof.
  intros Hemail Hactivity Hname Hparticipant.
  rewrite signup_requested, delete_requested, deleteButton_url.
  unfold signup_url, unregister_url. split.
  - destruct (Uri.encodeURIComponent activity) as [a|] eqn:Ea; [|reflexivity].
    destruct (Uri.encodeURIComponent email) as [e|] eqn:Ee; [|reflexivity].
    eexists. split; [reflexivity|]. split; [apply follow_up_listing|].
    apply (target_read (str "signup") activity email a e); try assumption.
    apply verb_plain. reflexivity.
  - destruct (Uri.encodeURIComponent name) as [a|] eqn:Ea; [|reflexivity].
    destruct (Uri.encodeURIComponent participant) as [e|] eqn:Ee;
      [|reflexivity].
    eexists. split; [reflexivity|]. split; [apply follow_up_listing|].
    apply (target_read (str "unregister") name participant a e);
      try assumption.
    apply verb_plain. reflexivity.
Qed.

Lemma mutation_requests_witness :
  well_typed (str "a@x.com") /\ well_typed (str "Chess Club")
  /\ (exists later,
        requested
          (signup_submit (str "a@x.com") (str "Chess Club")
             (Net.Resolved activity_full) Net.Rejected)
        = {| Net.req_method := Net.POST;
             Net.req_url :=
               str "/activities/Chess%20Club/signup?email=a%40x.com" |}
          :: later
        /\ Forall (eq list_request) later
        /\ Uri.path_activity (str "signup")
             (str "/activities/Chess%20Club/signup?email=a%40x.com")
           = Some (str "Chess Club")
        /\ Uri.query_email
             (str "/activities/Chess%20Club/signup?email=a%40x.com")
           = Some (str "a@x.com"))
  /\ (exists later,
        requested
          (delete_click (deleteButton (str "Chess Club") (str "a@x.com"))
             (Net.Resolved activity_full) Net.Rejected)
        = {| Net.req_method := Net.POST;
             Net.req_url :=
               str "/activities/Chess%20Club/unregister?email=a%40x.com" |}
          :: later
        /\ Forall (eq list_request) later
        /\ Uri.path_activity (str "unregister")
             (str "/activities/Chess%20Club/unregister?email=a%40x.com")
           = Some (str "Chess Club")
        /\ Uri.query_email
             (str "/activities/Chess%20Club/unregister?email=a%40x.com")
           = Some (str "a@x.com")).
Proof.
  assert (H1 : well_typed (str "a@x.com"))
    by (apply well_typedb_spec; vm_compute; reflexivity).
  assert (H2 : well_typed (str "Chess Club"))
    by (apply well_typedb_spec; vm_compute; reflexivity).
  split; [exact H1|]. split; [exact H2|].
  exact (mutation_requests (str "a@x.com") (str "Chess Club")
           (str "Chess Club") (str "a@x.com")
           (Net.Resolved activity_full) Net.Rejected H1 H2 H2 H1).
Defined.

(** The remove buttons of a card are those of its participants. *)
Lemma card_delete_buttons name d :
  Dom.select "delete-btn" (activityCard name d)
  = map (deleteButton name) (participants d).
Proof.
  assert (H : forall ps,
             filter (Dom.has_class "delete-btn")
               (flat_map Dom.descendants (map (participantItem name) ps))
             = map (deleteButton name) ps).
  { induction ps as [|q ps IH]; [reflexivity|].
    cbn [map]. rewrite select_cons, IH.
    unfold participantItem, deleteButton. select_tree. reflexivity. }
  unfold Dom.select, activityCard, participantsListEl, strong. select_tree.
  destruct (participants d) as [|q ps]; [reflexivity|]. apply H.
Qed.

(** The buttons that listen for a click after [fetchActivities] has read
    a listing: one per participant of each activity, carrying the names
    of both. *)
Lemma bound_delete_buttons (p : page) (ok : bool) (activities : listing) :
  deleteButtons
    (run p (fetchActivities
              (Net.Resolved {| Net.ok := ok; Net.body := Some activities |})))
  = flat_map
      (fun entry => map (deleteButton (fst entry)) (participants (snd entry)))
      activities.
Proof.
  rewrite fetchActivities_trace. cbn [Net.body app].
  rewrite !run_cons, run_app, run_cons.
  change (deleteButtons (run ?q [])) with (deleteButtons q).
  cbn [apply deleteButtons]. rewrite run_cards. cbn [apply activitiesList app].
  induction activities as [|[name d] l IH]; [reflexivity|].
  cbn [map flat_map fst snd]. rewrite IH, card_delete_buttons. reflexivity.
Qed.

(** *** Whether the list is fetched again *)

Lemma run_success p (before : list effect) net_list :
  activitiesList
    (run p (before ++ fetchActivities net_list
            ++ [ShowMessage; hide_after_5_seconds]))
  = rendered net_list.
Proof.
  rewrite !run_app.
  change (activitiesList (run ?q [ShowMessage; hide_after_5_seconds]))
    with (activitiesList q).
  apply fetchActivities_rendered.
Qed.

Lemma post_is_not_listing url :
  {| Net.req_method := Net.POST; Net.req_url := url |} <> list_request.
Proof. discriminate. Qed.

(** A response that is [ok] but carries no JSON body: [response.json()]
    rejects and the handler ends in its [catch] block. *)
Lemma plain_success_not_refetched :
  ~ (In list_request
        (requested (signup_submit (str "a@x.com") (str "Chess Club")
                      plain_success Net.Rejected))
     <-> response_ok plain_success = true).
Proof.
  intros [_ H]. specialize (H eq_refl). vm_compute in H.
  destruct H as [H|[]]. discriminate H.
Qed.

(** C6, as the code has it.  A handler fetches the list again, and
    shows what that fetch gives, exactly when its request could be
    built and was answered [ok] with a usable body: one that is JSON,
    is not [null] and whose [message] converts to a string.  In every
    other case (the response is not [ok], its body is not usable, the
    request failed or could not be built) no list request is made, the
    displayed list stays as it was, and the message is shown with the
    class [error] and a text the handler has just written. *)
Theorem refetch_after_success (email activity : jsstring) (button : Dom.node)
    (net : Net.answer Json.value) (net_list : Net.answer listing) (p : page) :
  (if succeeded (signup_url activity email) net then
     In list_request (requested (signup_submit email activity net net_list))
     /\ activitiesList (run p (signup_submit email activity net net_list))
        = rendered net_list
   else
     ~ In list_request (requested (signup_submit email activity net net_list))
     /\ activitiesList (run p (signup_submit email activity net net_list))
        = activitiesList p
     /\ messageClasses (run p (signup_submit email activity net net_list))
        = ["error"%string]
     /\ In (SetMessageText
              (messageText (run p (signup_submit email activity net net_list))))
           (signup_submit email activity net net_list))
  /\ (if succeeded (delete_url button) net then
        In list_request (requested (delete_click button net net_list))
        /\ activitiesList (run p (delete_click button net net_list))
           = rendered net_list
      else
        ~ In list_request (requested (delete_click button net net_list))
        /\ activitiesList (run p (delete_click button net net_list))
           = activitiesList p
        /\ messageClasses (run p (delete_click button net net_list))
           = ["error"%string]
        /\ In (SetMessageText
                 (messageText (run p (delete_click button net net_list))))
              (delete_click button net net_list)).
Proof.
  rewrite signup_requested, delete_requested.
  rewrite signup_submit_trace, delete_click_trace.
  unfold follow_up, succeeded. split.
  - destruct (signup_url activity email) as [url|].
    + destruct (result_of net) as [[[[|] v] text]|].
      * split; [right; now left|].
        apply (run_success p
                 [PreventDefault; Fetch _; SetMessageText _;
                  SetMessageClass _; ResetForm]).
      * split; [intros [H|[]]; now apply post_is_not_listing in H|].
        repeat split. cbn. auto.
      * split; [intros [H|[]]; now apply post_is_not_listing in H|].
        repeat split. cbn. auto.
    + split; [intros []|]. repeat split. cbn. auto.
  - destruct (delete_url button) as [url|].
    + destruct (result_of net) as [[[[|] v] text]|].
      * split; [right; now left|].
        apply (run_success p
                 [PreventDefault; Fetch _; Alert _; SetMessageText _;
                  SetMessageClass _]).
      * split; [intros [H|[]]; now apply post_is_not_listing in H|].
        repeat split. cbn. auto.
      * split; [intros [H|[]]; now apply post_is_not_listing in H|].
        repeat split. cbn. auto.
    + split; [intros []|]. repeat split. cbn. auto.
Qed.

(** *** The message of a response that is not [ok] *)

(** A response that is not [ok] and carries no JSON body has no
    [detail], yet the text shown is that of the [catch] block. *)
Lemma plain_failure_message :
  messageText
    (run blank_page
       (signup_submit (str "a@x.com") (str "Chess Club") plain_failure
          Net.Rejected))
  <> str "An error occurred".
Proof. vm_compute. discriminate. Qed.

(** C4, as the code has it.  When the response is not [ok] and its body
    is a JSON value other than [null], the message shows the [detail]
    member converted to a string (a string is shown as it is) when that
    member is truthy, and [An error occurred] when it is falsy or
    missing.  When the body is not JSON or is [null], or a truthy
    [detail] cannot be converted to a string, the message shows the
    text of the handler's [catch] block. *)
Theorem error_message_text (email activity : jsstring) (button : Dom.node)
    (url url' : jsstring) (r : Net.response Json.value)
    (net_list : Net.answer listing) (p : page) :
  signup_url activity email = Some url ->
  delete_url button = Some url' ->
  Net.ok r = false ->
  messageText (run p (signup_submit email activity (Net.Resolved r) net_list))
  = match Net.body r with
    | None | Some Json.JNull => str "Failed to sign up. Please try again."
    | Some v =>
        match property v "detail" with
        | Some detail =>
            if Json.ToBoolean detail then
              match Json.ToString detail with
              | Some text => text
              | None => str "Failed to sign up. Please try again."
              end
            else str "An error occurred"
        | None => str "An error occurred"
        end
    end
  /\ messageText (run p (delete_click button (Net.Resolved r) net_list))
     = match Net.body r with
       | None | Some Json.JNull =>
           str "Failed to remove participant. Please try again."
       | Some v =>
           match property v "detail" with
           | Some detail =>
               if Json.ToBoolean detail then
                 match Json.ToString detail with
                 | Some text => text
                 | None =>
                     str "Failed to remove participant. Please try again."
                 end
               else str "An error occurred"
           | None => str "An error occurred"
           end
       end.
Proof.
  intros Hs Hd Hok.
  rewrite signup_submit_trace, delete_click_trace, Hs, Hd.
  unfold result_of, written. rewrite Hok.
  destruct (Net.body r) as [v|]; [|split; reflexivity].
  destruct (is_null v) eqn:Hv.
  { destruct v; try discriminate Hv. split; reflexivity. }
  assert (E : forall (A : Type) (a b : A),
             match v with Json.JNull => a | _ => b end = b)
    by (intros A a b; destruct v; (reflexivity || discriminate Hv)).
  rewrite !E. unfold or_else.
  destruct (property v "detail") as [detail|]; [|split; reflexivity].
  destruct (Json.ToBoolean detail) eqn:Hb; [|split; reflexivity].
  assert (Ht : text_of (Some detail) = Json.ToString detail)
    by (destruct detail; (reflexivity || discriminate Hb)).
  rewrite Ht. destruct (Json.ToString detail); split; reflexivity.
Qed.

Lemma error_message_text_witness :
  messageText
    (run blank_page
       (signup_submit (str "a@x.com") (str "Chess Club")
          (Net.Resolved activity_full) Net.Rejected))
  = str "Activity is full"
  /\ messageText
       (run blank_page
          (delete_click (deleteButton (str "Chess Club") (str "a@x.com"))
             (Net.Resolved activity_full) Net.Rejected))
     = str "Activity is full".
Proof.
  refine (error_message_text (str "a@x.com") (str "Chess Club")
            (deleteButton (str "Chess Club") (str "a@x.com"))
            (str "/activities/Chess%20Club/signup?email=a%40x.com")
            (str "/activities/Chess%20Club/unregister?email=a%40x.com")
            activity_full Net.Rejected blank_page _ _ _).
  - vm_compute. reflexivity.
  - vm_compute. reflexivity.
  - reflexivity.
Defined.

(** A [detail] that is a list of objects, as a validation error has
    it, is shown through [ToString]. *)
Example detail_list_message :
  messageText
    (run blank_page
       (signup_submit (str "a@x.com") (str "Chess Club")
          (Net.Resolved
             {| Net.ok := false;
                Net.body :=
                  Some (Json.JObject
                          [(str "detail",
                            Json.JArray
                              [Json.JObject
                                 [(str "msg", Json.JString (str "field required"))];
                               Json.JNull;
                               Json.JString (str "x")])]) |})
          Net.Rejected))
  = str "[object Object],,x".
Proof. vm_compute. reflexivity. Qed.

(** A [detail] object with a member named [toString] cannot be
    converted: the assignment throws and the [catch] block answers. *)
Example detail_unprintable_message :
  messageText
    (run blank_page
       (signup_submit (str "a@x.com") (str "Chess Club")
          (Net.Resolved
             {| Net.ok := false;
                Net.body :=
                  Some (Json.JObject
                          [(str "detail",
                            Json.JObject [(str "toString", Json.JNull)])]) |})
          Net.Rejected))
  = str "Failed to sign up. Please try again.".
Proof. vm_compute. reflexivity. Qed.

(** A successful sign-up: the request, the new list, the message and
    its timer. *)
Example signup_chess :
  let p :=
    run blank_page
      (signup_submit (str "a@x.com") (str "Chess Club")
         (Net.Resolved
            {| Net.ok := true;
               Net.body :=
                 Some (Json.JObject
                         [(str "message",
                           Json.JString (str "Signed up a@x.com for Chess Club"))]) |})
         (Net.Resolved
            {| Net.ok := true;
               Net.body :=
                 Some [(str "Chess Club",
                        {| description := str "Learn chess";
                           schedule := str "Fridays";
                           max_participants := 12;
                           participants := [str "a@x.com"] |})] |})) in
  requests p
  = [ {| Net.req_method := Net.POST;
         Net.req_url := str "/activities/Chess%20Club/signup?email=a%40x.com" |};
      list_request ]
  /\ messageText p = str "Signed up a@x.com for Chess Club"
  /\ messageClasses p = ["success"%string]
  /\ timers p = [([HideMessage], 5000)]
  /\ map displayed_spots (activitiesList p) = [Some 11]
  /\ deleteButtons p = [deleteButton (str "Chess Club") (str "a@x.com")].
Proof. vm_compute. repeat split; reflexivity. Qed.

(** *** The timer of the message *)

(** A response without a JSON body has been received, yet no timer is
    started: the handler ends in its [catch] block. *)
Lemma plain_failure_no_timer :
  response_ok plain_failure = false
  /\ ~ In (SetTimeout [HideMessage] 5000)
         (signup_submit (str "a@x.com") (str "Chess Club") plain_failure
            Net.Rejected).
Proof.
  split; [reflexivity|]. vm_compute.
  intros H. repeat (destruct H as [H|H]; [discriminate H|]). exact H.
Qed.

Lemma shown_cons e es :
  shown (e :: es)
  = ((match e with ShowMessage => 1 | _ => 0 end) + shown es)%nat.
Proof. unfold shown. destruct e; reflexivity. Qed.

Lemma scheduled_cons e es :
  scheduled (e :: es)
  = match e with SetTimeout c d => [(c, d)] | _ => [] end ++ scheduled es.
Proof. reflexivity. Qed.

(** C8, as the code has it.  A handler starts one timer of 5000
    milliseconds, whose callback hides the message, when its request
    could be built and was answered, [ok] or not, with a usable body:
    one that is JSON, is not [null] and whose [message] or [detail]
    converts to a string.  In every other case it starts none.  In
    every case it shows the message once, after writing both its text
    and its class anew. *)
Theorem notification_timer (email activity : jsstring) (button : Dom.node)
    (net : Net.answer Json.value) (net_list : Net.answer listing) (p : page) :
  scheduled (signup_submit email activity net net_list)
  = (if answered (signup_url activity email) net
     then [([HideMessage], 5000)] else [])
  /\ written_before_shown false false
       (signup_submit email activity net net_list) = true
  /\ shown (signup_submit email activity net net_list) = 1%nat
  /\ scheduled (delete_click button net net_list)
     = (if answered (delete_url button) net
        then [([HideMessage], 5000)] else [])
  /\ written_before_shown false false (delete_click button net net_list) = true
  /\ shown (delete_click button net net_list) = 1%nat
  /\ existsb (String.eqb "hidden") (messageClasses (run p [HideMessage])) = true.
Proof.
  rewrite signup_submit_trace, delete_click_trace. unfold answered.
  pose proof (fetchActivities_quiet net_list) as Hq.
  assert (Hhide : existsb (String.eqb "hidden")
                    (messageClasses (run p [HideMessage])) = true).
  { cbn [run fold_left apply messageClasses]. unfold add_class.
    destruct (existsb (String.eqb "hidden") (messageClasses p)) eqn:E;
      [exact E|].
    rewrite existsb_app. cbn. apply orb_true_r. }
  destruct (signup_url activity email) as [url|];
    destruct (delete_url button) as [url'|];
    destruct (result_of net) as [[[[|] v] text]|];
    repeat split; try reflexivity; try exact Hhide;
    match goal with
    | |- context [fetchActivities net_list ++ ?rest] =>
        destruct (quiet_trace (fetchActivities net_list) rest true true Hq)
          as (H1 & H2 & H3)
    end;
    cbn [app written_before_shown andb];
    repeat rewrite shown_cons; repeat rewrite scheduled_cons;
    cbn [app];
    rewrite ?H1, ?H2, ?H3; reflexivity.
Qed.

(** *** What the list shows *)

(** A capacity of [2 ^ 53 + 2], which is a Number, with one participant:
    the difference [2 ^ 53 + 1] is no Number, and the card shows
    [2 ^ 53]. *)
Lemma spots_left_rounded :
  map displayed_spots
    (activitiesList
       (run blank_page
          (fetchActivities
             (Net.Resolved
                {| Net.ok := true;
                   Net.body :=
                     Some [(str "Chess Club",
                            {| description := str "Learn chess";
                               schedule := str "Fridays";
                               max_participants := 9007199254740994;
                               participants := [str "a@x.com"] |})] |}))))
  = [Some 9007199254740992]
  /\ 9007199254740992
     <> 9007199254740994 - Z.of_nat (List.length [str "a@x.com"]).
Proof. split; [vm_compute; reflexivity | discriminate]. Qed.

(** C3, as the code has it.  After [fetchActivities] has read a
    listing, the page shows one card per activity, in order, and the
    availability line of each card shows what the card builder computes
    from the fetched record: [max_participants] minus the number of
    participants, as a Number, between a space and [" spots left"].
    When the capacity and the difference are safe integers (below
    [2 ^ 53] in magnitude), that Number is the integer difference,
    written with all its decimal digits, and the number read back from
    the text is the difference.  The value is computed while the card
    is built; neither the record nor the page has a field for it. *)
Theorem spots_left_displayed (p : page) (ok : bool) (activities : listing) :
  Forall2
    (fun card entry =>
       let capacity := max_participants (snd entry) in
       let enrolled := Z.of_nat (List.length (participants (snd entry))) in
       Dom.labelled (str "Availability:") card
       = [str " "
          ++ Number_toString (Number.minus (Number.of_Z capacity) enrolled)
          ++ str " spots left"]
       /\ (Number.isSafeInteger capacity
           && Number.isSafeInteger (capacity - enrolled) = true ->
           Dom.labelled (str "Availability:") card
           = [str " " ++ decimal (capacity - enrolled) ++ str " spots left"]
           /\ displayed_spots card = Some (capacity - enrolled)))
    (activitiesList
       (run p (fetchActivities
                 (Net.Resolved {| Net.ok := ok; Net.body := Some activities |}))))
    activities.
Proof.
  rewrite fetchActivities_rendered. unfold rendered. cbn [Net.body].
  induction activities as [|[name d] rest IH]; cbn [map fst snd];
    constructor; [|exact IH].
  cbv zeta. cbn [snd]. split; [apply card_availability|].
  intros H. destruct (card_spots_left name d H) as [E R].
  split; [|exact R].
  rewrite card_availability, E. reflexivity.
Qed.

(** A club of twelve seats with one participant shows eleven. *)
Lemma spots_left_displayed_witness :
  Number.isSafeInteger 12 && Number.isSafeInteger (12 - 1) = true
  /\ Dom.labelled (str "Availability:")
       (activityCard (str "Chess Club")
          {| description := str "Learn chess"; schedule := str "Fridays";
             max_participants := 12; participants := [str "a@x.com"] |})
     = [str " 11 spots left"]
  /\ displayed_spots
       (activityCard (str "Chess Club")
          {| description := str "Learn chess"; schedule := str "Fridays";
             max_participants := 12; participants := [str "a@x.com"] |})
     = Some 11.
Proof.
  split; [reflexivity|].
  pose proof
    (spots_left_displayed blank_page true
       [(str "Chess Club",
         {| description := str "Learn chess"; schedule := str "Fridays";
            max_participants := 12; participants := [str "a@x.com"] |})])
    as H.
  rewrite fetchActivities_rendered in H.
  apply Forall2_cons_iff in H as [[_ H] _].
  exact (H eq_refl).
Defined.

(** * Further properties *)

(** ** The label and the parts of the identifier *)

Lemma handle_idempotent s : LabelSpec.handle (LabelSpec.handle s) = LabelSpec.handle s.
Proof.
  induction s as [|c s IH]; [reflexivity|]. simpl.
  destruct (c =? at_sign) eqn:E; [reflexivity|]. simpl. now rewrite E, IH.
Qed.

Lemma handle_app (x y : jsstring) :
  Forall (fun c => c <> at_sign) x ->
  LabelSpec.handle (x ++ y) = x ++ LabelSpec.handle y.
Proof.
  induction 1 as [|c x Hc _ IH]; [reflexivity|]. simpl.
  destruct (Z.eqb_spec c at_sign); [contradiction | now rewrite IH].
Qed.

Lemma handle_plain (x : jsstring) :
  Forall (fun c => c <> at_sign) x -> LabelSpec.handle x = x.
Proof.
  intros H. rewrite <- (app_nil_r x) at 1. rewrite handle_app by assumption.
  apply app_nil_r.
Qed.

(** [getInitials] reads its argument up to the first [@] only. *)
Lemma getInitials_handle s : getInitials s = getInitials (LabelSpec.handle s).
Proof.
  unfold getInitials, JS.split. rewrite !split_from_handle.
  now rewrite handle_idempotent.
Qed.

(** The label, from the pieces of the handle. *)
Lemma getInitials_pieces s :
  getInitials s
  = let letters :=
      match LabelSpec.pieces_from [] (LabelSpec.handle s) with
      | [] => [LabelSpec.handle s]
      | ps => ps
      end in
    match JS.toUpperCase (LabelSpec.first_characters letters) with
    | [] => str "?"
    | r => r
    end.
Proof.
  unfold getInitials, JS.split, JS.regexp_split, LabelSpec.first_characters.
  rewrite split_from_handle. simpl app.
  rewrite regexp_split_from_pieces by discriminate.
  rewrite join_first_characters.
  destruct (LabelSpec.pieces_from [] (LabelSpec.handle s));
    destruct (JS.toUpperCase _); reflexivity.
Qed.

(** X1. The label depends on the text before the first [@] only: what
    follows it, the domain of an address, does not count. *)
Theorem getInitials_ignores_domain (h d : jsstring) :
  Forall (fun c => c <> at_sign) h ->
  getInitials (h ++ at_sign :: d) = getInitials h.
Proof.
  intros Hh. rewrite (getInitials_handle (h ++ at_sign :: d)).
  rewrite (getInitials_handle h).
  rewrite handle_app by assumption.
  cbn [LabelSpec.handle]. rewrite Z.eqb_refl, app_nil_r.
  now rewrite handle_plain.
Qed.

Lemma getInitials_ignores_domain_witness :
  Forall (fun c => c <> at_sign) (str "alice.smith")
  /\ getInitials (str "alice.smith" ++ at_sign :: str "example.com")
     = getInitials (str "alice.smith").
Proof.
  assert (H : Forall (fun c => c <> at_sign) (str "alice.smith"))
    by (apply Forall_ne_forallb; vm_compute; reflexivity).
  split; [exact H|]. exact (getInitials_ignores_domain _ _ H).
Defined.

Lemma plain_spec c :
  plain c = true -> separator c = false /\ c <> at_sign.
Proof.
  unfold plain. rewrite andb_true_iff, !negb_true_iff.
  intros [Hs Ha]. split; [exact Hs | now apply Z.eqb_neq].
Qed.

Lemma separator_not_at c : separator c = true -> c <> at_sign.
Proof. unfold separator, at_sign. lia. Qed.

Lemma pieces_from_piece (x : jsstring) : forall cur s rest,
  Forall (fun c => separator c = false) x -> cur ++ x <> [] ->
  separator s = true ->
  LabelSpec.pieces_from cur (x ++ s :: rest)
  = (cur ++ x) :: LabelSpec.pieces_from [] rest.
Proof.
  induction x as [|c x IH]; intros cur s rest Hx Hne Hs.
  - rewrite app_nil_r in *. cbn [app LabelSpec.pieces_from]. rewrite Hs.
    destruct cur; [contradiction | reflexivity].
  - inversion Hx as [|? ? Hc Hx']; subst.
    cbn [app LabelSpec.pieces_from]. rewrite Hc.
    rewrite IH; try assumption.
    + now rewrite <- app_assoc.
    + destruct cur; discriminate.
Qed.

Lemma pieces_from_last (x : jsstring) : forall cur,
  Forall (fun c => separator c = false) x ->
  LabelSpec.pieces_from cur x
  = match cur ++ x with [] => [] | _ :: _ => [cur ++ x] end.
Proof.
  induction x as [|c x IH]; intros cur Hx.
  - rewrite app_nil_r. destruct cur; reflexivity.
  - inversion Hx as [|? ? Hc Hx']; subst.
    cbn [LabelSpec.pieces_from]. rewrite Hc, IH by assumption.
    now rewrite <- app_assoc.
Qed.

Lemma trimStart_snoc (l : jsstring) c :
  JS.white_space c = false -> exists l', JS.trimStart (l ++ [c]) = l' ++ [c].
Proof.
  intros Hc. induction l as [|x l [l' IH]]; cbn [app JS.trimStart].
  - rewrite Hc. now exists [].
  - destruct (JS.white_space x); [now exists l' | now exists (x :: l)].
Qed.

(** Trimming keeps a first character that is no white space. *)
Lemma trim_head c (p : jsstring) :
  JS.white_space c = false -> exists t, JS.trim (c :: p) = c :: t.
Proof.
  intros Hc. unfold JS.trim, JS.trimEnd. cbn [JS.trimStart]. rewrite Hc.
  cbn [rev]. destruct (trimStart_snoc (rev p) c Hc) as [l' ->].
  exists (rev l'). now rewrite rev_app_distr.
Qed.

Lemma first_character_head c (p : jsstring) :
  JS.white_space c = false -> LabelSpec.first_character (c :: p) = [c].
Proof.
  intros Hc. unfold LabelSpec.first_character.
  now destruct (trim_head c p Hc) as [t ->].
Qed.

Lemma upper_code_point_nonempty cp : JS.upper_code_point cp <> [].
Proof.
  destruct (upper_code_point_cases cp) as [[-> _]|(v & Hv & ->)];
    [discriminate|].
  apply upper_entry_facts in Hv. destruct Hv as (_ & Hlen & _).
  destruct v; [simpl in Hlen; lia | discriminate].
Qed.

(** Upper-casing never empties a text. *)
Lemma toUpperCase_nonempty s : s <> [] -> JS.toUpperCase s <> [].
Proof.
  intros Hs. unfold JS.toUpperCase, JS.CodePointsToString.
  assert (Hcp : exists cp cps, JS.StringToCodePoints s = cp :: cps).
  { destruct s as [|c rest]; [contradiction|]. cbn [JS.StringToCodePoints].
    destruct (JS.is_lead c); [|eauto].
    destruct rest as [|d rest']; [eauto|]. destruct (JS.is_trail d); eauto. }
  destruct Hcp as (cp & cps & ->). cbn [flat_map].
  pose proof (upper_code_point_nonempty cp) as Hu.
  destruct (JS.upper_code_point cp) as [|u us]; [contradiction|].
  cbn [app flat_map]. pose proof (encode_length u) as Hl.
  destruct (JS.UTF16EncodeCodePoint u); [simpl in Hl; lia | discriminate].
Qed.

(** X2. The label of an address whose handle begins with two names is
    the upper-case form of their first characters, whatever follows the
    second name; that of a handle that is one name is the upper-case
    form of its first character.  A name is a run of code units without
    separator and [@] that does not begin with white space. *)
Theorem initials_of_names (c1 c2 s1 s2 : Z) (p q d rest : jsstring) :
  JS.white_space c1 = false -> forallb plain (c1 :: p) = true ->
  JS.white_space c2 = false -> forallb plain (c2 :: q) = true ->
  separator s1 = true -> separator s2 || (s2 =? at_sign) = true ->
  getInitials ((c1 :: p) ++ at_sign :: d) = JS.toUpperCase [c1]
  /\ getInitials ((c1 :: p) ++ s1 :: (c2 :: q) ++ s2 :: rest)
     = JS.toUpperCase [c1; c2].
Proof.
  intros Hw1 Hp Hw2 Hq Hs1 Hs2.
  assert (Hplain : forall l, forallb plain l = true ->
            Forall (fun c => separator c = false) l
            /\ Forall (fun c => c <> at_sign) l).
  { intros l Hl. rewrite forallb_forall in Hl.
    split; apply Forall_forall; intros c Hc; now apply plain_spec, Hl. }
  destruct (Hplain _ Hp) as [Hp1 Hp2]. destruct (Hplain _ Hq) as [Hq1 Hq2].
  split.
  - rewrite getInitials_pieces, handle_app by assumption.
    cbn [LabelSpec.handle]. rewrite Z.eqb_refl, app_nil_r.
    rewrite pieces_from_last by assumption. cbn [app].
    unfold LabelSpec.first_characters. cbn [firstn flat_map].
    rewrite first_character_head, app_nil_r by assumption.
    pose proof (toUpperCase_nonempty [c1] ltac:(discriminate)) as Hne.
    destruct (JS.toUpperCase [c1]); [contradiction | reflexivity].
  - rewrite getInitials_pieces.
    assert (Hhandle :
              LabelSpec.handle ((c1 :: p) ++ s1 :: (c2 :: q) ++ s2 :: rest)
              = (c1 :: p) ++ s1 :: (c2 :: q)
                ++ (if separator s2 then s2 :: LabelSpec.handle rest else [])).
    { rewrite handle_app by assumption.
      change (s1 :: (c2 :: q) ++ s2 :: rest)
        with ([s1] ++ (c2 :: q) ++ s2 :: rest).
      rewrite handle_app
        by (constructor; [now apply separator_not_at | constructor]).
      rewrite handle_app by assumption.
      cbn [LabelSpec.handle app]. destruct (separator s2) eqn:E.
      - destruct (Z.eqb_spec s2 at_sign) as [->|_]; [discriminate E|].
        reflexivity.
      - cbn [orb] in Hs2. now rewrite Hs2. }
    rewrite Hhandle. rewrite pieces_from_piece by (assumption || discriminate).
    assert (Hrest :
              exists more,
                LabelSpec.pieces_from []
                  ((c2 :: q)
                   ++ (if separator s2 then s2 :: LabelSpec.handle rest else []))
                = (c2 :: q) :: more).
    { destruct (separator s2) eqn:E.
      - rewrite pieces_from_piece by (assumption || discriminate).
        cbn [app]. eauto.
      - rewrite app_nil_r, pieces_from_last by assumption.
        cbn [app]. eauto. }
    destruct Hrest as [more ->]. cbn [app].
    unfold LabelSpec.first_characters. cbn [firstn flat_map].
    rewrite !first_character_head, app_nil_r by assumption. cbn [app].
    pose proof (toUpperCase_nonempty [c1; c2] ltac:(discriminate)) as Hne.
    destruct (JS.toUpperCase [c1; c2]); [contradiction | reflexivity].
Qed.

Lemma initials_of_names_witness :
  getInitials (str "alice@example.com") = JS.toUpperCase (str "a")
  /\ getInitials (str "alice.smith-jones@example.com")
     = JS.toUpperCase (str "as").
Proof.
  exact (initials_of_names 97 115 46 45 (str "lice") (str "mith")
           (str "example.com") (str "jones@example.com")
           eq_refl eq_refl eq_refl eq_refl eq_refl eq_refl).
Defined.

Lemma white_space_plain c : JS.white_space c = true -> plain c = true.
Proof. unfold JS.white_space, plain, separator, at_sign. lia. Qed.

Lemma trim_blank (h : jsstring) :
  forallb JS.white_space h = true -> JS.trim h = [].
Proof.
  intros H. unfold JS.trim, JS.trimEnd.
  assert (Hs : JS.trimStart h = []).
  { induction h as [|c h IH]; [reflexivity|]. cbn [forallb] in H.
    apply andb_prop in H. destruct H as [Hc Hh].
    cbn [JS.trimStart]. rewrite Hc. now apply IH. }
  now rewrite Hs.
Qed.

(** X3. An identifier whose handle is empty or all white space has the
    label [?], with or without a domain after it. *)
Theorem blank_handle_label (h d : jsstring) :
  forallb JS.white_space h = true ->
  getInitials h = str "?" /\ getInitials (h ++ at_sign :: d) = str "?".
Proof.
  intros Hw.
  assert (Hplain : Forall (fun c => separator c = false) h
                   /\ Forall (fun c => c <> at_sign) h).
  { rewrite forallb_forall in Hw.
    split; apply Forall_forall; intros c Hc;
      now apply plain_spec, white_space_plain, Hw. }
  destruct Hplain as [Hsep Hat].
  assert (E : getInitials h = str "?").
  { rewrite getInitials_pieces, handle_plain by assumption.
    rewrite pieces_from_last by assumption. cbn [app].
    destruct h as [|c h']; [reflexivity|]. cbv beta iota zeta.
    unfold LabelSpec.first_characters, LabelSpec.first_character.
    cbn [firstn flat_map]. rewrite trim_blank by assumption. reflexivity. }
  split; [exact E|].
  rewrite (getInitials_handle (h ++ at_sign :: d)), handle_app by assumption.
  cbn [LabelSpec.handle]. rewrite Z.eqb_refl, app_nil_r.
  rewrite <- E. symmetry. rewrite (getInitials_handle h).
  now rewrite handle_plain.
Qed.

Lemma blank_handle_label_witness :
  getInitials (str "  ") = str "?" /\ getInitials (str "  @x.com") = str "?".
Proof. exact (blank_handle_label (str "  ") (str "x.com") eq_refl). Defined.

(** ** What a card shows *)

Lemma node_text_textContent s : flat_map node_text (Dom.textContent s) = s.
Proof. destruct s; [reflexivity|]. cbn. now rewrite app_nil_r. Qed.

Lemma element_tags_textContent s :
  flat_map element_tags (Dom.textContent s) = [].
Proof. destruct s; reflexivity. Qed.

Lemma select_item_spans name ps :
  filter (Dom.has_class "participant-name")
    (flat_map Dom.descendants (map (participantItem name) ps))
  = map (fun p => Dom.Element "span" ["participant-name"%string] []
                    (Dom.textContent p)) ps
  /\ filter (Dom.has_class "participant-avatar")
       (flat_map Dom.descendants (map (participantItem name) ps))
     = map (fun p => Dom.Element "span" ["participant-avatar"%string] []
                       (Dom.textContent (getInitials p))) ps.
Proof.
  induction ps as [|p ps [IHn IHa]]; [split; reflexivity|].
  cbn [map]. rewrite !select_cons, IHn, IHa.
  unfold participantItem, deleteButton. split; select_tree; reflexivity.
Qed.

(** X4. A card names the participants in the order of the listing, each
    with the label [getInitials] gives it: the texts of the name spans
    are the identifiers and those of the avatar spans their labels. *)
Theorem card_participants_in_order (name : jsstring) (d : details) :
  map node_text (Dom.select "participant-name" (activityCard name d))
  = participants d
  /\ map node_text (Dom.select "participant-avatar" (activityCard name d))
     = map getInitials (participants d).
Proof.
  destruct (select_item_spans name (participants d)) as [Sn Sa].
  assert (H : Dom.select "participant-name" (activityCard name d)
              = map (fun p => Dom.Element "span" ["participant-name"%string] []
                                (Dom.textContent p)) (participants d)
          /\ Dom.select "participant-avatar" (activityCard name d)
             = map (fun p => Dom.Element "span" ["participant-avatar"%string]
                               [] (Dom.textContent (getInitials p)))
                   (participants d)).
  { unfold Dom.select, activityCard, participantsListEl, strong.
    split; select_tree.
    - destruct (participants d) as [|p ps]; [reflexivity|].
      rewrite Sn. reflexivity.
    - destruct (participants d) as [|p ps]; [reflexivity|].
      rewrite Sa. reflexivity. }
  destruct H as [-> ->]. rewrite !map_map. cbn [node_text].
  split.
  - rewrite <- (map_id (participants d)) at 2. apply map_ext.
    intros p. apply node_text_textContent.
  - apply map_ext. intros p. apply node_text_textContent.
Qed.

(** X5. The elements of a card are fixed by the number of its
    participants.  The texts the server sends (names, descriptions,
    schedules, identifiers) end in text nodes and attribute values,
    whatever characters they hold; none of them adds an element. *)
Theorem card_elements (name : jsstring) (d : details) :
  element_tags (activityCard name d)
  = ["div"; "h4"; "p"; "p"; "strong"; "p"; "strong"; "div"; "p"; "strong";
     "ul"]%string
    ++ match participants d with
       | [] => ["li"%string]
       | ps =>
           flat_map (fun _ => ["li"; "span"; "span"; "button"]%string) ps
       end.
Proof.
  assert (H : forall ps,
             flat_map element_tags (map (participantItem name) ps)
             = flat_map (fun _ => ["li"; "span"; "span"; "button"]%string) ps).
  { induction ps as [|p ps IH]; [reflexivity|].
    cbn [map flat_map]. rewrite IH. unfold participantItem, deleteButton.
    cbn [element_tags flat_map app]. rewrite !element_tags_textContent.
    reflexivity. }
  unfold activityCard, participantsListEl, strong.
  cbn [element_tags flat_map app]. rewrite !element_tags_textContent.
  cbn [app]. do 11 f_equal.
  destruct (participants d) as [|p ps]; [reflexivity|].
  rewrite ?app_nil_r. apply (H (p :: ps)).
Qed.

(** ** The whole page after [fetchActivities] *)

(** What the effects of a handler add to the logs of the page; no
    effect takes anything away from them. *)
Lemma run_logs es : forall p,
  requests (run p es) = requests p ++ requested es
  /\ alerts (run p es) = alerts p ++ alerted_by es
  /\ console (run p es) = console p ++ logged_by es
  /\ timers (run p es) = timers p ++ scheduled es.
Proof.
  induction es as [|e es IH]; intros p.
  - cbn. now rewrite !app_nil_r.
  - rewrite run_cons. destruct (IH (apply p e)) as (H1 & H2 & H3 & H4).
    rewrite H1, H2, H3, H4.
    destruct e; cbn [apply requests alerts console timers requested
                     alerted_by logged_by scheduled flat_map app];
      rewrite <- ?app_assoc; repeat split; reflexivity.
Qed.

(** The page after the cards and options of a listing are appended. *)
Lemma run_cards_page (activities : listing) : forall p,
  run p (flat_map
           (fun entry =>
              [ AppendCard (activityCard (fst entry) (snd entry));
                AppendOption (activityOption (fst entry)) ]) activities)
  = {| activitiesList :=
         activitiesList p
         ++ map (fun entry => activityCard (fst entry) (snd entry)) activities;
       activitySelect :=
         activitySelect p
         ++ map (fun entry => activityOption (fst entry)) activities;
       messageText := messageText p; messageClasses := messageClasses p;
       deleteButtons := deleteButtons p; timers := timers p;
       requests := requests p; alerts := alerts p; console := console p |}.
Proof.
  induction activities as [|entry l IH]; intros p.
  - cbn. rewrite !app_nil_r. destruct p; reflexivity.
  - cbn [flat_map app map]. rewrite !run_cons, IH.
    cbn [apply activitiesList activitySelect messageText messageClasses
         deleteButtons timers requests alerts console].
    now rewrite <- !app_assoc.
Qed.

(** X6. When [fetchActivities] reads a listing, it replaces what the
    page showed: the list holds the cards of the listing and the
    drop-down the prompt, with an empty value, followed by one option
    per activity, in the order of the listing, whose value and text are
    the activity name.  Nothing of the earlier list or drop-down is
    left, and the message and its timers are not touched. *)
Theorem fetchActivities_replaces (p : page) (ok : bool) (activities : listing) :
  let q :=
    run p (fetchActivities
             (Net.Resolved {| Net.ok := ok; Net.body := Some activities |}))
  in
  activitiesList q
  = map (fun entry => activityCard (fst entry) (snd entry)) activities
  /\ map option_value (activitySelect q)
     = Some [] :: map (fun entry => Some (fst entry)) activities
  /\ map node_text (activitySelect q)
     = str "-- Select an activity --" :: map fst activities
  /\ messageText q = messageText p
  /\ messageClasses q = messageClasses p
  /\ timers q = timers p.
Proof.
  cbv zeta. rewrite fetchActivities_trace. cbn [Net.body app].
  rewrite !run_cons, run_app, run_cards_page, run_cons.
  cbn [run fold_left apply activitiesList activitySelect messageText
       messageClasses timers app map].
  repeat split.
  - rewrite map_map. cbn [option_value selectPrompt Dom.attributes
                          Dom.getAttribute String.eqb Ascii.eqb Bool.eqb].
    f_equal.
  - rewrite map_map. cbn [node_text selectPrompt flat_map app]. f_equal.
    apply map_ext. intros [name d]. cbn [fst activityOption node_text].
    apply node_text_textContent.
Qed.

(** The page after a listing was read. *)
Lemma fetchActivities_page (p : page) (ok : bool) (activities : listing) :
  run p (fetchActivities
           (Net.Resolved {| Net.ok := ok; Net.body := Some activities |}))
  = {| activitiesList :=
         map (fun entry => activityCard (fst entry) (snd entry)) activities;
       activitySelect :=
         selectPrompt
         :: map (fun entry => activityOption (fst entry)) activities;
       messageText := messageText p; messageClasses := messageClasses p;
       deleteButtons :=
         flat_map (Dom.select "delete-btn")
           (map (fun entry => activityCard (fst entry) (snd entry)) activities);
       timers := timers p;
       requests := requests p ++ [list_request]; alerts := alerts p;
       console := console p |}.
Proof.
  rewrite fetchActivities_trace. cbn [Net.body app].
  rewrite !run_cons, run_app, run_cards_page, run_cons. reflexivity.
Qed.

(** X7. When the listing cannot be read, because the request fails or
    the body is not JSON, [fetchActivities] shows the failure notice in
    place of the list, logs one error and leaves no button bound, while
    the drop-down and the message stay as they were.  After a listing
    was read and a later refresh fails, the drop-down therefore still
    offers the activities of that listing although the list shows the
    notice only. *)
Theorem fetchActivities_failure (p : page) (ok : bool) (activities : listing) :
  let failed (q : page) :=
    {| activitiesList := [loadFailure]; activitySelect := activitySelect q;
       messageText := messageText q; messageClasses := messageClasses q;
       deleteButtons := []; timers := timers q;
       requests := requests q ++ [list_request]; alerts := alerts q;
       console := console q ++ [str "Error fetching activities:"] |} in
  let loaded :=
    run p (fetchActivities
             (Net.Resolved {| Net.ok := ok; Net.body := Some activities |})) in
  run p (fetchActivities Net.Rejected) = failed p
  /\ run p (fetchActivities
              (Net.Resolved {| Net.ok := ok; Net.body := None |})) = failed p
  /\ map option_value
       (activitySelect (run loaded (fetchActivities Net.Rejected)))
     = Some [] :: map (fun entry => Some (fst entry)) activities
  /\ map node_text
       (activitiesList (run loaded (fetchActivities Net.Rejected)))
     = [str "Failed to load activities. Please try again later."].
Proof.
  cbv zeta. rewrite fetchActivities_page. repeat split.
  rewrite fetchActivities_trace, !run_cons.
  cbn [run fold_left apply activitySelect map]. f_equal.
  rewrite map_map. reflexivity.
Qed.

(** X8. Every remove button that listens after a listing was read
    sends, when clicked, the unregister request of its own activity and
    participant: the requests of the buttons, in page order, are those
    of the participants of the listing, activity by activity. *)
Theorem bound_buttons_unregister (p : page) (ok : bool) (activities : listing)
    (net : Net.answer Json.value) (net_list : Net.answer listing) :
  map (fun button => requested (delete_click button net net_list))
      (deleteButtons
         (run p (fetchActivities
                   (Net.Resolved
                      {| Net.ok := ok; Net.body := Some activities |}))))
  = flat_map
      (fun entry =>
         map (fun participant =>
                match unregister_url (fst entry) participant with
                | Some url =>
                    {| Net.req_method := Net.POST; Net.req_url := url |}
                    :: follow_up (Some url) net
                | None => []
                end)
             (participants (snd entry)))
      activities.
Proof.
  rewrite bound_delete_buttons.
  induction activities as [|[name d] l IH]; [reflexivity|].
  cbn [flat_map fst snd]. rewrite map_app, IH. f_equal.
  rewrite map_map. apply map_ext. intros participant.
  now rewrite delete_requested, deleteButton_url.
Qed.

(** ** The page after a mutation *)

Lemma result_of_written net ok v text :
  result_of net = Some (ok, v, text) ->
  written ok v = Some text /\ is_null v = false.
Proof.
  unfold result_of. destruct net as [|[ok' [v'|]]]; try discriminate.
  cbn [Net.body Net.ok]. destruct (written ok' v') as [t|] eqn:W;
    [|discriminate].
  intros [= <- <- <-]. split; [exact W|].
  unfold written in W. destruct (is_null v'); [discriminate W | reflexivity].
Qed.

Lemma fetchActivities_silent net_list :
  alerted_by (fetchActivities net_list) = []
  /\ form_resets (fetchActivities net_list) = 0%nat.
Proof.
  assert (H : forall es,
             forallb (fun e => match e with
                               | Alert _ | ResetForm => false
                               | _ => true
                               end) es = true ->
             alerted_by es = [] /\ form_resets es = 0%nat).
  { unfold form_resets. induction es as [|e es IH]; [split; reflexivity|].
    cbn [forallb]. intros H. apply andb_prop in H. destruct H as [He Hes].
    destruct (IH Hes) as [Ha Hr].
    destruct e; try discriminate He;
      cbn [alerted_by flat_map filter app]; fold (alerted_by es);
      rewrite Ha, ?Hr; split; (reflexivity || exact Hr). }
  apply H. rewrite fetchActivities_trace. cbn [forallb andb].
  destruct net_list as [|[ok [activities|]]]; try reflexivity.
  cbn [app forallb andb]. rewrite forallb_app. cbn [forallb andb].
  rewrite andb_true_r.
  induction activities as [|entry l IH]; [reflexivity | exact IH].
Qed.

Lemma alerted_by_cons e es :
  alerted_by (e :: es)
  = match e with Alert a => [a] | _ => [] end ++ alerted_by es.
Proof. reflexivity. Qed.

Lemma alerted_by_app es es' :
  alerted_by (es ++ es') = alerted_by es ++ alerted_by es'.
Proof. apply flat_map_app. Qed.

Lemma form_resets_cons e es :
  form_resets (e :: es)
  = ((match e with ResetForm => 1 | _ => 0 end) + form_resets es)%nat.
Proof. unfold form_resets. destruct e; reflexivity. Qed.

Lemma form_resets_app es es' :
  form_resets (es ++ es') = (form_resets es + form_resets es')%nat.
Proof. unfold form_resets. now rewrite filter_app, length_app. Qed.

(** The message after the effects of a success: the text and the class
    written last, whatever quiet effects follow before it is shown. *)
Lemma run_success_message p (before middle : list effect) text cls :
  forallb quiet middle = true ->
  let q :=
    run p (before ++ SetMessageText text :: SetMessageClass cls
           :: middle ++ [ShowMessage; hide_after_5_seconds]) in
  messageText q = text
  /\ messageClasses q = remove_class "hidden" [cls].
Proof.
  intros Hm. cbv zeta. rewrite run_app, !run_cons, run_app.
  set (q0 := apply (apply (run p before) (SetMessageText text))
               (SetMessageClass cls)).
  destruct (quiet_run middle q0 Hm) as (Ht & Hc & _).
  change (run (run q0 middle) [ShowMessage; hide_after_5_seconds])
    with (apply (apply (run q0 middle) ShowMessage) hide_after_5_seconds).
  cbn [apply messageText messageClasses hide_after_5_seconds].
  rewrite Ht, Hc. split; reflexivity.
Qed.

(** X9. After a mutation that succeeded (the request was built and
    answered [ok] with a usable body), the message shows the text of
    the body's [message] member with the class [success] and is not
    hidden.  The sign-up handler resets the form once and shows no
    alert; the remove handler shows one alert, with the [message], and
    resets no form. *)
Theorem success_message (email activity : jsstring) (button : Dom.node)
    (net : Net.answer Json.value) (net_list : Net.answer listing) (p : page) :
  succeeded (signup_url activity email) net = true ->
  succeeded (delete_url button) net = true ->
  exists v text,
    result_of net = Some (true, v, text)
    /\ text_of (property v "message") = Some text
    /\ messageText (run p (signup_submit email activity net net_list)) = text
    /\ messageClasses (run p (signup_submit email activity net net_list))
       = ["success"%string]
    /\ alerts (run p (signup_submit email activity net net_list)) = alerts p
    /\ form_resets (signup_submit email activity net net_list) = 1%nat
    /\ messageText (run p (delete_click button net net_list)) = text
    /\ messageClasses (run p (delete_click button net net_list))
       = ["success"%string]
    /\ alerts (run p (delete_click button net net_list))
       = alerts p ++ [alerted v]
    /\ form_resets (delete_click button net net_list) = 0%nat.
Proof.
  unfold succeeded. intros Hs Hd.
  destruct (signup_url activity email) as [url|] eqn:Es; [|discriminate].
  destruct (delete_url button) as [url'|] eqn:Ed; [|discriminate].
  destruct (result_of net) as [[[[|] v] text]|] eqn:R; try discriminate.
  exists v, text. split; [reflexivity|].
  destruct (result_of_written _ _ _ _ R) as [W Hnull].
  unfold written in W. rewrite Hnull in W. split; [exact W|].
  destruct (fetchActivities_silent net_list) as [Ha Hr].
  pose proof (fetchActivities_quiet net_list) as Hq.
  destruct (run_logs (signup_submit email activity net net_list) p)
    as (_ & As & _).
  destruct (run_logs (delete_click button net net_list) p) as (_ & Ad & _).
  rewrite As, Ad. rewrite signup_submit_trace, delete_click_trace, Es, Ed, R.
  destruct (run_success_message p
              [PreventDefault;
               Fetch {| Net.req_method := Net.POST; Net.req_url := url |}]
              (ResetForm :: fetchActivities net_list) text "success")
    as [Ts Cs]; [exact Hq|].
  destruct (run_success_message p
              [PreventDefault;
               Fetch {| Net.req_method := Net.POST; Net.req_url := url' |};
               Alert (alerted v)]
              (fetchActivities net_list) text "success")
    as [Td Cd]; [exact Hq|].
  cbn [app] in Ts, Cs, Td, Cd |- *.
  repeat rewrite alerted_by_cons. repeat rewrite form_resets_cons.
  rewrite !alerted_by_app, !form_resets_app, Ha, Hr. cbn [app].
  rewrite app_nil_r.
  repeat split; try assumption; reflexivity.
Qed.

Lemma success_message_witness :
  exists v text,
    result_of
      (Net.Resolved
         {| Net.ok := true;
            Net.body :=
              Some (Json.JObject
                      [(str "message", Json.JString (str "Done"))]) |})
    = Some (true, v, text)
    /\ text_of (property v "message") = Some text
    /\ messageText
         (run blank_page
            (signup_submit (str "a@x.com") (str "Chess Club")
               (Net.Resolved
                  {| Net.ok := true;
                     Net.body :=
                       Some (Json.JObject
                               [(str "message", Json.JString (str "Done"))]) |})
               Net.Rejected)) = text.
Proof.
  destruct (success_message (str "a@x.com") (str "Chess Club")
              (deleteButton (str "Chess Club") (str "a@x.com"))
              (Net.Resolved
                 {| Net.ok := true;
                    Net.body :=
                      Some (Json.JObject
                              [(str "message", Json.JString (str "Done"))]) |})
              Net.Rejected blank_page eq_refl eq_refl)
    as (v & text & H1 & H2 & H3 & _).
  exists v, text. repeat split; assumption.
Defined.

(** X10. A mutation that ends in the [catch] block (the request could
    not be built, failed, or was answered without a usable body)
    changes the message, the request log and the console only: the
    message gets the text of the block and the class [error], one error
    is logged, and the list, the drop-down, the bound buttons, the
    timers and the alerts stay as they were. *)
Theorem caught_attempt_page (email activity : jsstring) (button : Dom.node)
    (net : Net.answer Json.value) (net_list : Net.answer listing) (p : page) :
  answered (signup_url activity email) net = false ->
  answered (delete_url button) net = false ->
  run p (signup_submit email activity net net_list)
  = {| activitiesList := activitiesList p; activitySelect := activitySelect p;
       messageText := str "Failed to sign up. Please try again.";
       messageClasses := ["error"%string];
       deleteButtons := deleteButtons p; timers := timers p;
       requests :=
         requests p
         ++ match signup_url activity email with
            | Some url =>
                [{| Net.req_method := Net.POST; Net.req_url := url |}]
            | None => []
            end;
       alerts := alerts p;
       console := console p ++ [str "Error signing up:"] |}
  /\ run p (delete_click button net net_list)
     = {| activitiesList := activitiesList p;
          activitySelect := activitySelect p;
          messageText := str "Failed to remove participant. Please try again.";
          messageClasses := ["error"%string];
          deleteButtons := deleteButtons p; timers := timers p;
          requests :=
            requests p
            ++ match delete_url button with
               | Some url =>
                   [{| Net.req_method := Net.POST; Net.req_url := url |}]
               | None => []
               end;
          alerts := alerts p;
          console := console p ++ [str "Error removing participant:"] |}.
Proof.
  unfold answered. intros Hs Hd.
  rewrite signup_submit_trace, delete_click_trace.
  destruct (result_of net) as [[[ok v] text]|].
  - destruct (signup_url activity email); [discriminate|].
    destruct (delete_url button); [discriminate|].
    rewrite app_nil_r. split; reflexivity.
  - destruct (signup_url activity email), (delete_url button);
      rewrite ?app_nil_r; split; reflexivity.
Qed.

Lemma caught_attempt_page_witness :
  messageText
    (run blank_page
       (signup_submit (str "a@x.com") (str "Chess Club") Net.Rejected
          Net.Rejected))
  = str "Failed to sign up. Please try again."
  /\ console
       (run blank_page
          (delete_click (deleteButton (str "Chess Club") (str "a@x.com"))
             Net.Rejected Net.Rejected))
     = [str "Error removing participant:"].
Proof.
  destruct (caught_attempt_page (str "a@x.com") (str "Chess Club")
              (deleteButton (str "Chess Club") (str "a@x.com"))
              Net.Rejected Net.Rejected blank_page eq_refl eq_refl)
    as [Hs Hd].
  rewrite Hs, Hd. split; reflexivity.
Defined.

(** ** Timers that outlive their message *)

Lemma signup_scheduled email activity net net_list :
  scheduled (signup_submit email activity net net_list)
  = if answered (signup_url activity email) net
    then [([HideMessage], 5000)] else [].
Proof.
  rewrite signup_submit_trace. unfold answered.
  pose proof (fetchActivities_quiet net_list) as Hq.
  destruct (signup_url activity email) as [url|]; [|reflexivity].
  destruct (result_of net) as [[[[|] v] text]|]; try reflexivity.
  cbn [app]. repeat rewrite scheduled_cons. cbn [app].
  destruct (quiet_trace (fetchActivities net_list)
              [ShowMessage; hide_after_5_seconds] true true Hq)
    as (_ & -> & _).
  reflexivity.
Qed.

(** The sign-up handler always leaves the message shown. *)
Lemma signup_shows_message email activity net net_list p :
  message_hidden (run p (signup_submit email activity net net_list)) = false.
Proof.
  rewrite signup_submit_trace. unfold message_hidden.
  destruct (signup_url activity email) as [url|]; [|reflexivity].
  destruct (result_of net) as [[[[|] v] text]|]; try reflexivity.
  destruct (run_success_message p
              [PreventDefault;
               Fetch {| Net.req_method := Net.POST; Net.req_url := url |}]
              (ResetForm :: fetchActivities net_list) text "success"
              (fetchActivities_quiet net_list)) as [_ Hc].
  cbn [app] in Hc |- *. rewrite Hc. reflexivity.
Qed.

(** X11. The handlers never cancel a timer.  When two sign-up attempts
    are answered on a page without pending timers, two timers are
    pending afterwards; the message of the second attempt is shown, and
    when the timer of the first attempt expires it hides that message,
    its text unchanged, while the timer of the second attempt is still
    pending. *)
Theorem stale_timer_hides_message (p : page)
    (email1 activity1 email2 activity2 : jsstring)
    (net1 net2 : Net.answer Json.value) (list1 list2 : Net.answer listing) :
  timers p = [] ->
  answered (signup_url activity1 email1) net1 = true ->
  answered (signup_url activity2 email2) net2 = true ->
  let p2 :=
    run (run p (signup_submit email1 activity1 net1 list1))
        (signup_submit email2 activity2 net2 list2) in
  timers p2 = [([HideMessage], 5000); ([HideMessage], 5000)]
  /\ message_hidden p2 = false
  /\ message_hidden (expire p2) = true
  /\ messageText (expire p2) = messageText p2
  /\ timers (expire p2) = [([HideMessage], 5000)].
Proof.
  intros Hp H1 H2 p2.
  assert (Ht : timers p2 = [([HideMessage], 5000); ([HideMessage], 5000)]).
  { subst p2.
    destruct (run_logs (signup_submit email2 activity2 net2 list2)
                (run p (signup_submit email1 activity1 net1 list1)))
      as (_ & _ & _ & ->).
    destruct (run_logs (signup_submit email1 activity1 net1 list1) p)
      as (_ & _ & _ & ->).
    now rewrite !signup_scheduled, H1, H2, Hp. }
  split; [exact Ht|]. split; [apply signup_shows_message|].
  unfold expire. rewrite Ht.
  cbn [run fold_left apply messageText messageClasses timers message_hidden].
  repeat split. unfold message_hidden. cbn [messageClasses].
  unfold add_class.
  destruct (existsb (String.eqb "hidden") (messageClasses p2)) eqn:E;
    [exact E|].
  rewrite existsb_app. cbn. apply orb_true_r.
Qed.

Lemma stale_timer_hides_message_witness :
  message_hidden
    (expire
       (run (run blank_page
               (signup_submit (str "a@x.com") (str "Chess Club")
                  (Net.Resolved activity_full) Net.Rejected))
            (signup_submit (str "b@x.com") (str "Chess Club")
               (Net.Resolved activity_full) Net.Rejected)))
  = true.
Proof.
  exact (proj1 (proj2 (proj2
           (stale_timer_hides_message blank_page
              (str "a@x.com") (str "Chess Club")
              (str "b@x.com") (str "Chess Club")
              (Net.Resolved activity_full) (Net.Resolved activity_full)
              Net.Rejected Net.Rejected eq_refl eq_refl eq_refl)))).
Defined.
